(** * A shallow embedding of the media batch pipeline

    Sources embedded: [media/media_process.py], [media/img2webp.py] and
    [media/video_compress.py].

    The development has two parts.  Part I translates the Python code into
    executable Rocq definitions, keeping the names of the source.  Part II
    states and proves the properties of the pipeline.

    Modelling conventions.
    - Python [str] is [string]; [pathlib.Path] is the list of its parts.
    - The input tree is an inductive [node]; the order of the children of a
      directory is the order in which [Path.iterdir] yields them.
    - The files that single-file processing reads and writes live in a finite
      map from paths to files ([gmap Path file]); directories are implicit.
    - Stateful code is written in a state-and-exception monad [M S]; an
      uncaught Python exception is the outcome [Raise].
    - External programs (cwebp, ffmpeg), the shell and concurrent workers
      are not code of the repository: what they answer is read from an [env]
      record.  A command line given to the shell is launched as it is written
      when it is plain; otherwise what the shell does with it is read from
      the record as well. *)

From Stdlib Require Import ZArith String Ascii.
From stdpp Require Import base option list gmap strings pretty.

#[local] Set Warnings "-register-all".

Local Open Scope string_scope.
Local Open Scope list_scope.
Local Open Scope Z_scope.

(* ===================================================================== *)
(** * Part I: the embedding                                               *)
(* ===================================================================== *)

(** ** Python strings *)

Module PyStr.

(** [s.startswith(p)] *)
Fixpoint startswith (s p : string) {struct p} : bool :=
  match p, s with
  | EmptyString, _ => true
  | String a p', String b s' => Ascii.eqb a b && startswith s' p'
  | String _ _, EmptyString => false
  end.

(** [s.endswith(p)]: [s] is [p], or what follows its first character
    ends with [p] *)
Fixpoint endswith (s p : string) : bool :=
  String.eqb s p
  || match s with
     | EmptyString => false
     | String _ s' => endswith s' p
     end.

(** [s[1:]] *)
Definition tail (s : string) : string :=
  match s with
  | EmptyString => EmptyString
  | String _ s' => s'
  end.

(** [s[:-1]] *)
Fixpoint init (s : string) : string :=
  match s with
  | EmptyString => EmptyString
  | String _ EmptyString => EmptyString
  | String c s' => String c (init s')
  end.

(** [s[i:]] *)
Fixpoint drop (i : nat) (s : string) : string :=
  match i, s with
  | O, _ => s
  | S i', String _ s' => drop i' s'
  | S _, EmptyString => EmptyString
  end.

(** [s[:i]] *)
Fixpoint take (i : nat) (s : string) : string :=
  match i, s with
  | S i', String c s' => String c (take i' s')
  | _, _ => EmptyString
  end.

Definition lower_ascii (c : ascii) : ascii :=
  let n := nat_of_ascii c in
  if (65 <=? n)%nat && (n <=? 90)%nat then ascii_of_nat (n + 32) else c.

(** [s.lower()], on ASCII letters *)
Fixpoint lower (s : string) : string :=
  match s with
  | EmptyString => EmptyString
  | String c s' => String (lower_ascii c) (lower s')
  end.

Fixpoint rfind_from (c : ascii) (s : string) (i : nat) (found : option nat)
  : option nat :=
  match s with
  | EmptyString => found
  | String a s' =>
      rfind_from c s' (S i) (if Ascii.eqb a c then Some i else found)
  end.

(** [s.rfind(c)]; Python's [-1] is [None] *)
Definition rfind (c : ascii) (s : string) : option nat :=
  rfind_from c s 0%nat None.

Definition is_space (c : ascii) : bool :=
  let n := nat_of_ascii c in
  ((9 <=? n)%nat && (n <=? 13)%nat) || (n =? 32)%nat.

Fixpoint lstrip (s : string) : string :=
  match s with
  | String c s' => if is_space c then lstrip s' else s
  | EmptyString => EmptyString
  end.

(** [s.strip()], on ASCII white space *)
Definition strip (s : string) : string :=
  String.rev (lstrip (String.rev (lstrip s))).

(** [s.split('\n')[-1]]: the text after the last line feed *)
Definition last_line (s : string) : string :=
  match rfind "010" s with
  | Some i => drop (S i) s
  | None => s
  end.

Definition digit (c : ascii) : option Z :=
  let n := nat_of_ascii c in
  if (48 <=? n)%nat && (n <=? 57)%nat then Some (Z.of_nat n - 48) else None.

Fixpoint digits (s : string) (acc : Z) : option Z :=
  match s with
  | EmptyString => Some acc
  | String c s' =>
      match digit c with
      | Some d => digits s' (10 * acc + d)
      | None => None
      end
  end.

(** [int(s)] on plain decimal numerals with an optional sign; [None] is
    [ValueError].  (White space and underscores, which Python also
    accepts, are not.) *)
Definition int (s : string) : option Z :=
  match s with
  | EmptyString => None
  | String "-" (String _ _ as s') => Z.opp <$> digits s' 0
  | String "+" (String _ _ as s') => digits s' 0
  | _ => digits s 0
  end.

(** [s] between two double quotes *)
Definition quoted (s : string) : string :=
  String "034" (s +:+ String "034" EmptyString).

(** Python truthiness of a string *)
Definition truthy (s : string) : bool :=
  match s with EmptyString => false | _ => true end.

End PyStr.

(** ** pathlib paths *)

Abbreviation Path := (list string).

Module PyPath.

(** [p.name] *)
Definition name (p : Path) : string := List.last p "".

(** [p / child] *)
Definition div (p : Path) (child : string) : Path := p ++ [child].

(** [p.parent] *)
Definition parent (p : Path) : Path := removelast p.

(** The split point of [PurePath.suffix] and [PurePath.stem]:
    [i = name.rfind('.')] when [0 < i < len(name) - 1]. *)
Definition split_point (nm : string) : option nat :=
  match PyStr.rfind "." nm with
  | Some i =>
      if (0 <? i)%nat && (i + 1 <? String.length nm)%nat
      then Some i else None
  | None => None
  end.

Definition suffix_of_name (nm : string) : string :=
  match split_point nm with
  | Some i => PyStr.drop i nm
  | None => ""
  end.

Definition stem_of_name (nm : string) : string :=
  match split_point nm with
  | Some i => PyStr.take i nm
  | None => nm
  end.

(** [p.suffix] *)
Definition suffix (p : Path) : string := suffix_of_name (name p).

(** [p.stem] *)
Definition stem (p : Path) : string := stem_of_name (name p).

Fixpoint strip_prefix (base p : Path) : option Path :=
  match base, p with
  | [], _ => Some p
  | b :: base', x :: p' =>
      if String.eqb b x then strip_prefix base' p' else None
  | _ :: _, [] => None
  end.

(** [p.relative_to(base)]; [None] is [ValueError] *)
Definition relative_to (p base : Path) : option Path := strip_prefix base p.

(** [str(p)]: the parts joined by a slash, after the root if the path
    has one; a path without parts is the current directory *)
Definition str (p : Path) : string :=
  match p with
  | [] => "."
  | "/" :: rest => "/" +:+ String.concat "/" rest
  | _ => String.concat "/" p
  end.

(** [Path(f"{p}{suffix}")]: the text is appended to the last part *)
Definition append_text (p : Path) (text : string) : Path :=
  match p with
  | [] => [text]
  | _ => removelast p ++ [List.last p "" +:+ text]
  end.

End PyPath.

Notation "p // c" := (PyPath.div p c) (at level 40, left associativity).

(** ** Exceptions and the state-and-exception monad *)

(** The Python exceptions the embedded code can meet. *)
Inductive exn : Type :=
| CalledProcessError (returncode : Z) (stderr : string)
| FileNotFoundError
| NotADirectoryError
| TypeError
| ValueError
| RuntimeError (text : string)
| KeyError
| AttributeError
| ZeroDivisionError.

Inductive outcome (A : Type) : Type :=
| Ret (a : A)
| Raise (e : exn).
Arguments Ret {A} a.
Arguments Raise {A} e.

(** A computation over a mutable state [S] that returns or raises. *)
Definition M (S A : Type) : Type := S -> S * outcome A.

#[export] Instance M_ret {S} : MRet (M S) := fun A a s => (s, Ret a).

#[export] Instance M_bind {S} : MBind (M S) := fun A B f m s =>
  match m s with
  | (s', Ret a) => f a s'
  | (s', Raise e) => (s', Raise e)
  end.

Definition raise {S A} (e : exn) : M S A := fun s => (s, Raise e).
Definition get {S} : M S S := fun s => (s, Ret s).
Definition modify {S} (f : S -> S) : M S unit := fun s => (f s, Ret tt).

(** [try: body except ... as e: handler e] *)
Definition try_except {S A} (body : M S A) (handler : exn -> M S A) : M S A :=
  fun s =>
    match body s with
    | (s', Ret a) => (s', Ret a)
    | (s', Raise e) => handler e s'
    end.

(** [for x in xs: acc = body x acc] *)
Definition for_in {S A B} (xs : list A) (acc : B) (body : A -> B -> M S B)
  : M S B :=
  (fix loop (l : list A) (b : B) {struct l} : M S B :=
     match l with
     | [] => mret b
     | x :: rest => b' ← body x b; loop rest b'
     end) xs acc.

(** Run a computation on a component of the state. *)
Definition zoom {S T A} (proj : S -> T) (inj : T -> S -> S) (m : M T A)
  : M S A :=
  fun s => let '(t, r) := m (proj s) in (inj t s, r).

(** ** media_process.py: DirectoryProcessor *)

Definition compressed_identifier : string := "_compressed".

Record DirectoryProcessor : Type := mkDirectoryProcessor {
  input_base_dir : Path;
  output_base_dir : Path;
  skip_dir_patterns : list string;
  skip_file_patterns : list string;
  skipped_dirs : list Path;
  skipped_files : list Path
}.

(** [DirectoryProcessor.__init__] *)
Definition DirectoryProcessor_init (input_base : Path) (output_suffix : string)
  : DirectoryProcessor :=
  {| input_base_dir := input_base;
     output_base_dir := PyPath.append_text input_base output_suffix;
     skip_dir_patterns := ["@*"; ".*"];
     skip_file_patterns := [".*"];
     skipped_dirs := [];
     skipped_files := [] |}.

Definition append_skipped_dir (p : Path) (dp : DirectoryProcessor)
  : DirectoryProcessor :=
  {| input_base_dir := input_base_dir dp;
     output_base_dir := output_base_dir dp;
     skip_dir_patterns := skip_dir_patterns dp;
     skip_file_patterns := skip_file_patterns dp;
     skipped_dirs := skipped_dirs dp ++ [p];
     skipped_files := skipped_files dp |}.

Definition append_skipped_file (p : Path) (dp : DirectoryProcessor)
  : DirectoryProcessor :=
  {| input_base_dir := input_base_dir dp;
     output_base_dir := output_base_dir dp;
     skip_dir_patterns := skip_dir_patterns dp;
     skip_file_patterns := skip_file_patterns dp;
     skipped_dirs := skipped_dirs dp;
     skipped_files := skipped_files dp ++ [p] |}.

(** The [for pattern in self.skip_dir_patterns] loop of [should_skip_dir]. *)
Fixpoint should_skip_dir_loop (dir_path : Path) (patterns : list string)
  : M DirectoryProcessor bool :=
  let dir_name := PyPath.name dir_path in
  match patterns with
  | [] => mret false
  | pattern :: rest =>
      if PyStr.endswith pattern "*"
         && PyStr.startswith dir_name (PyStr.init pattern)
      then modify (append_skipped_dir dir_path);; mret true
      else if PyStr.startswith pattern "*"
              && PyStr.endswith dir_name (PyStr.tail pattern)
      then modify (append_skipped_dir dir_path);; mret true
      else if String.eqb pattern dir_name
      then modify (append_skipped_dir dir_path);; mret true
      else should_skip_dir_loop dir_path rest
  end.

Definition should_skip_dir (dir_path : Path) : M DirectoryProcessor bool :=
  self ← get;
  should_skip_dir_loop dir_path (skip_dir_patterns self).

(** The [for pattern in self.skip_file_patterns] loop of [should_skip_file]. *)
Fixpoint should_skip_file_loop (file_path : Path) (patterns : list string)
  : M DirectoryProcessor bool :=
  let file_name := PyPath.name file_path in
  match patterns with
  | [] => mret false
  | pattern :: rest =>
      if PyStr.endswith pattern "*"
         && PyStr.startswith file_name (PyStr.init pattern)
      then modify (append_skipped_file file_path);; mret true
      else if PyStr.startswith pattern "*"
              && PyStr.endswith file_name (PyStr.tail pattern)
      then modify (append_skipped_file file_path);; mret true
      else if String.eqb pattern file_name
      then modify (append_skipped_file file_path);; mret true
      else should_skip_file_loop file_path rest
  end.

Definition should_skip_file (file_path : Path) : M DirectoryProcessor bool :=
  self ← get;
  should_skip_file_loop file_path (skip_file_patterns self).

(** ** The input tree *)

(** An entry of a directory.  [Special] is an entry for which both
    [is_file()] and [is_dir()] answer [False]. *)
Inductive node : Type :=
| File (name : string)
| Dir (name : string) (children : list node)
| Special (name : string).

Definition node_name (n : node) : string :=
  match n with
  | File nm | Dir nm _ | Special nm => nm
  end.

(** [item.suffix.lower() in supported_formats] *)
Definition suffix_supported (supported_formats : list string) (item : Path)
  : bool :=
  bool_decide (PyStr.lower (PyPath.suffix item) ∈ supported_formats).

(** [p.iterdir()], for the entry [n] found at [p] *)
Definition iterdir {S} (n : node) : M S (list node) :=
  match n with
  | Dir _ children => mret children
  | _ => raise NotADirectoryError
  end.

(** The inner function [_collect] of [collect_all_files].  [input_dir] is
    the entry found at [input_path]; [files] is the list of the enclosing
    scope, returned after the appends. *)
Fixpoint _collect (supported_formats : list string) (input_path : Path)
    (input_dir : node) (files : list Path) {struct input_dir}
  : M DirectoryProcessor (list Path) :=
  match input_dir with
  | Dir _ children =>
      for_in children files (fun item files =>
        let item_path := input_path // node_name item in
        match item with
        | File _ =>
            if suffix_supported supported_formats item_path then
              skip ← should_skip_file item_path;
              mret (if skip : bool then files else files ++ [item_path])
            else mret files
        | Dir _ _ =>
            skip ← should_skip_dir item_path;
            if skip : bool then mret files
            else _collect supported_formats item_path item files
        | Special _ => mret files
        end)
  | _ => raise NotADirectoryError
  end.

(** [collect_all_files]; [tree] is the entry found at
    [self.input_base_dir]. *)
Definition collect_all_files (tree : node) (supported_formats : list string)
  : M DirectoryProcessor (list Path) :=
  self ← get;
  _collect supported_formats (input_base_dir self) tree [].

(** [collect_current_dir_files]; [dir] is the entry found at [input_dir].
    The two lists of the source are the accumulator of the loop. *)
Definition collect_current_dir_files (input_dir : Path) (dir : node)
    (supported_formats : list string)
  : M DirectoryProcessor (list Path * list Path) :=
  items ← iterdir dir;
  for_in items ([], []) (fun item '(current_dir_files, subdirs) =>
    let item_path := input_dir // node_name item in
    match item with
    | File _ =>
        if suffix_supported supported_formats item_path then
          skip ← should_skip_file item_path;
          mret (if skip : bool then current_dir_files
                else current_dir_files ++ [item_path], subdirs)
        else mret (current_dir_files, subdirs)
    | Dir _ _ =>
        skip ← should_skip_dir item_path;
        mret (current_dir_files,
              if skip : bool then subdirs else subdirs ++ [item_path])
    | Special _ => mret (current_dir_files, subdirs)
    end).

(** ** The files of single-file processing *)

(** A regular file: its size, and whether its content is whole.  A file
    that a writer has opened and not finished is not [complete]. *)
Record file : Type := mkFile { st_size : Z; complete : bool }.

(** The state single-file processing runs in.  [history] holds the file
    map after each write, oldest first: the states a kill of the process can
    leave behind.  [encoder_runs] counts the launches of the encoder. *)
Record world : Type := mkWorld {
  files : gmap Path file;
  history : list (gmap Path file);
  encoder_runs : nat
}.

Definition write (f : gmap Path file -> gmap Path file) : M world unit :=
  modify (fun w =>
    {| files := f (files w);
       history := history w ++ [f (files w)];
       encoder_runs := encoder_runs w |}).

Definition count_encoder_run : M world unit :=
  modify (fun w =>
    {| files := files w;
       history := history w;
       encoder_runs := S (encoder_runs w) |}).

(** [p.exists()] *)
Definition exists_ (p : Path) : M world bool :=
  w ← get; mret (bool_decide (is_Some (files w !! p))).

(** [p.unlink()] *)
Definition unlink (p : Path) : M world unit :=
  w ← get;
  match files w !! p with
  | Some _ => write (delete p)
  | None => raise FileNotFoundError
  end.

(** [p.stat().st_size] *)
Definition stat_st_size (p : Path) : M world Z :=
  w ← get;
  match files w !! p with
  | Some f => mret (st_size f)
  | None => raise FileNotFoundError
  end.

(** [p.mkdir(parents=True, exist_ok=True)]: directories are implicit in
    the file map, which it leaves as it is. *)
Definition mkdir (p : Path) : M world unit := mret tt.

(** [shutil.move(src, dst)] inside one directory: a rename, one step. *)
Definition shutil_move (src dst : Path) : M world unit :=
  w ← get;
  match files w !! src with
  | Some f => write (fun m => <[dst := f]> (delete src m))
  | None => raise FileNotFoundError
  end.

(** [shutil.copy2(src, dst)]: [dst] is opened for writing, then filled. *)
Definition shutil_copy2 (src dst : Path) : M world unit :=
  w ← get;
  match files w !! src with
  | Some f =>
      write (<[dst := {| st_size := 0; complete := false |}]>);;
      write (<[dst := f]>)
  | None => raise FileNotFoundError
  end.

(** ** What lies outside the repository *)

(** One run of the external encoder: it cannot be launched, or it exits
    with [returncode] after leaving [written] bytes at the path it was told
    to write ([None]: it created no file).  The file it leaves is whole
    exactly when it exits with code 0. *)
Inductive tool_outcome : Type :=
| NotFound
| Exited (returncode : Z) (written : option Z).

(** The answers of the outside world during the processing of one file. *)
Record env : Type := mkEnv {
  (** is the command [ffmpeg7] installed *)
  ffmpeg7_available : bool;
  (** the value of [get_video_bitrate(video_path)] *)
  bitrate_probe : option Z;
  (** the value of [check_hardware_encoder(ffmpeg_cmd)]; [None] is the
      [None] it returns after an exception *)
  hardware_encoder : option (option string * option string);
  (** exit code of the trial run of the hardware encoder *)
  hardware_test_returncode : Z;
  (** the run of the encoder on this file *)
  encoder : tool_outcome;
  (** a concurrent worker that, while the encoder runs, publishes a whole
      file of that size at that path (if nothing is there yet) *)
  rival : option (Path * Z);
  (** what the shell makes of a command line that holds characters special
      to it: what its substitutions do to the disk, and the file the program
      is then told to write, in place of the one the line was built for *)
  shell_expansion : string -> (gmap Path file -> gmap Path file) * Path
}.

(** The encoder process, told to write [target].  Returns the exit code;
    [None] when the program could not be launched. *)
Definition run_encoder (e : env) (target : Path) : M world (option Z) :=
  count_encoder_run;;
  match encoder e with
  | NotFound => mret None
  | Exited returncode written =>
      match written with
      | Some size =>
          write (<[target := {| st_size := 0; complete := false |}]>);;
          write (<[target := {| st_size := size;
                                complete := (returncode =? 0) |}]>)
      | None => mret tt
      end;;
      match rival e with
      | Some (published, size) =>
          present ← exists_ published;
          if present : bool then mret tt
          else write (<[published := {| st_size := size;
                                        complete := true |}]>)
      | None => mret tt
      end;;
      mret (Some returncode)
  end.

(** ** The shell

    [video_compress.py] hands its command lines to the shell:
    [' '.join(cmd)] with [shell=True].  The shell takes a word between double
    quotes as it is, unless the word holds a double quote, a dollar sign, a
    backquote or a backslash; it takes a bare word as it is when the word is
    made of letters, digits and the characters [- . / : _].  A line of such
    words is plain: the program is launched with the words as they are.  On
    any other line the shell expands, substitutes or splits, and what that
    does is the world's ([shell_expansion]). *)

Fixpoint string_forall (P : ascii -> bool) (s : string) : bool :=
  match s with
  | EmptyString => true
  | String c s' => P c && string_forall P s'
  end.

(** A character that stands for itself between double quotes. *)
Definition shell_quoted_char (c : ascii) : bool :=
  let n := nat_of_ascii c in
  negb ((n =? 34) || (n =? 36) || (n =? 92) || (n =? 96))%nat.

(** A character that stands for itself in a bare word. *)
Definition shell_bare_char (c : ascii) : bool :=
  let n := nat_of_ascii c in
  (((48 <=? n) && (n <=? 57)) || ((65 <=? n) && (n <=? 90))
   || ((97 <=? n) && (n <=? 122))
   || (n =? 45) || (n =? 46) || (n =? 47) || (n =? 58) || (n =? 95))%nat.

(** What follows an opening double quote: characters that stand for
    themselves, then the closing quote, then nothing. *)
Fixpoint shell_quoted_tail (s : string) : bool :=
  match s with
  | EmptyString => false
  | String c EmptyString => (nat_of_ascii c =? 34)%nat
  | String c s' => shell_quoted_char c && shell_quoted_tail s'
  end.

Definition shell_word_plain (word : string) : bool :=
  match word with
  | EmptyString => true
  | String c rest =>
      if (nat_of_ascii c =? 34)%nat then shell_quoted_tail rest
      else string_forall shell_bare_char word
  end.

Definition shell_line_plain (cmd : list string) : bool :=
  forallb shell_word_plain cmd.

(** What the shell does to the disk before it launches the program of
    [' '.join(cmd)]. *)
Definition shell_substitutions (e : env) (cmd : list string) : M world unit :=
  if shell_line_plain cmd then mret tt
  else write (shell_expansion e (String.concat " " cmd)).1.

(** The file the program of [' '.join(cmd)] is told to write, when the
    line was built for [target]. *)
Definition shell_target (e : env) (cmd : list string) (target : Path) : Path :=
  if shell_line_plain cmd then target
  else (shell_expansion e (String.concat " " cmd)).2.

(** ** media_process.py: sizes and savings *)

(** [format_size(size)].  The loop divides by 1024 until the value is
    below 1024; the value is kept as the exact fraction [num / den] and the
    unit it is printed with (the two-decimal rendering is left out).
    A [None] argument fails at the first comparison [size < 1024]. *)
Fixpoint format_size_loop (units : list string) (num den : Z)
  : Z * Z * string :=
  match units with
  | [] => (num, den, "TB")
  | unit :: rest =>
      if num <? 1024 * den then (num, den, unit)
      else format_size_loop rest num (den * 1024)
  end.

Definition format_size {S} (size : option Z) : M S (Z * Z * string) :=
  match size with
  | None => raise TypeError
  | Some n => mret (format_size_loop ["B"; "KB"; "MB"; "GB"] n 1)
  end.

(** The dictionary built by [calc_save_space]; its [formatted_text] is a
    rendering of the other fields. *)
Record Stats : Type := mkStats {
  origin_file : Path;
  original_size : Z;
  processed_size : Z;
  saved_size : Z
}.

(** [calc_save_space(input_file, output_file)] *)
Definition calc_save_space (input_file output_file : Path) : M world Stats :=
  original_size ← stat_st_size input_file;
  output_size ← stat_st_size output_file;
  let saved_space := original_size - output_size in
  _ ← format_size (Some original_size);
  _ ← format_size (Some output_size);
  _ ← format_size (Some saved_space);
  mret {| origin_file := input_file;
          original_size := original_size;
          processed_size := output_size;
          saved_size := saved_space |}.

(** ** Task results *)

(** The remark a success message ends with. *)
Inductive remark : Type :=
| AlreadyExists     (* the output was there before the encoder was tried *)
| OtherProcess      (* the output appeared while the encoder ran *)
| Done.             (* the output was published by this task *)

(** The text under the key [message], by its parts. *)
Inductive Message : Type :=
| MsgStats (s : Stats) (r : remark)
| MsgErrorCode (rel_path : Path) (returncode : Z) (detail : string)
| MsgError (rel_path : Path) (e : exn).

(** The dictionary a task returns: [message], and the keys of [Stats]
    when the task succeeded. *)
Record ResultDict : Type := mkResultDict {
  message : Message;
  stats_of : option Stats
}.

(** [(status, stats)] *)
Abbreviation TaskResult := (bool * ResultDict)%type.

Definition success (s : Stats) (r : remark) : TaskResult :=
  (true, {| message := MsgStats s r; stats_of := Some s |}).

Definition failure (m : Message) : TaskResult :=
  (false, {| message := m; stats_of := None |}).

(** [p.relative_to(base)] as a computation *)
Definition relative_to {S} (p base : Path) : M S Path :=
  match PyPath.relative_to p base with
  | Some rel => mret rel
  | None => raise ValueError
  end.

(** [if temp_file.exists(): temp_file.unlink()] *)
Definition unlink_if_exists (temp_file : Path) : M world unit :=
  present ← exists_ temp_file;
  if present : bool then unlink temp_file else mret tt.

(** ** img2webp.py *)

(** [subprocess.run(cmd, check=True, ...)] for the cwebp command that
    writes [temp_file]. *)
Definition subprocess_run_check (e : env) (temp_file : Path)
  : M world unit :=
  r ← run_encoder e temp_file;
  match r with
  | None => raise FileNotFoundError
  | Some returncode =>
      if returncode =? 0 then mret tt
      else raise (CalledProcessError returncode "")
  end.

(** The values of the local variables [output_path] and [temp_file] of
    [process_image]. *)
Definition image_output_path (img_path input_base output_base : Path)
  : option Path :=
  rel_path ← PyPath.relative_to img_path input_base;
  Some ((output_base ++ PyPath.parent rel_path)
          // (PyPath.stem img_path +:+ ".webp")).

Definition image_temp_file (img_path input_base output_base : Path)
  : option Path :=
  rel_path ← PyPath.relative_to img_path input_base;
  Some ((output_base ++ PyPath.parent rel_path)
          // (PyPath.stem img_path +:+ ".webp.tmp")).

(** [process_image(args)] *)
Definition process_image (e : env) (args : Path * Path * Path * Z)
  : M world TaskResult :=
  let '(img_path, input_base_dir, output_base_dir, quality) := args in
  rel_path ← relative_to img_path input_base_dir;
  let output_dir := output_base_dir ++ PyPath.parent rel_path in
  mkdir output_dir;;
  let output_path := output_dir // (PyPath.stem img_path +:+ ".webp") in
  present ← exists_ output_path;
  if present : bool then
    stats ← calc_save_space img_path output_path;
    mret (success stats AlreadyExists)
  else
    let temp_file := output_dir // (PyPath.stem img_path +:+ ".webp.tmp") in
    unlink_if_exists temp_file;;
    try_except
      (subprocess_run_check e temp_file;;
       present ← exists_ output_path;
       if present : bool then
         unlink temp_file;;
         stats ← calc_save_space img_path output_path;
         mret (success stats OtherProcess)
       else
         shutil_move temp_file output_path;;
         stats ← calc_save_space img_path output_path;
         mret (success stats Done))
      (fun exc =>
         match exc with
         | CalledProcessError returncode _ =>
             unlink_if_exists temp_file;;
             mret (failure (MsgErrorCode rel_path returncode ""))
         | _ =>
             unlink_if_exists temp_file;;
             mret (failure (MsgError rel_path exc))
         end).

(** ** video_compress.py *)

(** [get_ffmpeg_command()] *)
Definition get_ffmpeg_command (e : env) : string :=
  if ffmpeg7_available e then "ffmpeg7" else "ffmpeg".

(** [get_video_bitrate(video_path)]: the function reads the answer off the
    diagnostic text of ffmpeg and returns [None] on any exception. *)
Definition get_video_bitrate (e : env) (video_path : Path) : option Z :=
  bitrate_probe e.

(** [check_hardware_encoder(ffmpeg_cmd)] *)
Definition check_hardware_encoder (e : env) (ffmpeg_cmd : string)
  : option (option string * option string) :=
  hardware_encoder e.

(** [get_output_path(video_path, input_base_dir, output_base_dir)] *)
Definition get_output_path (video_path input_base_dir output_base_dir : Path)
  : M world (Path * Path * Path) :=
  rel_path ← relative_to video_path input_base_dir;
  let output_dir := output_base_dir ++ PyPath.parent rel_path in
  mkdir output_dir;;
  let output_path :=
    output_dir // (PyPath.stem video_path +:+ PyPath.suffix video_path) in
  let temp_file :=
    output_dir
      // (PyPath.stem video_path +:+ ".tmp." +:+ PyPath.suffix video_path) in
  unlink_if_exists temp_file;;
  mret (rel_path, output_path, temp_file).

Definition int {S} (s : string) : M S Z :=
  match PyStr.int s with
  | Some n => mret n
  | None => raise ValueError
  end.

(** Python truthiness of an optional string and of an optional integer *)
Definition truthy_str (s : option string) : bool :=
  match s with Some s => PyStr.truthy s | None => false end.

Definition truthy_int (n : option Z) : bool :=
  match n with Some n => negb (n =? 0) | None => false end.

(** [parse_bitrate(bitrate_str)] *)
Definition parse_bitrate {S} (bitrate_str : option string) : M S (option Z) :=
  if negb (truthy_str bitrate_str) then mret None
  else
    let bitrate_str := PyStr.lower (default "" bitrate_str) in
    if PyStr.endswith bitrate_str "k" then
      n ← int (PyStr.init bitrate_str); mret (Some (n * 1024))
    else if PyStr.endswith bitrate_str "m" then
      n ← int (PyStr.init bitrate_str); mret (Some (n * 1024 * 1024))
    else
      n ← int bitrate_str; mret (Some n).

(** The body of the [try] in [prepare_ffmpeg_command]: the command with
    the hardware encoder, after its trial run.  The trial line goes through
    the shell; the trial itself writes no file ([-f null -]). *)
Definition hardware_command (e : env) (cmd : list string)
    (hw_encoder : string) (hw_quality_param : option string)
    (bitrate : option string) (crf : option Z) (preset : option string)
  : M world (list string) :=
  let cmd := cmd ++ ["-c:v"; hw_encoder; "-tag:v"; "hvc1"] in
  let cmd :=
    if truthy_str preset then
      let cmd := cmd ++ ["-preset"; default "" preset] in
      if String.eqb hw_encoder "hevc_videotoolbox" then
        if truthy_str bitrate then cmd ++ ["-b:v"; default "" bitrate]
        else cmd ++ ["-q:v"; "70"]
      else if truthy_str hw_quality_param && truthy_int crf
              && negb (truthy_str bitrate)
      then cmd ++ [default "" hw_quality_param; pretty (default 0 crf)]
      else cmd
    else cmd in
  let test_cmd := cmd ++ ["-f"; "null"; "-"] in
  shell_substitutions e test_cmd;;
  if negb (hardware_test_returncode e =? 0)
  then raise (RuntimeError "hardware encoder test failed")
  else mret cmd.

(** [prepare_ffmpeg_command(...)] *)
Definition prepare_ffmpeg_command (e : env) (video_path : Path)
    (ffmpeg_cmd : string) (bitrate : option string) (crf : option Z)
    (preset : option string) (use_software : bool)
    (original_bitrate : option Z)
  : M world (list string) :=
  let cmd := [ffmpeg_cmd; "-i"; PyStr.quoted (PyPath.str video_path)] in
  '(cmd, use_software) ←
    (if negb use_software then
       match check_hardware_encoder e ffmpeg_cmd with
       | None => raise TypeError     (* a [None] cannot be unpacked *)
       | Some (hw_encoder, hw_quality_param) =>
           if truthy_str hw_encoder then
             let original_cmd := cmd in
             try_except
               (cmd ← hardware_command e cmd (default "" hw_encoder)
                        hw_quality_param bitrate crf preset;
                mret (cmd, use_software))
               (fun _ => mret (original_cmd, true))
           else mret (cmd, use_software)
       end
     else mret (cmd, use_software));
  let cmd :=
    if use_software : bool then
      let cmd := cmd ++ ["-c:v"; "libx265"; "-tag:v"; "hvc1"] in
      let cmd :=
        if truthy_str preset then cmd ++ ["-preset"; default "" preset]
        else cmd in
      cmd ++ ["-c:a"; "aac"; "-b:a"; "128k"]
    else cmd in
  lossless ←
    (if truthy_int original_bitrate && truthy_str bitrate then
       target ← parse_bitrate bitrate;
       mret (default 0 original_bitrate <=? default 0 target)
     else mret false);
  if lossless : bool then mret cmd
  else if truthy_str bitrate then mret (cmd ++ ["-b:v"; default "" bitrate])
  else match crf with
       | Some crf => mret (cmd ++ ["-crf"; pretty crf])
       | None => mret (cmd ++ ["-b:v"; "1M"])
       end.

(** [execute_ffmpeg(cmd, temp_file)].  The command goes through the shell,
    so a missing program is the shell's exit code 127; the error text is read
    after the pipe was drained, so it is empty.  The program writes the file
    the shell hands it, which is [temp_file] on a plain line. *)
Definition execute_ffmpeg (e : env) (cmd : list string) (temp_file : Path)
  : M world unit :=
  shell_substitutions e cmd;;
  r ← run_encoder e (shell_target e cmd temp_file);
  let returncode := default 127 r in
  if negb (returncode =? 0) then raise (CalledProcessError returncode "")
  else
    present ← exists_ temp_file;
    if present : bool then mret tt
    else raise (RuntimeError "ffmpeg produced no output file").

(** [handle_result(video_path, output_path, temp_file, rel_path)] *)
Definition handle_result (video_path output_path temp_file rel_path : Path)
  : M world TaskResult :=
  present ← exists_ output_path;
  if present : bool then
    unlink temp_file;;
    stats ← calc_save_space video_path output_path;
    mret (success stats AlreadyExists)
  else
    shutil_move temp_file output_path;;
    stats ← calc_save_space video_path output_path;
    mret (success stats Done).

(** The arguments of one video task:
    [(video_path, input_base_dir, output_base_dir, bitrate, crf, preset,
      use_software)]. *)
Abbreviation VideoArgs :=
  (Path * Path * Path * option string * option Z * option string * bool)%type.

(** [process_video(args)] *)
Definition process_video (e : env) (args : VideoArgs) : M world TaskResult :=
  let '(video_path, input_base_dir, output_base_dir,
        bitrate, crf, preset, use_software) := args in
  let original_bitrate := get_video_bitrate e video_path in
  target_bitrate ←
    (if truthy_str bitrate then parse_bitrate bitrate else mret None);
  (* the log line that prints both bitrates *)
  _ ← format_size original_bitrate;
  _ ← format_size target_bitrate;
  if truthy_int original_bitrate && truthy_int target_bitrate
     && (default 0 original_bitrate <=? default 0 target_bitrate)
  then
    '(rel_path, output_path, _) ←
      get_output_path video_path input_base_dir output_base_dir;
    present ← exists_ output_path;
    if present : bool then
      stats ← calc_save_space video_path output_path;
      mret (success stats AlreadyExists)
    else
      shutil_copy2 video_path output_path;;
      stats ← calc_save_space video_path output_path;
      mret (success stats Done)
  else
    '(rel_path, output_path, temp_file) ←
      get_output_path video_path input_base_dir output_base_dir;
    present ← exists_ output_path;
    if present : bool then
      stats ← calc_save_space video_path output_path;
      mret (success stats AlreadyExists)
    else
      let ffmpeg_cmd := get_ffmpeg_command e in
      cmd ← prepare_ffmpeg_command e video_path ffmpeg_cmd bitrate crf preset
              use_software original_bitrate;
      let cmd := cmd ++ [PyStr.quoted (PyPath.str temp_file)] in
      try_except
        (execute_ffmpeg e cmd temp_file;;
         handle_result video_path output_path temp_file rel_path)
        (fun exc =>
           match exc with
           | CalledProcessError returncode stderr =>
               unlink_if_exists temp_file;;
               let error_msg :=
                 if PyStr.truthy stderr
                 then PyStr.last_line (PyStr.strip stderr)
                 else "Unknown error" in
               mret (failure (MsgErrorCode rel_path returncode error_msg))
           | _ =>
               unlink_if_exists temp_file;;
               mret (failure (MsgError rel_path exc))
           end).

(** [VideoCompressor.process_file(args)]: it sets up the log of the worker
    and looks up the ffmpeg command, then hands over to [process_video]. *)
Definition VideoCompressor_process_file (e : env) (args : VideoArgs)
  : M world TaskResult :=
  let ffmpeg_cmd := get_ffmpeg_command e in
  process_video e args.

(** [WebpConverter.process_file(args)] *)
Definition WebpConverter_process_file (e : env) (args : Path * Path * Path * Z)
  : M world TaskResult :=
  process_image e args.

(** ** media_process.py: progress trackers *)

(** What the run writes to its log, by its parts. *)
Inductive log_event : Type :=
| LogStart (workers : Z) (output_dir : Path)
| LogNoFiles
| LogFound (total_files : nat)
| LogStartDirectory (relative_path : Path) (total_files : nat)
| LogLocalProgress (status : bool) (m : Message) (processed total : Z)
| LogGlobalProgress (status : bool) (m : Message) (processed total : Z)
| LogFinishDirectory (success total : Z)
| LogFinishAll (success total : Z)
| LogSkippedDirs (count : nat) (relative_paths : list Path)
| LogSkippedFiles (count : nat) (shown : list Path) (others : option nat)
| LogProcessed (processed_files : Z)
| LogSizes (original processed saved : Z).

(** The two trackers.  [PerDirectory] is the tracker whose methods the
    source gives in the body of class [ProgressTracker]; it counts within
    the current directory.  [GlobalProgressTracker] counts over the run. *)
Inductive ProgressTracker : Type :=
| PerDirectory (total processed success : Z) (current_dir : Path)
| GlobalProgressTracker (total_files : Z) (processed success : Z).

(** [ProgressTracker.__init__()] *)
Definition PerDirectory_init : ProgressTracker := PerDirectory 0 0 0 [].

(** [GlobalProgressTracker.__init__(total_files)] *)
Definition GlobalProgressTracker_init (total_files : Z) : ProgressTracker :=
  GlobalProgressTracker total_files 0 0.

Definition logI {S} (write_log : list log_event -> S -> S) (ev : log_event)
  : M S unit :=
  modify (write_log [ev]).

(** [tracker.start_directory(dir_path, relative_path, total_files)] *)
Definition start_directory (t : ProgressTracker) (dir_path relative_path : Path)
    (total_files : nat) : ProgressTracker * list log_event :=
  match t with
  | PerDirectory _ _ _ _ =>
      (PerDirectory (Z.of_nat total_files) 0 0 relative_path,
       [LogStartDirectory relative_path total_files])
  | GlobalProgressTracker _ _ _ =>
      (t, [LogStartDirectory relative_path total_files])
  end.

(** [tracker.update(status, stats)]: the tracker after the call, and the
    line it logs.  The global tracker counts the result first and then
    divides by [total_files] for the percentage. *)
Definition update (t : ProgressTracker) (status : bool) (stats : ResultDict)
  : ProgressTracker * outcome (list log_event) :=
  match t with
  | PerDirectory total processed success current_dir =>
      let processed := processed + 1 in
      let success := if status then success + 1 else success in
      (PerDirectory total processed success current_dir,
       Ret [LogLocalProgress status (message stats) processed total])
  | GlobalProgressTracker total_files processed success =>
      let processed := processed + 1 in
      if total_files =? 0 then
        (GlobalProgressTracker total_files processed success,
         Raise ZeroDivisionError)
      else
        let success := if status then success + 1 else success in
        (GlobalProgressTracker total_files processed success,
         Ret [LogGlobalProgress status (message stats) processed total_files])
  end.

(** [tracker.finish_directory()] *)
Definition finish_directory (t : ProgressTracker) : list log_event :=
  match t with
  | PerDirectory total _ success _ => [LogFinishDirectory success total]
  | GlobalProgressTracker _ _ _ => []
  end.

(** [tracker.finish_all()] *)
Definition finish_all (t : ProgressTracker) : outcome (list log_event) :=
  match t with
  | PerDirectory _ _ _ _ => Ret []
  | GlobalProgressTracker total_files _ success =>
      if total_files =? 0 then Raise ZeroDivisionError
      else Ret [LogFinishAll success total_files]
  end.

(** ** media_process.py: MediaProcessor *)

(** The shared dictionary [self.stats]. *)
Record RunStats : Type := mkRunStats {
  processed_files : Z;
  total_original_size : Z;
  total_processed_size : Z
}.

Definition RunStats_init : RunStats :=
  {| processed_files := 0; total_original_size := 0;
     total_processed_size := 0 |}.

(** The body of [with self.stats_lock:] in [_process_directory]: what one
    [(status, stats)] pair does to [self.stats]. *)
Definition record (status : bool) (stats : ResultDict) (s : RunStats)
  : outcome RunStats :=
  if status then
    match stats_of stats with
    | Some st =>
        Ret {| processed_files := processed_files s + 1;
               total_original_size :=
                 total_original_size s + original_size st;
               total_processed_size :=
                 total_processed_size s + processed_size st |}
    | None => Raise KeyError
    end
  else Ret s.

(** The machine the run is on, and the world around it. *)
Record host : Type := mkHost {
  cpu_count : Z;
  (** what [check_dependencies] finds *)
  dependencies_installed : bool;
  (** the directory found at a path, if it is one *)
  lookup_dir : Path -> option node;
  (** the files on disk when the run starts *)
  disk0 : gmap Path file;
  (** the answers of the outside world while a given file is processed *)
  env_of : Path -> env;
  (** the order in which the pool hands back the results of a batch *)
  completion_order : forall A : Type, list A -> list A
}.

(** The object state of a [MediaProcessor], with the disk and the log. *)
Record MediaProcessor : Type := mkMediaProcessor {
  workers : Z;
  directory_processor : DirectoryProcessor;
  stats : RunStats;
  progress_tracker : option ProgressTracker;
  disk : world;
  log : list log_event
}.

Definition set_directory_processor (dp : DirectoryProcessor)
    (self : MediaProcessor) : MediaProcessor :=
  {| workers := workers self; directory_processor := dp;
     stats := stats self; progress_tracker := progress_tracker self;
     disk := disk self; log := log self |}.

Definition set_stats (s : RunStats) (self : MediaProcessor) : MediaProcessor :=
  {| workers := workers self;
     directory_processor := directory_processor self;
     stats := s; progress_tracker := progress_tracker self;
     disk := disk self; log := log self |}.

Definition set_progress_tracker (t : option ProgressTracker)
    (self : MediaProcessor) : MediaProcessor :=
  {| workers := workers self;
     directory_processor := directory_processor self;
     stats := stats self; progress_tracker := t;
     disk := disk self; log := log self |}.

Definition set_disk (w : world) (self : MediaProcessor) : MediaProcessor :=
  {| workers := workers self;
     directory_processor := directory_processor self;
     stats := stats self; progress_tracker := progress_tracker self;
     disk := w; log := log self |}.

Definition append_log (evs : list log_event) (self : MediaProcessor)
  : MediaProcessor :=
  {| workers := workers self;
     directory_processor := directory_processor self;
     stats := stats self; progress_tracker := progress_tracker self;
     disk := disk self; log := log self ++ evs |}.

(** [MediaProcessor.__init__(input_dir, workers, output_suffix)] *)
Definition MediaProcessor_init (h : host) (input_dir : Path)
    (workers : option Z) (output_suffix : string) : MediaProcessor :=
  {| workers := if truthy_int workers then default 0 workers
                else Z.max 3 (cpu_count h + 1);
     directory_processor := DirectoryProcessor_init input_dir output_suffix;
     stats := RunStats_init;
     progress_tracker := None;
     disk := {| files := disk0 h; history := []; encoder_runs := 0 |};
     log := [] |}.

(** The methods a subclass of [MediaProcessor] supplies. *)
Class Converter : Type := mkConverter {
  Args : Type;
  supported_formats : list string;
  check_dependencies : host -> bool;
  create_tasks : DirectoryProcessor -> list Path -> list Args;
  task_file : Args -> Path;
  process_file : env -> Args -> M world TaskResult
}.

Definition on_directory_processor {A} (m : M DirectoryProcessor A)
  : M MediaProcessor A :=
  zoom directory_processor set_directory_processor m.

Definition on_disk {A} (m : M world A) : M MediaProcessor A :=
  zoom disk set_disk m.

Definition lift_outcome {S A} (o : outcome A) : M S A := fun s => (s, o).

(** A method call on [self.progress_tracker]. *)
Definition the_tracker : M MediaProcessor ProgressTracker :=
  self ← get;
  match progress_tracker self with
  | Some t => mret t
  | None => raise AttributeError
  end.

(** The loop over [pool.imap_unordered(self.process_file, tasks)]: one
    result at a time, in the order the pool hands them back; each goes to
    the tracker, then to the statistics. *)
Definition drain_pool `{Converter} (h : host) (tasks : list Args)
  : M MediaProcessor unit :=
  for_in (completion_order h Args tasks) tt (fun task _ =>
    '(status, result) ←
      on_disk (process_file (env_of h (task_file task)) task);
    t ← the_tracker;
    let '(t, logged) := update t status result in
    modify (set_progress_tracker (Some t));;
    lines ← lift_outcome logged;
    modify (append_log lines);;
    self ← get;
    s ← lift_outcome (record status result (stats self));
    modify (set_stats s)).

(** [MediaProcessor._process_directory(input_dir)]; [input_dir] is the
    entry found at [input_path].  The final loop of the source runs over
    [subdirs]; here it runs over the entries of the directory whose path is
    in [subdirs], which are the same paths in the same order. *)
Fixpoint _process_directory `{Converter} (h : host) (input_path : Path)
    (input_dir : node) {struct input_dir} : M MediaProcessor unit :=
  '(current_dir_files, subdirs) ←
    on_directory_processor
      (collect_current_dir_files input_path input_dir supported_formats);
  match current_dir_files with
  | [] => mret tt
  | _ :: _ =>
      self ← get;
      let base := input_base_dir (directory_processor self) in
      relative_path ←
        (if bool_decide (input_path ≠ base) then relative_to input_path base
         else mret []);
      t ← the_tracker;
      let '(t, lines) :=
        start_directory t input_path relative_path (length current_dir_files)
      in
      modify (set_progress_tracker (Some t));;
      modify (append_log lines);;
      drain_pool h (create_tasks (directory_processor self) current_dir_files);;
      t ← the_tracker;
      modify (append_log (finish_directory t))
  end;;
  match input_dir with
  | Dir _ children =>
      for_in children tt (fun item _ =>
        let subdir := input_path // node_name item in
        match item with
        | Dir _ _ =>
            if bool_decide (subdir ∈ subdirs)
            then _process_directory h subdir item
            else mret tt
        | _ => mret tt
        end)
  | _ => mret tt
  end.

(** [DirectoryProcessor.logI_skip_stats()]: the lines it logs. *)
Definition logI_skip_stats : M DirectoryProcessor (list log_event) :=
  self ← get;
  dirs ←
    match skipped_dirs self with
    | [] => mret []
    | _ :: _ =>
        rels ← for_in (skipped_dirs self) [] (fun dir_path rels =>
                 rel_path ← relative_to dir_path (input_base_dir self);
                 mret (rels ++ [rel_path]));
        mret [LogSkippedDirs (length (skipped_dirs self)) rels]
    end;
  files ←
    match skipped_files self with
    | [] => mret []
    | _ :: _ =>
        rels ← for_in (take 10 (skipped_files self)) [] (fun file_path rels =>
                 rel_path ← relative_to file_path (input_base_dir self);
                 mret (rels ++ [rel_path]));
        mret [LogSkippedFiles (length (skipped_files self)) rels
                (if (10 <? length (skipped_files self))%nat
                 then Some (length (skipped_files self) - 10)%nat
                 else None)]
    end;
  mret (dirs ++ files).

(** [MediaProcessor.process()]; [tree] is the entry found at the input
    directory. *)
Definition process `{Converter} (h : host) (tree : node)
  : M MediaProcessor bool :=
  if negb (check_dependencies h) then mret false
  else
    self ← get;
    modify (append_log
              [LogStart (workers self)
                        (output_base_dir (directory_processor self))]);;
    all_files ← on_directory_processor
                  (collect_all_files tree supported_formats);
    let total_files := length all_files in
    if (total_files =? 0)%nat then
      modify (append_log [LogNoFiles]);;
      mret false
    else
      modify (append_log [LogFound total_files]);;
      modify (set_stats RunStats_init);;
      modify (set_progress_tracker
                (Some (GlobalProgressTracker_init (Z.of_nat total_files))));;
      self ← get;
      _process_directory h (input_base_dir (directory_processor self)) tree;;
      lines ← on_directory_processor logI_skip_stats;
      modify (append_log lines);;
      t ← the_tracker;
      lines ← lift_outcome (finish_all t);
      modify (append_log lines);;
      self ← get;
      let st := stats self in
      modify (append_log [LogProcessed (processed_files st)]);;
      (if 0 <? processed_files st then
         modify (append_log
                   [LogSizes (total_original_size st) (total_processed_size st)
                      (total_original_size st - total_processed_size st)])
       else mret tt);;
      mret true.

(** ** The two converters *)

(** [WebpConverter] *)
Definition WebpConverter (quality : Z) : Converter := {|
  Args := Path * Path * Path * Z;
  supported_formats := [".jpg"; ".jpeg"; ".png"; "heic"; ".heif"];
  check_dependencies := dependencies_installed;
  create_tasks := fun dp files =>
    (fun img => (img, input_base_dir dp, output_base_dir dp, quality))
      <$> files;
  task_file := fun '(img, _, _, _) => img;
  process_file := WebpConverter_process_file
|}.

(** [VideoCompressor] *)
Definition VideoCompressor (bitrate : option string) (crf : option Z)
    (preset : option string) (use_software : bool) : Converter := {|
  Args := VideoArgs;
  supported_formats :=
    [".mp4"; ".mov"; ".avi"; ".mkv"; ".webm"; ".flv"; ".m4v"];
  check_dependencies := dependencies_installed;
  create_tasks := fun dp files =>
    (fun video => (video, input_base_dir dp, output_base_dir dp,
                   bitrate, crf, preset, use_software))
      <$> files;
  task_file := fun '(video, _, _, _, _, _, _) => video;
  process_file := VideoCompressor_process_file
|}.

(** ** The command lines *)

(** The parsed arguments of [img2webp.py]. *)
Record WebpOptions : Type := mkWebpOptions {
  webp_input_dir : Path;
  webp_quality : Z;
  webp_local_progress : bool;
  webp_workers : option Z
}.

(** The parsed arguments of [video_compress.py]. *)
Record VideoOptions : Type := mkVideoOptions {
  video_input_dir : Path;
  video_bitrate : option string;
  video_crf : option Z;
  video_workers : option Z;
  video_preset : option string;
  video_software : bool
}.

(** How a program ends: its exit status, and the state of the converter
    when there was a run. *)
Definition ending : Type := Z * option MediaProcessor.

(** The end of [main] after [success = converter.process()]: status 1 when
    [process] answers [False], and the interpreter's status 1 for an exception
    that nothing caught. *)
Definition exit_status (r : MediaProcessor * outcome bool) : ending :=
  match r with
  | (self, Ret true) => (0, Some self)
  | (self, Ret false) => (1, Some self)
  | (self, Raise _) => (1, Some self)
  end.

(** [img2webp.main()] *)
Definition img2webp_main (h : host) (args : WebpOptions) : ending :=
  match lookup_dir h (webp_input_dir args) with
  | None => (1, None)
  | Some tree =>
      let converter :=
        MediaProcessor_init h (webp_input_dir args) (webp_workers args)
          compressed_identifier in
      exit_status
        (process (H := WebpConverter (webp_quality args)) h tree converter)
  end.

(** [video_compress.main()] *)
Definition video_compress_main (h : host) (args : VideoOptions) : ending :=
  match lookup_dir h (video_input_dir args) with
  | None => (1, None)
  | Some tree =>
      let compressor :=
        MediaProcessor_init h (video_input_dir args) (video_workers args)
          compressed_identifier in
      exit_status
        (process (H := VideoCompressor (video_bitrate args) (video_crf args)
                         (video_preset args) (video_software args))
           h tree compressor)
  end.


(* ===================================================================== *)
(** * Vocabulary of the properties                                        *)
(* ===================================================================== *)

(** The three kinds of pattern, in the words of the specification: a
    pattern that ends in a star matches the names it is a prefix of (the star
    left out), a pattern that starts with a star matches the names it is a
    suffix of, and any other pattern matches the name equal to it. *)
Definition pattern_matches (pattern name : string) : Prop :=
  (∃ q, pattern = q +:+ "*" ∧ ∃ r, name = q +:+ r)
  ∨ (∃ q, pattern = "*" +:+ q ∧ ∃ r, name = r +:+ q)
  ∨ ((∀ q, pattern ≠ q +:+ "*") ∧ (∀ q, pattern ≠ "*" +:+ q)
     ∧ name = pattern).

(** The test one round of the loop of [should_skip_dir] makes. *)
Definition round_matches (pattern name : string) : bool :=
  (PyStr.endswith pattern "*" && PyStr.startswith name (PyStr.init pattern))
  || (PyStr.startswith pattern "*" && PyStr.endswith name (PyStr.tail pattern))
  || String.eqb pattern name.

(** The pure answer of the loops of [should_skip_dir] and
    [should_skip_file] for a list of patterns. *)
Definition skips (patterns : list string) (p : Path) : bool :=
  existsb (fun pat => round_matches pat (PyPath.name p)) patterns.

(** A processor with given patterns and nothing skipped yet. *)
Definition with_patterns (dirs files : list string) : DirectoryProcessor :=
  {| input_base_dir := []; output_base_dir := [compressed_identifier];
     skip_dir_patterns := dirs; skip_file_patterns := files;
     skipped_dirs := []; skipped_files := [] |}.


(** What a walk does at one entry: it takes the file, or records a
    skipped directory or a skipped file. *)
Inductive visit : Type :=
| Found (p : Path)
| SkippedDir (p : Path)
| SkippedFile (p : Path).

Definition found_of (v : visit) : option Path :=
  match v with Found p => Some p | _ => None end.

Definition skipped_dir_of (v : visit) : option Path :=
  match v with SkippedDir p => Some p | _ => None end.

Definition skipped_file_of (v : visit) : option Path :=
  match v with SkippedFile p => Some p | _ => None end.

(** The skip record after a list of visits. *)
Definition apply_visits (vs : list visit) (dp : DirectoryProcessor)
  : DirectoryProcessor :=
  {| input_base_dir := input_base_dir dp;
     output_base_dir := output_base_dir dp;
     skip_dir_patterns := skip_dir_patterns dp;
     skip_file_patterns := skip_file_patterns dp;
     skipped_dirs := skipped_dirs dp ++ omap skipped_dir_of vs;
     skipped_files := skipped_files dp ++ omap skipped_file_of vs |}.

(** What is done at an entry of the directory [input_path], without
    entering it. *)
Definition visit_here (supported_formats dir_patterns file_patterns : list string)
    (input_path : Path) (item : node) : list visit :=
  let item_path := input_path // node_name item in
  match item with
  | File _ =>
      if suffix_supported supported_formats item_path then
        if skips file_patterns item_path then [SkippedFile item_path]
        else [Found item_path]
      else []
  | Dir _ _ =>
      if skips dir_patterns item_path then [SkippedDir item_path] else []
  | Special _ => []
  end.

(** The visits of the counting walk at an entry of [input_path], the
    entry's own tree included, in the order of the walk. *)
Fixpoint visits (supported_formats dir_patterns file_patterns : list string)
    (input_path : Path) (item : node) {struct item} : list visit :=
  let item_path := input_path // node_name item in
  match item with
  | Dir _ children =>
      if skips dir_patterns item_path then [SkippedDir item_path]
      else
        flat_map (visits supported_formats dir_patterns file_patterns item_path)
          children
  | _ => visit_here supported_formats dir_patterns file_patterns input_path item
  end.

(** The visits of the dispatching walk below the directory [dir] found at
    [input_path]: first the entries of the directory, then the directories
    that were not skipped, one after the other. *)
Fixpoint visits_by_level
    (supported_formats dir_patterns file_patterns : list string)
    (input_path : Path) (dir : node) {struct dir} : list visit :=
  match dir with
  | Dir _ children =>
      flat_map
        (visit_here supported_formats dir_patterns file_patterns input_path)
        children
      ++ flat_map
           (fun item =>
              let subdir := input_path // node_name item in
              match item with
              | Dir _ _ =>
                  if skips dir_patterns subdir then []
                  else visits_by_level supported_formats dir_patterns
                         file_patterns subdir item
              | _ => []
              end)
           children
  | _ => []
  end.

(** The content of a directory entry: its children. *)
Definition children_of (n : node) : list node :=
  match n with Dir _ children => children | _ => [] end.

(** Two trees with the same content, whatever the order in which their
    directories are listed. *)
Inductive same_content : node -> node -> Prop :=
| same_File nm : same_content (File nm) (File nm)
| same_Special nm : same_content (Special nm) (Special nm)
| same_Dir nm l1 l2 :
    same_listing l1 l2 -> same_content (Dir nm l1) (Dir nm l2)
with same_listing : list node -> list node -> Prop :=
| listing_nil : same_listing [] []
| listing_skip x y l1 l2 :
    same_content x y -> same_listing l1 l2 ->
    same_listing (x :: l1) (y :: l2)
| listing_swap x y l1 l2 :
    same_listing l1 l2 -> same_listing (x :: y :: l1) (y :: x :: l2)
| listing_trans l1 l2 l3 :
    same_listing l1 l2 -> same_listing l2 l3 -> same_listing l1 l3.

Scheme same_content_mut := Minimality for same_content Sort Prop
  with same_listing_mut := Minimality for same_listing Sort Prop.

(** The body of the loop of [_collect]. *)
Definition collect_body (sf : list string) (input_path : Path)
    (item : node) (files : list Path) : M DirectoryProcessor (list Path) :=
  let item_path := input_path // node_name item in
  match item with
  | File _ =>
      if suffix_supported sf item_path then
        skip ← should_skip_file item_path;
        mret (if skip : bool then files else files ++ [item_path])
      else mret files
  | Dir _ _ =>
      skip ← should_skip_dir item_path;
      if skip : bool then mret files
      else _collect sf item_path item files
  | Special _ => mret files
  end.

(** What the counting walk returns and records. *)
Definition collect_spec (sf : list string) (p : Path) (children : list node)
    (files : list Path) (dp : DirectoryProcessor)
  : DirectoryProcessor * outcome (list Path) :=
  let vs := flat_map (visits sf (skip_dir_patterns dp) (skip_file_patterns dp) p)
              children in
  (apply_visits vs dp, Ret (files ++ omap found_of vs)).

(** The directories of a listing that the walk enters. *)
Definition level_subdirs (dir_patterns : list string) (input_path : Path)
    (children : list node) : list Path :=
  omap (fun item =>
          let item_path := input_path // node_name item in
          match item with
          | Dir _ _ =>
              if skips dir_patterns item_path then None else Some item_path
          | _ => None
          end) children.

(** The body of the loop of [collect_current_dir_files]. *)
Definition current_dir_body (sf : list string) (input_dir : Path)
    (item : node) (acc : list Path * list Path)
  : M DirectoryProcessor (list Path * list Path) :=
  let '(current_dir_files, subdirs) := acc in
  let item_path := input_dir // node_name item in
  match item with
  | File _ =>
      if suffix_supported sf item_path then
        skip ← should_skip_file item_path;
        mret (if skip : bool then current_dir_files
              else current_dir_files ++ [item_path], subdirs)
      else mret (current_dir_files, subdirs)
  | Dir _ _ =>
      skip ← should_skip_dir item_path;
      mret (current_dir_files,
            if skip : bool then subdirs else subdirs ++ [item_path])
  | Special _ => mret (current_dir_files, subdirs)
  end.

(** One directory with two files, listed in two orders. *)
Definition listing_ab : node := Dir "pics" [File "a.jpg"; File "b.jpg"].
Definition listing_ba : node := Dir "pics" [File "b.jpg"; File "a.jpg"].

(** The run has a global tracker over [total] files. *)
Definition is_global (total : Z) (self : MediaProcessor) : Prop :=
  ∃ processed success,
    progress_tracker self = Some (GlobalProgressTracker total processed success).

(** A computation started in a state with [P] ends in a state and with an
    outcome that satisfy [Q]. *)
Definition triple {S A} (P : S -> Prop) (m : M S A)
    (Q : S -> outcome A -> Prop) : Prop :=
  ∀ s, P s -> Q (m s).1 (m s).2.

(** The part of [_process_directory] that handles the files of the
    directory itself. *)
Definition directory_batch `{Converter} (h : host) (input_path : Path)
    (current_dir_files : list Path) : M MediaProcessor unit :=
  match current_dir_files with
  | [] => mret tt
  | _ :: _ =>
      self ← get;
      let base := input_base_dir (directory_processor self) in
      relative_path ←
        (if bool_decide (input_path ≠ base) then relative_to input_path base
         else mret []);
      t ← the_tracker;
      let '(t, lines) :=
        start_directory t input_path relative_path (length current_dir_files)
      in
      modify (set_progress_tracker (Some t));;
      modify (append_log lines);;
      drain_pool h (create_tasks (directory_processor self) current_dir_files);;
      t ← the_tracker;
      modify (append_log (finish_directory t))
  end.

(** The body of the last loop of [_process_directory]. *)
Definition subdir_body `{Converter} (h : host) (input_path : Path)
    (subdirs : list Path) (item : node) (_ : unit) : M MediaProcessor unit :=
  let subdir := input_path // node_name item in
  match item with
  | Dir _ _ =>
      if bool_decide (subdir ∈ subdirs)
      then _process_directory h subdir item
      else mret tt
  | _ => mret tt
  end.

(** The visits of the dispatching walk in the directories below an entry
    of [input_path]. *)
Definition visits_below (supported_formats dir_patterns file_patterns : list string)
    (input_path : Path) (item : node) : list visit :=
  let subdir := input_path // node_name item in
  match item with
  | Dir _ _ =>
      if skips dir_patterns subdir then []
      else visits_by_level supported_formats dir_patterns file_patterns
             subdir item
  | _ => []
  end.

(** The end of [process], after the walk: the skip statistics, the end
    of the tracker and the totals. *)
Definition report : M MediaProcessor bool :=
  lines ← on_directory_processor logI_skip_stats;
  modify (append_log lines);;
  t ← the_tracker;
  lines ← lift_outcome (finish_all t);
  modify (append_log lines);;
  self ← get;
  let st := stats self in
  modify (append_log [LogProcessed (processed_files st)]);;
  (if 0 <? processed_files st then
     modify (append_log
               [LogSizes (total_original_size st) (total_processed_size st)
                  (total_original_size st - total_processed_size st)])
   else mret tt);;
  mret true.

(** A small picture tree: two files to convert, a hidden file, a hidden
    directory, and a subdirectory with one more file and a directory the
    patterns skip. *)
Definition pics : Path := ["/"; "home"; "pics"].

Definition pics_tree : node :=
  Dir "pics"
    [File "b.jpg";
     Dir ".git" [File "x.png"];
     File ".hid.png";
     Dir "sub" [File "c.PNG"; Dir "@ea" []; Special "sock"; File "notes.txt"];
     File "a.jpeg"].

(** The encoder works and leaves [size] bytes; nobody else is around. *)
Definition env_ok (size : Z) : env :=
  {| ffmpeg7_available := false;
     bitrate_probe := Some 500000;
     hardware_encoder := Some (None, None);
     hardware_test_returncode := 0;
     encoder := Exited 0 (Some size);
     rival := None;
     shell_expansion := fun _ => (id, []) |}.

(** The encoder fails with exit code 1 and leaves a broken file. *)
Definition env_broken : env :=
  {| ffmpeg7_available := false;
     bitrate_probe := Some 500000;
     hardware_encoder := Some (None, None);
     hardware_test_returncode := 0;
     encoder := Exited 1 (Some 7);
     rival := None;
     shell_expansion := fun _ => (id, []) |}.

(** A host with the picture tree at [pics]: [b.jpg] of 100 bytes becomes 60,
    [a.jpeg] of 200 becomes 150, [sub/c.PNG] of 50 stays 50. *)
Definition pics_host : host :=
  {| cpu_count := 4;
     dependencies_installed := true;
     lookup_dir := fun p => if bool_decide (p = pics) then Some pics_tree else None;
     disk0 := <[pics // "b.jpg" := mkFile 100 true]>
                (<[pics // "a.jpeg" := mkFile 200 true]>
                   (<[pics // "sub" // "c.PNG" := mkFile 50 true]> ∅));
     env_of := fun p =>
       if bool_decide (p = pics // "b.jpg") then env_ok 60
       else if bool_decide (p = pics // "a.jpeg") then env_ok 150
       else env_ok 50;
     completion_order := fun _ tasks => rev tasks |}.

(** A host whose input directory holds nothing to convert. *)
Definition empty_host : host :=
  {| cpu_count := 4;
     dependencies_installed := true;
     lookup_dir := fun p =>
       if bool_decide (p = pics) then Some (Dir "pics" [File "notes.txt"])
       else None;
     disk0 := ∅;
     env_of := fun _ => env_ok 1;
     completion_order := fun _ tasks => tasks |}.

Definition pics_options : WebpOptions :=
  {| webp_input_dir := pics; webp_quality := 85;
     webp_local_progress := false; webp_workers := None |}.

(** The option [--local-progress] set to [b]. *)
Definition with_local_progress (b : bool) (args : WebpOptions) : WebpOptions :=
  {| webp_input_dir := webp_input_dir args;
     webp_quality := webp_quality args;
     webp_local_progress := b;
     webp_workers := webp_workers args |}.

(** [record] over the results of a batch, in the order they arrive. *)
Fixpoint record_all (results : list TaskResult) (s : RunStats)
  : outcome RunStats :=
  match results with
  | [] => Ret s
  | (status, result) :: rest =>
      match record status result s with
      | Ret s' => record_all rest s'
      | Raise e => Raise e
      end
  end.

(** A successful result for a file of [original] bytes turned into
    [processed] bytes. *)
Definition converted (f : Path) (original processed : Z) : TaskResult :=
  success {| origin_file := f; original_size := original;
             processed_size := processed;
             saved_size := original - processed |} Done.

(** The image converter over the picture tree, before and after its run. *)
Definition pics_converter : MediaProcessor :=
  MediaProcessor_init pics_host pics None compressed_identifier.

Definition pics_run : MediaProcessor * outcome bool :=
  process (H := WebpConverter 85) pics_host pics_tree pics_converter.

(** The state after one write to the disk. *)
Definition written (f : gmap Path file -> gmap Path file) (w : world) : world :=
  {| files := f (files w);
     history := history w ++ [f (files w)];
     encoder_runs := encoder_runs w |}.

(** The dictionary of [calc_save_space] for an input and an output of
    known sizes. *)
Definition stats_for (input_file : Path) (original processed : Z) : Stats :=
  {| origin_file := input_file;
     original_size := original;
     processed_size := processed;
     saved_size := original - processed |}.

(** At [p] there is no file, or a whole one. *)
Definition no_partial (p : Path) (fs : gmap Path file) : Prop :=
  match fs !! p with
  | Some f => complete f = true
  | None => True
  end.

(** [process_image] once its paths are computed. *)
Definition convert_image (e : env) (img_path rel_path output_path temp_file : Path)
  : M world TaskResult :=
  present ← exists_ output_path;
  if present : bool then
    stats ← calc_save_space img_path output_path;
    mret (success stats AlreadyExists)
  else
    unlink_if_exists temp_file;;
    try_except
      (subprocess_run_check e temp_file;;
       present ← exists_ output_path;
       if present : bool then
         unlink temp_file;;
         stats ← calc_save_space img_path output_path;
         mret (success stats OtherProcess)
       else
         shutil_move temp_file output_path;;
         stats ← calc_save_space img_path output_path;
         mret (success stats Done))
      (fun exc =>
         match exc with
         | CalledProcessError returncode _ =>
             unlink_if_exists temp_file;;
             mret (failure (MsgErrorCode rel_path returncode ""))
         | _ =>
             unlink_if_exists temp_file;;
             mret (failure (MsgError rel_path exc))
         end).

(** The output directory of the picture tree, and the disk at the start
    of the run as a state of single-file processing. *)
Definition pics_out : Path := PyPath.append_text pics compressed_identifier.

Definition pics_world : world :=
  {| files := disk0 pics_host; history := []; encoder_runs := 0 |}.

(** The encoder works, and a concurrent worker publishes 77 bytes at the
    output of [b.jpg] meanwhile. *)
Definition env_race : env :=
  {| ffmpeg7_available := false;
     bitrate_probe := Some 500000;
     hardware_encoder := Some (None, None);
     hardware_test_returncode := 0;
     encoder := Exited 0 (Some 60);
     rival := Some (pics_out // "b.webp", 77);
     shell_expansion := fun _ => (id, []) |}.

(** Two videos side by side, and a host for them. *)
Definition clips : Path := ["/"; "home"; "clips"].

Definition clips_tree : node := Dir "clips" [File "a.mp4"; File "b.mp4"].

Definition clips_host : host :=
  {| cpu_count := 4;
     dependencies_installed := true;
     lookup_dir := fun p => if bool_decide (p = clips) then Some clips_tree else None;
     disk0 := <[clips // "a.mp4" := mkFile 900 true]>
                (<[clips // "b.mp4" := mkFile 800 true]> ∅);
     env_of := fun _ => env_ok 300;
     completion_order := fun _ tasks => tasks |}.

(** [video_compress.py] called with the directory alone: no bitrate, no
    CRF, no preset, hardware encoders allowed. *)
Definition clips_options : VideoOptions :=
  {| video_input_dir := clips; video_bitrate := None; video_crf := None;
     video_workers := None; video_preset := None; video_software := false |}.

Definition clips_out : Path := PyPath.append_text clips compressed_identifier.

(** The disk of a second run over the two videos: both outputs exist. *)
Definition clips_world_done : world :=
  {| files := <[clips_out // "a.mp4" := mkFile 300 true]>
                (<[clips_out // "b.mp4" := mkFile 300 true]> (disk0 clips_host));
     history := [];
     encoder_runs := 0 |}.

(** The disk of a first run over the two videos. *)
Definition clips_world : world :=
  {| files := disk0 clips_host; history := []; encoder_runs := 0 |}.

(** A video of 400 kb/s to be compressed to 1M: the source bitrate is
    below the target. *)
Definition env_low_bitrate : env :=
  {| ffmpeg7_available := false;
     bitrate_probe := Some 400000;
     hardware_encoder := Some (None, None);
     hardware_test_returncode := 0;
     encoder := Exited 0 (Some 300);
     rival := None;
     shell_expansion := fun _ => (id, []) |}.

(** Between [w] and [w'] the disk only passed through states with [I]. *)
Definition during (I : gmap Path file -> Prop) (w w' : world) : Prop :=
  ∃ new, history w' = history w ++ new ∧ Forall I new.

(** Started on a disk with [I] and in a state with [P], the computation
    keeps [I] at every write and at its end, where [Q] holds. *)
Definition safe {A : Type} (I : gmap Path file -> Prop) (P : world -> Prop)
    (m : M world A) (Q : world -> outcome A -> Prop) : Prop :=
  ∀ w, I (files w) -> P w ->
    during I w (m w).1 ∧ I (files (m w).1) ∧ Q (m w).1 (m w).2.

(** The computation leaves the state as it is. *)
Definition pure {S A : Type} (m : M S A) : Prop := ∀ s, (m s).1 = s.

(** The values of the local variables [output_path] and [temp_file] of
    [process_video]. *)
Definition video_output_path (video_path input_base output_base : Path)
  : option Path :=
  rel_path ← PyPath.relative_to video_path input_base;
  Some ((output_base ++ PyPath.parent rel_path)
          // (PyPath.stem video_path +:+ PyPath.suffix video_path)).

Definition video_temp_file (video_path input_base output_base : Path)
  : option Path :=
  rel_path ← PyPath.relative_to video_path input_base;
  Some ((output_base ++ PyPath.parent rel_path)
          // (PyPath.stem video_path +:+ ".tmp." +:+ PyPath.suffix video_path)).

(** [process_video] from its second existence check on: the path with the
    encoder, once the paths are computed. *)
Definition encode_video (e : env)
    (video_path rel_path output_path temp_file : Path)
    (bitrate : option string) (crf : option Z) (preset : option string)
    (use_software : bool) : M world TaskResult :=
  present ← exists_ output_path;
  if present : bool then
    stats ← calc_save_space video_path output_path;
    mret (success stats AlreadyExists)
  else
    let ffmpeg_cmd := get_ffmpeg_command e in
    cmd ← prepare_ffmpeg_command e video_path ffmpeg_cmd bitrate crf preset
            use_software (get_video_bitrate e video_path);
    let cmd := cmd ++ [PyStr.quoted (PyPath.str temp_file)] in
    try_except
      (execute_ffmpeg e cmd temp_file;;
       handle_result video_path output_path temp_file rel_path)
      (fun exc =>
         match exc with
         | CalledProcessError returncode stderr =>
             unlink_if_exists temp_file;;
             let error_msg :=
               if PyStr.truthy stderr
               then PyStr.last_line (PyStr.strip stderr)
               else "Unknown error" in
             mret (failure (MsgErrorCode rel_path returncode error_msg))
         | _ =>
             unlink_if_exists temp_file;;
             mret (failure (MsgError rel_path exc))
         end).

(** The encoder that works, for a video of 2 Mb/s. *)
Definition env_high_bitrate : env :=
  {| ffmpeg7_available := false;
     bitrate_probe := Some 2000000;
     hardware_encoder := Some (None, None);
     hardware_test_returncode := 0;
     encoder := Exited 0 (Some 300);
     rival := None;
     shell_expansion := fun _ => (id, []) |}.

(** [process_video] on the path of the copy, once the paths are
    computed. *)
Definition copy_video (video_path output_path : Path) : M world TaskResult :=
  present ← exists_ output_path;
  if present : bool then
    stats ← calc_save_space video_path output_path;
    mret (success stats AlreadyExists)
  else
    shutil_copy2 video_path output_path;;
    stats ← calc_save_space video_path output_path;
    mret (success stats Done).

(** The exit code [execute_ffmpeg] sees: the command goes through the
    shell, which answers 127 for a program it cannot find. *)
Definition shell_exit_code (e : env) : Z :=
  match encoder e with
  | NotFound => 127
  | Exited returncode _ => returncode
  end.

(** The encoder fails with exit code 1, for a video of 2 Mb/s. *)
Definition env_high_bitrate_broken : env :=
  {| ffmpeg7_available := false;
     bitrate_probe := Some 2000000;
     hardware_encoder := Some (None, None);
     hardware_test_returncode := 0;
     encoder := Exited 1 (Some 7);
     rival := None;
     shell_expansion := fun _ => (id, []) |}.

(** The list of encoders could not be read, for a video of 2 Mb/s. *)
Definition env_no_encoder_list : env :=
  {| ffmpeg7_available := false;
     bitrate_probe := Some 2000000;
     hardware_encoder := None;
     hardware_test_returncode := 0;
     encoder := Exited 0 (Some 300);
     rival := None;
     shell_expansion := fun _ => (id, []) |}.

(** The disk of a second run over the picture tree, for [b.jpg]: its
    output exists. *)
Definition pics_world_done : world :=
  {| files := <[pics_out // "b.webp" := mkFile 60 true]> (disk0 pics_host);
     history := [];
     encoder_runs := 0 |}.

(** One directory with two subdirectories, listed in two orders. *)
Definition listing_xy : node := Dir "pics" [Dir "x" []; Dir "y" []].
Definition listing_yx : node := Dir "pics" [Dir "y" []; Dir "x" []].

(** The names and the options of a video task leave the shell nothing to
    expand: the path of the video and the path of the temporary file stand
    for themselves between double quotes, and the bitrate, the preset and the
    name of the hardware encoder stand for themselves as bare words. *)
Definition shell_safe (e : env) (video_path temp_file : Path)
    (bitrate preset : option string) : bool :=
  string_forall shell_quoted_char (PyPath.str video_path)
  && string_forall shell_quoted_char (PyPath.str temp_file)
  && shell_word_plain (default "" bitrate)
  && shell_word_plain (default "" preset)
  && match hardware_encoder e with
     | Some (hw_encoder, _) => shell_word_plain (default "" hw_encoder)
     | None => true
     end.
(* ===================================================================== *)
(** * Part II: properties                                                 *)
(* ===================================================================== *)

(** ** Strings *)

Lemma append_cons (x : ascii) (a b : string) :
  String x a +:+ b = String x (a +:+ b).
Proof. reflexivity. Qed.

Lemma append_nil_l (a : string) : "" +:+ a = a.
Proof. reflexivity. Qed.

Lemma append_nil_r (a : string) : a +:+ "" = a.
Proof. induction a as [|x a IH]; [done |]. rewrite append_cons. by f_equal. Qed.

Lemma append_assoc (a b c : string) : (a +:+ b) +:+ c = a +:+ (b +:+ c).
Proof.
  induction a as [|x a IH]; [done |]. rewrite !append_cons. by f_equal.
Qed.

Lemma length_append (a b : string) :
  String.length (a +:+ b) = (String.length a + String.length b)%nat.
Proof.
  induction a as [|c a IH]; [done |].
  rewrite append_cons. simpl. by rewrite IH.
Qed.

Lemma startswith_spec (s p : string) :
  PyStr.startswith s p = true ↔ ∃ r, s = p +:+ r.
Proof.
  revert s. induction p as [|a p IH]; intros s; cbn [PyStr.startswith].
  - split; [intros _; by exists s | done].
  - destruct s as [|b s].
    + split; [done | intros [r Hr]; rewrite append_cons in Hr; discriminate].
    + rewrite andb_true_iff, Ascii.eqb_eq, IH. split.
      * intros [-> [r ->]]. by exists r.
      * intros [r Hr]. rewrite append_cons in Hr.
        injection Hr as -> ->. eauto.
Qed.

Lemma endswith_spec (s p : string) :
  PyStr.endswith s p = true ↔ ∃ r, s = r +:+ p.
Proof.
  induction s as [|b s IH]; cbn [PyStr.endswith].
  - rewrite orb_false_r, String.eqb_eq. split.
    + intros <-. by exists "".
    + intros [[|c r] Hr]; [done | rewrite append_cons in Hr; discriminate].
  - rewrite orb_true_iff, String.eqb_eq, IH. split.
    + intros [<- | [r ->]]; [by exists "" | by exists (String b r)].
    + intros [[|c r] Hr]; [by left |].
      rewrite append_cons in Hr. injection Hr as -> ->. right. by exists r.
Qed.

Lemma init_snoc (q : string) (c : ascii) :
  PyStr.init (q +:+ String c "") = q.
Proof.
  induction q as [|a q IH]; [done |].
  rewrite append_cons. cbn [PyStr.init]. rewrite IH.
  destruct q; [done |]. by rewrite append_cons.
Qed.

Lemma take_drop (i : nat) (s : string) : PyStr.take i s +:+ PyStr.drop i s = s.
Proof.
  revert s. induction i as [|i IH]; intros [|c s]; try done.
  cbn [PyStr.take PyStr.drop]. rewrite append_cons. by f_equal.
Qed.

(** ** Skip patterns (PathFilter) *)

Lemma round_matches_spec (pattern name : string) :
  round_matches pattern name = true ↔ pattern_matches pattern name.
Proof.
  unfold round_matches, pattern_matches.
  rewrite !orb_true_iff, !andb_true_iff, !endswith_spec, !startswith_spec,
    String.eqb_eq.
  split.
  - intros [[[[q ->] [r Hr]] | [[q Hq] [r ->]]] | <-].
    + rewrite init_snoc in Hr. left. eauto.
    + subst pattern. right; left.
      exists q. split; [done | by exists r].
    + destruct (PyStr.endswith pattern "*") eqn:He.
      { apply endswith_spec in He as [q ->]. left. exists q.
        split; [done | by exists "*"]. }
      destruct (PyStr.startswith pattern "*") eqn:Hs.
      { apply startswith_spec in Hs as [q ->]. right; left. exists q.
        split; [done | by exists "*"]. }
      right; right. split_and!; [| | done].
      * intros q ->.
        assert (PyStr.endswith (q +:+ "*") "*" = true) as Ht
          by (apply endswith_spec; eauto).
        congruence.
      * intros q ->.
        assert (PyStr.startswith ("*" +:+ q) "*" = true) as Ht
          by (apply startswith_spec; eauto).
        congruence.
  - intros [[q [-> [r ->]]] | [[q [-> [r ->]]] | (_ & _ & ->)]].
    + left; left. rewrite init_snoc. eauto.
    + left; right. eauto.
    + by right.
Qed.

Lemma round_matches_unfold (pattern name : string) :
  round_matches pattern name =
    (PyStr.endswith pattern "*" && PyStr.startswith name (PyStr.init pattern))
    || (PyStr.startswith pattern "*"
        && PyStr.endswith name (PyStr.tail pattern))
    || String.eqb pattern name.
Proof. reflexivity. Qed.

Lemma should_skip_dir_loop_run dir_path patterns dp :
  should_skip_dir_loop dir_path patterns dp =
    (if skips patterns dir_path then append_skipped_dir dir_path dp else dp,
     Ret (skips patterns dir_path)).
Proof.
  induction patterns as [|pattern rest IH]; [reflexivity |].
  unfold skips. cbn [should_skip_dir_loop existsb]. cbv zeta.
  rewrite (round_matches_unfold pattern).
  destruct (PyStr.endswith pattern "*"
            && PyStr.startswith (PyPath.name dir_path) (PyStr.init pattern));
    [reflexivity |].
  destruct (PyStr.startswith pattern "*"
            && PyStr.endswith (PyPath.name dir_path) (PyStr.tail pattern));
    [reflexivity |].
  destruct (String.eqb pattern (PyPath.name dir_path)); [reflexivity |].
  apply IH.
Qed.

Lemma should_skip_file_loop_run file_path patterns dp :
  should_skip_file_loop file_path patterns dp =
    (if skips patterns file_path then append_skipped_file file_path dp else dp,
     Ret (skips patterns file_path)).
Proof.
  induction patterns as [|pattern rest IH]; [reflexivity |].
  unfold skips. cbn [should_skip_file_loop existsb]. cbv zeta.
  rewrite (round_matches_unfold pattern).
  destruct (PyStr.endswith pattern "*"
            && PyStr.startswith (PyPath.name file_path) (PyStr.init pattern));
    [reflexivity |].
  destruct (PyStr.startswith pattern "*"
            && PyStr.endswith (PyPath.name file_path) (PyStr.tail pattern));
    [reflexivity |].
  destruct (String.eqb pattern (PyPath.name file_path)); [reflexivity |].
  apply IH.
Qed.

Lemma should_skip_dir_run p dp :
  should_skip_dir p dp =
    (if skips (skip_dir_patterns dp) p then append_skipped_dir p dp else dp,
     Ret (skips (skip_dir_patterns dp) p)).
Proof. apply should_skip_dir_loop_run. Qed.

Lemma should_skip_file_run p dp :
  should_skip_file p dp =
    (if skips (skip_file_patterns dp) p then append_skipped_file p dp else dp,
     Ret (skips (skip_file_patterns dp) p)).
Proof. apply should_skip_file_loop_run. Qed.

Lemma skips_spec patterns p :
  skips patterns p = true
  ↔ ∃ pattern, pattern ∈ patterns ∧ pattern_matches pattern (PyPath.name p).
Proof.
  unfold skips. rewrite existsb_exists. split.
  - intros (pat & Hin & Hm). exists pat. split; [by apply list_elem_of_In |].
    by apply round_matches_spec.
  - intros (pat & Hin & Hm). exists pat. split; [by apply list_elem_of_In |].
    by apply round_matches_spec.
Qed.

(** C6.  [should_skip_dir] and [should_skip_file] answer [True] exactly
    when some pattern of the list matches the name, where a pattern ending in
    a star matches as a prefix, a pattern starting with a star matches as a
    suffix and any other pattern matches the equal name; on a match the path
    is appended to the skip record once (the first match ends the loop), and
    without a match the answer is [False] and the record is unchanged.
    [node_modules] is skipped by the pattern list [node_modules], [.git] by
    [.*], and [src] is not skipped by [.*; @*]. *)
Theorem C6_skip_pattern_semantics :
  (∀ (p : Path) (dp : DirectoryProcessor),
     ∃ b : bool,
       should_skip_dir p dp =
         (if b then append_skipped_dir p dp else dp, Ret b)
       ∧ (b = true ↔ ∃ pattern, pattern ∈ skip_dir_patterns dp
                        ∧ pattern_matches pattern (PyPath.name p)))
  ∧ (∀ (p : Path) (dp : DirectoryProcessor),
       ∃ b : bool,
         should_skip_file p dp =
           (if b then append_skipped_file p dp else dp, Ret b)
         ∧ (b = true ↔ ∃ pattern, pattern ∈ skip_file_patterns dp
                          ∧ pattern_matches pattern (PyPath.name p)))
  ∧ (should_skip_dir ["node_modules"] (with_patterns ["node_modules"] [])).2
      = Ret true
  ∧ (should_skip_dir [".git"] (with_patterns [".*"] [])).2 = Ret true
  ∧ (should_skip_dir ["src"] (with_patterns [".*"; "@*"] [])).2 = Ret false
  ∧ (should_skip_file ["node_modules"] (with_patterns [] ["node_modules"])).2
      = Ret true
  ∧ (should_skip_file [".git"] (with_patterns [] [".*"])).2 = Ret true
  ∧ (should_skip_file ["src"] (with_patterns [] [".*"; "@*"])).2 = Ret false.
Proof.
  split_and!; try reflexivity.
  - intros p dp. exists (skips (skip_dir_patterns dp) p).
    split; [apply should_skip_dir_run | apply skips_spec].
  - intros p dp. exists (skips (skip_file_patterns dp) p).
    split; [apply should_skip_file_run | apply skips_spec].
Qed.

(** ** The state-and-exception monad *)

Lemma bind_run {S A B} (m : M S A) (f : A -> M S B) (s : S) :
  (m ≫= f) s =
    match m s with
    | (s', Ret a) => f a s'
    | (s', Raise e) => (s', Raise e)
    end.
Proof. reflexivity. Qed.

Lemma for_in_nil {S A B} (b : B) (body : A -> B -> M S B) :
  for_in [] b body = mret b.
Proof. reflexivity. Qed.

Lemma for_in_cons {S A B} (x : A) (xs : list A) (b : B)
    (body : A -> B -> M S B) :
  for_in (x :: xs) b body = (b' ← body x b; for_in xs b' body).
Proof. reflexivity. Qed.

(** ** Trees *)

Lemma node_nested_ind (P : node -> Prop)
    (HFile : ∀ nm, P (File nm))
    (HDir : ∀ nm children, Forall P children -> P (Dir nm children))
    (HSpecial : ∀ nm, P (Special nm)) :
  ∀ n, P n.
Proof.
  fix IH 1. intros [nm | nm children | nm];
    [apply HFile | apply HDir | apply HSpecial].
  induction children as [|c cs IHcs]; constructor; [apply IH | apply IHcs].
Qed.

(** ** The skip record under visits *)

Lemma apply_visits_nil dp : apply_visits [] dp = dp.
Proof.
  destruct dp. unfold apply_visits. cbn. by rewrite !app_nil_r.
Qed.

Lemma apply_visits_app vs1 vs2 dp :
  apply_visits (vs1 ++ vs2) dp = apply_visits vs2 (apply_visits vs1 dp).
Proof.
  unfold apply_visits. cbn. by rewrite !omap_app, !app_assoc.
Qed.

Lemma apply_visits_skipped_dir p dp :
  append_skipped_dir p dp = apply_visits [SkippedDir p] dp.
Proof. unfold apply_visits, append_skipped_dir. cbn. by rewrite app_nil_r. Qed.

Lemma apply_visits_skipped_file p dp :
  append_skipped_file p dp = apply_visits [SkippedFile p] dp.
Proof.
  unfold apply_visits, append_skipped_file. cbn. by rewrite app_nil_r.
Qed.

Lemma apply_visits_found p dp : apply_visits [Found p] dp = dp.
Proof. destruct dp. unfold apply_visits. cbn. by rewrite !app_nil_r. Qed.

Lemma apply_visits_skip_dir_patterns vs dp :
  skip_dir_patterns (apply_visits vs dp) = skip_dir_patterns dp.
Proof. reflexivity. Qed.

Lemma apply_visits_skip_file_patterns vs dp :
  skip_file_patterns (apply_visits vs dp) = skip_file_patterns dp.
Proof. reflexivity. Qed.

(** ** The counting walk *)

Lemma _collect_unfold sf p nm children files :
  _collect sf p (Dir nm children) files =
    for_in children files (collect_body sf p).
Proof. reflexivity. Qed.

Lemma collect_body_run sf p item files dp :
  (∀ nm children, item = Dir nm children ->
     ∀ q files dp, _collect sf q item files dp = collect_spec sf q children files dp) ->
  collect_body sf p item files dp =
    let vs := visits sf (skip_dir_patterns dp) (skip_file_patterns dp) p item in
    (apply_visits vs dp, Ret (files ++ omap found_of vs)).
Proof.
  intros IH. destruct item as [nm | nm children | nm];
    cbn [collect_body visits visit_here node_name]; cbv zeta.
  - destruct (suffix_supported sf (p // nm)).
    + rewrite bind_run, should_skip_file_run.
      destruct (skips (skip_file_patterns dp) (p // nm)).
      * rewrite apply_visits_skipped_file. cbn. by rewrite app_nil_r.
      * by rewrite apply_visits_found.
    + cbn. by rewrite apply_visits_nil, app_nil_r.
  - rewrite bind_run, should_skip_dir_run.
    destruct (skips (skip_dir_patterns dp) (p // nm)).
    + rewrite apply_visits_skipped_dir. cbn. by rewrite app_nil_r.
    + by rewrite (IH nm children).
  - cbn. by rewrite apply_visits_nil, app_nil_r.
Qed.

Lemma collect_loop_run sf p children :
  Forall (fun item =>
            ∀ nm children, item = Dir nm children ->
              ∀ q files dp,
                _collect sf q item files dp = collect_spec sf q children files dp)
         children ->
  ∀ files dp,
    for_in children files (collect_body sf p) dp =
      collect_spec sf p children files dp.
Proof.
  induction 1 as [|item rest Hitem _ IH]; intros files dp.
  - unfold collect_spec. cbn. by rewrite apply_visits_nil, app_nil_r.
  - rewrite for_in_cons, bind_run, (collect_body_run _ _ _ _ _ Hitem).
    cbv beta iota zeta. rewrite IH. unfold collect_spec. cbn [flat_map].
    rewrite !apply_visits_skip_dir_patterns, !apply_visits_skip_file_patterns.
    by rewrite apply_visits_app, omap_app, app_assoc.
Qed.

Lemma _collect_run sf p nm children files dp :
  _collect sf p (Dir nm children) files dp =
    collect_spec sf p children files dp.
Proof.
  revert p files dp.
  enough (∀ item nm children, item = Dir nm children ->
            ∀ q files dp,
              _collect sf q item files dp = collect_spec sf q children files dp)
    as H by (intros; by eapply H).
  clear. intros item.
  induction item as [| nm' children' IH |] using node_nested_ind;
    intros nm'' children'' Heq; try discriminate.
  injection Heq as <- <-. intros q files dp.
  rewrite _collect_unfold. by apply collect_loop_run.
Qed.

(** ** One level of the tree *)

Lemma collect_current_dir_files_unfold p nm children sf :
  collect_current_dir_files p (Dir nm children) sf =
    for_in children ([], []) (current_dir_body sf p).
Proof. reflexivity. Qed.

Lemma current_dir_loop_run sf p children :
  ∀ files subdirs dp,
    for_in children (files, subdirs) (current_dir_body sf p) dp =
      let vs := flat_map (visit_here sf (skip_dir_patterns dp)
                            (skip_file_patterns dp) p) children in
      (apply_visits vs dp,
       Ret (files ++ omap found_of vs,
            subdirs ++ level_subdirs (skip_dir_patterns dp) p children)).
Proof.
  induction children as [|item rest IH]; intros files subdirs dp.
  - cbn. by rewrite apply_visits_nil, !app_nil_r.
  - rewrite for_in_cons, bind_run.
    assert (current_dir_body sf p item (files, subdirs) dp =
              (apply_visits
                 (visit_here sf (skip_dir_patterns dp) (skip_file_patterns dp)
                    p item) dp,
               Ret (files ++ omap found_of
                               (visit_here sf (skip_dir_patterns dp)
                                  (skip_file_patterns dp) p item),
                    subdirs ++ level_subdirs (skip_dir_patterns dp) p [item])))
      as ->.
    { destruct item as [nm | nm children | nm];
        cbn [current_dir_body visit_here node_name level_subdirs omap
             list_omap]; cbv zeta.
      - destruct (suffix_supported sf (p // nm)).
        + rewrite bind_run, should_skip_file_run.
          destruct (skips (skip_file_patterns dp) (p // nm)).
          * rewrite apply_visits_skipped_file. cbn. by rewrite !app_nil_r.
          * rewrite apply_visits_found. cbn. by rewrite !app_nil_r.
        + cbn. by rewrite apply_visits_nil, !app_nil_r.
      - rewrite bind_run, should_skip_dir_run.
        destruct (skips (skip_dir_patterns dp) (p // nm)).
        + rewrite apply_visits_skipped_dir. cbn. by rewrite !app_nil_r.
        + rewrite apply_visits_nil. cbn. by rewrite !app_nil_r.
      - cbn. by rewrite apply_visits_nil, !app_nil_r. }
    cbv beta iota zeta. rewrite IH. cbv zeta.
    rewrite !apply_visits_skip_dir_patterns, !apply_visits_skip_file_patterns.
    cbn [flat_map]. rewrite apply_visits_app, omap_app, !app_assoc.
    do 3 f_equal. unfold level_subdirs. cbn [omap list_omap].
    rewrite <-!app_assoc. f_equal.
    by destruct item as [nm | nm children | nm];
      [| destruct (skips (skip_dir_patterns dp) (p // node_name (Dir nm children))) |].
Qed.

Lemma collect_current_dir_files_run p nm children sf dp :
  collect_current_dir_files p (Dir nm children) sf dp =
    let vs := flat_map (visit_here sf (skip_dir_patterns dp)
                          (skip_file_patterns dp) p) children in
    (apply_visits vs dp,
     Ret (omap found_of vs, level_subdirs (skip_dir_patterns dp) p children)).
Proof.
  rewrite collect_current_dir_files_unfold. apply current_dir_loop_run.
Qed.

(** ** The order of the listings *)

Lemma same_content_name x y : same_content x y -> node_name x = node_name y.
Proof. by destruct 1. Qed.

Lemma same_content_visit_here sf dpat fpat p x y :
  same_content x y ->
  visit_here sf dpat fpat p x = visit_here sf dpat fpat p y.
Proof. by destruct 1. Qed.

Lemma same_listing_visit_here sf dpat fpat p l1 l2 :
  same_listing l1 l2 ->
  flat_map (visit_here sf dpat fpat p) l1
    ≡ₚ flat_map (visit_here sf dpat fpat p) l2.
Proof.
  induction 1 as [| x y l1 l2 Hxy _ IH | x y l1 l2 _ IH | l1 l2 l3 _ IH1 _ IH2];
    cbn [flat_map].
  - reflexivity.
  - by rewrite (same_content_visit_here _ _ _ _ _ _ Hxy), IH.
  - rewrite IH, !app_assoc. f_equiv. apply Permutation_app_comm.
  - by etrans.
Qed.

Lemma same_content_level_subdir dpat p x y :
  same_content x y ->
  level_subdirs dpat p [x] = level_subdirs dpat p [y].
Proof. by destruct 1. Qed.

Lemma level_subdirs_cons dpat p x l :
  level_subdirs dpat p (x :: l)
  = level_subdirs dpat p [x] ++ level_subdirs dpat p l.
Proof.
  unfold level_subdirs. cbn [omap list_omap].
  by destruct x as [nm | nm ch | nm];
    [| destruct (skips dpat (p // node_name (Dir nm ch))) |].
Qed.

Lemma same_listing_level_subdirs dpat p l1 l2 :
  same_listing l1 l2 ->
  level_subdirs dpat p l1 ≡ₚ level_subdirs dpat p l2.
Proof.
  induction 1 as [| x y l1 l2 Hxy _ IH | x y l1 l2 _ IH | l1 l2 l3 _ IH1 _ IH2].
  - reflexivity.
  - rewrite (level_subdirs_cons _ _ x l1), (level_subdirs_cons _ _ y l2).
    by rewrite (same_content_level_subdir _ _ _ _ Hxy), IH.
  - rewrite (level_subdirs_cons _ _ x (y :: l1)), (level_subdirs_cons _ _ y l1),
      (level_subdirs_cons _ _ y (x :: l2)), (level_subdirs_cons _ _ x l2).
    rewrite IH, !app_assoc. f_equiv. apply Permutation_app_comm.
  - by etrans.
Qed.

Lemma same_content_visits sf dpat fpat :
  ∀ x y, same_content x y ->
    ∀ p, visits sf dpat fpat p x ≡ₚ visits sf dpat fpat p y.
Proof.
  apply (same_content_mut
           (fun x y => ∀ p, visits sf dpat fpat p x ≡ₚ visits sf dpat fpat p y)
           (fun l1 l2 => ∀ p, flat_map (visits sf dpat fpat p) l1
                              ≡ₚ flat_map (visits sf dpat fpat p) l2)).
  - reflexivity.
  - reflexivity.
  - intros nm l1 l2 _ IH p. cbn [visits node_name].
    destruct (skips dpat (p // nm)); [reflexivity | apply IH].
  - reflexivity.
  - intros x y l1 l2 _ IHxy _ IH p. cbn [flat_map]. by rewrite IHxy, IH.
  - intros x y l1 l2 _ IH p. cbn [flat_map].
    rewrite IH, !app_assoc. f_equiv. apply Permutation_app_comm.
  - intros l1 l2 l3 _ IH1 _ IH2 p. etrans; [apply IH1 | apply IH2].
Qed.

Lemma same_listing_visits sf dpat fpat l1 l2 :
  same_listing l1 l2 ->
  ∀ p, flat_map (visits sf dpat fpat p) l1
       ≡ₚ flat_map (visits sf dpat fpat p) l2.
Proof.
  induction 1 as [| x y l1 l2 Hxy _ IH | x y l1 l2 _ IH | l1 l2 l3 _ IH1 _ IH2];
    intros p; cbn [flat_map].
  - reflexivity.
  - by rewrite (same_content_visits _ _ _ _ _ Hxy), IH.
  - rewrite IH, !app_assoc. f_equiv. apply Permutation_app_comm.
  - etrans; [apply IH1 | apply IH2].
Qed.

Lemma collect_all_files_run nm children sf dp :
  collect_all_files (Dir nm children) sf dp =
    collect_spec sf (input_base_dir dp) children [] dp.
Proof.
  unfold collect_all_files. rewrite bind_run. unfold get.
  exact (_collect_run sf (input_base_dir dp) nm children [] dp).
Qed.

Lemma listing_ab_ba : same_content listing_ab listing_ba.
Proof.
  apply same_Dir. apply (listing_swap _ _ [] []). apply listing_nil.
Qed.

Lemma listing_xy_yx : same_content listing_xy listing_yx.
Proof.
  apply same_Dir. apply (listing_swap _ _ [] []). apply listing_nil.
Qed.

Lemma level_subdirs_app dpat p la lb :
  level_subdirs dpat p (la ++ lb)
  = level_subdirs dpat p la ++ level_subdirs dpat p lb.
Proof. unfold level_subdirs. apply omap_app. Qed.

(** C7, as stated, fails for each of the two walks and for each of the
    lists they return: they apply no order of their own.  One directory
    holding [a.jpg] and [b.jpg], listed by the system once as [a.jpg, b.jpg]
    and once as [b.jpg, a.jpg], gives two different lists of files, for
    [collect_all_files] and for [collect_current_dir_files]; one directory
    holding the directories [x] and [y], listed in two orders, gives two
    different lists of subdirectories.  In each case the second list is not
    in the order of the names. *)
Lemma C7_counterexample :
  ¬ (∀ (t1 t2 : node) (sf : list string) (dp : DirectoryProcessor),
       same_content t1 t2 ->
       (collect_all_files t1 sf dp).2 = (collect_all_files t2 sf dp).2)
  ∧ ¬ (∀ (t1 t2 : node) (sf : list string) (dp : DirectoryProcessor)
         (f1 s1 f2 s2 : list Path),
         same_content t1 t2 ->
         (collect_current_dir_files (input_base_dir dp) t1 sf dp).2
         = Ret (f1, s1) ->
         (collect_current_dir_files (input_base_dir dp) t2 sf dp).2
         = Ret (f2, s2) ->
         f1 = f2)
  ∧ ¬ (∀ (t1 t2 : node) (sf : list string) (dp : DirectoryProcessor)
         (f1 s1 f2 s2 : list Path),
         same_content t1 t2 ->
         (collect_current_dir_files (input_base_dir dp) t1 sf dp).2
         = Ret (f1, s1) ->
         (collect_current_dir_files (input_base_dir dp) t2 sf dp).2
         = Ret (f2, s2) ->
         s1 = s2)
  ∧ (collect_all_files listing_ba [".jpg"]
       (DirectoryProcessor_init ["pics"] compressed_identifier)).2
    = Ret [["pics"; "b.jpg"]; ["pics"; "a.jpg"]]
  ∧ (collect_current_dir_files ["pics"] listing_ba [".jpg"]
       (DirectoryProcessor_init ["pics"] compressed_identifier)).2
    = Ret ([["pics"; "b.jpg"]; ["pics"; "a.jpg"]], [])
  ∧ (collect_current_dir_files ["pics"] listing_yx [".jpg"]
       (DirectoryProcessor_init ["pics"] compressed_identifier)).2
    = Ret ([], [["pics"; "y"]; ["pics"; "x"]]).
Proof.
  split_and!; [| | | reflexivity | reflexivity | reflexivity].
  - intros H.
    pose proof (H listing_ab listing_ba [".jpg"]
                  (DirectoryProcessor_init ["pics"] compressed_identifier)
                  listing_ab_ba) as H1.
    vm_compute in H1. discriminate H1.
  - intros H.
    pose proof (H listing_ab listing_ba [".jpg"]
                  (DirectoryProcessor_init ["pics"] compressed_identifier)
                  _ _ _ _ listing_ab_ba eq_refl eq_refl) as H1.
    discriminate H1.
  - intros H.
    pose proof (H listing_xy listing_yx [".jpg"]
                  (DirectoryProcessor_init ["pics"] compressed_identifier)
                  _ _ _ _ listing_xy_yx eq_refl eq_refl) as H1.
    discriminate H1.
Qed.

(** C7, amended.  Both walks keep the order in which [iterdir] lists each
    directory, and apply none of their own: what a walk returns for a listing
    [la ++ lb] is what it returns for [la] followed by what it returns for
    [lb], for the files of [collect_all_files] and for the files and the
    subdirectories of [collect_current_dir_files]; so what comes from the
    entries listed first comes first.  For two listings of the same tree,
    [collect_all_files] returns the same files up to their order, and so does
    [collect_current_dir_files] for the files and for the subdirectories. *)
Theorem C7_listing_order (nm : string) (l1 l2 : list node)
    (sf : list string) (dp : DirectoryProcessor) (p : Path) :
  same_listing l1 l2 ->
  (∃ f1 f2,
     (collect_all_files (Dir nm l1) sf dp).2 = Ret f1
     ∧ (collect_all_files (Dir nm l2) sf dp).2 = Ret f2
     ∧ f1 ≡ₚ f2)
  ∧ (∃ f1 s1 f2 s2,
       (collect_current_dir_files p (Dir nm l1) sf dp).2 = Ret (f1, s1)
       ∧ (collect_current_dir_files p (Dir nm l2) sf dp).2 = Ret (f2, s2)
       ∧ f1 ≡ₚ f2 ∧ s1 ≡ₚ s2)
  ∧ (∀ la lb fa fb,
       (collect_all_files (Dir nm la) sf dp).2 = Ret fa ->
       (collect_all_files (Dir nm lb) sf dp).2 = Ret fb ->
       (collect_all_files (Dir nm (la ++ lb)) sf dp).2 = Ret (fa ++ fb))
  ∧ (∀ la lb fa sa fb sb,
       (collect_current_dir_files p (Dir nm la) sf dp).2 = Ret (fa, sa) ->
       (collect_current_dir_files p (Dir nm lb) sf dp).2 = Ret (fb, sb) ->
       (collect_current_dir_files p (Dir nm (la ++ lb)) sf dp).2
       = Ret (fa ++ fb, sa ++ sb))
  ∧ (∀ la, ∃ all_files current,
       (collect_all_files (Dir nm la) sf dp).2 = Ret all_files
       ∧ (collect_current_dir_files p (Dir nm la) sf dp).2 = Ret current).
Proof.
  intros Hsame. split_and!.
  - rewrite !collect_all_files_run. unfold collect_spec. cbn [snd].
    eexists _, _. split_and!; [done | done |].
    cbn [app]. f_equiv. by apply same_listing_visits.
  - rewrite !collect_current_dir_files_run. cbn [snd].
    eexists _, _, _, _. split_and!; [done | done | |].
    + f_equiv. by apply same_listing_visit_here.
    + by apply same_listing_level_subdirs.
  - intros la lb fa fb. rewrite !collect_all_files_run. unfold collect_spec.
    cbn [snd app]. intros [= <-] [= <-].
    by rewrite flat_map_app, omap_app.
  - intros la lb fa sa fb sb. rewrite !collect_current_dir_files_run.
    cbn [snd]. intros [= <- <-] [= <- <-].
    by rewrite flat_map_app, omap_app, level_subdirs_app.
  - intros la. rewrite collect_all_files_run, collect_current_dir_files_run.
    unfold collect_spec. cbn [snd]. by eexists _, _.
Qed.

(** C7, amended, at the two listings of the counterexample. *)
Lemma C7_listing_order_witness :
  same_listing (children_of listing_ab) (children_of listing_ba)
  ∧ (∃ f1 f2,
       (collect_all_files listing_ab [".jpg"]
          (DirectoryProcessor_init ["pics"] compressed_identifier)).2 = Ret f1
       ∧ (collect_all_files listing_ba [".jpg"]
            (DirectoryProcessor_init ["pics"] compressed_identifier)).2
         = Ret f2
       ∧ f1 ≡ₚ f2)
  ∧ (∃ f1 s1 f2 s2,
       (collect_current_dir_files ["pics"] listing_ab [".jpg"]
          (DirectoryProcessor_init ["pics"] compressed_identifier)).2
       = Ret (f1, s1)
       ∧ (collect_current_dir_files ["pics"] listing_ba [".jpg"]
            (DirectoryProcessor_init ["pics"] compressed_identifier)).2
         = Ret (f2, s2)
       ∧ f1 ≡ₚ f2 ∧ s1 ≡ₚ s2).
Proof.
  assert (same_listing (children_of listing_ab) (children_of listing_ba)) as H
    by (apply (listing_swap _ _ [] []); apply listing_nil).
  split; [exact H |].
  pose proof (C7_listing_order "pics" _ _ [".jpg"]
                (DirectoryProcessor_init ["pics"] compressed_identifier)
                ["pics"] H) as (H1 & H2 & _).
  by split.
Defined.
(** Unfold the operations of the monad. *)
Ltac unfold_M :=
  unfold mbind, M_bind, mret, M_ret, lift_outcome, modify, get, raise,
    try_except in *.

(** ** Rules for triples *)

Lemma triple_weaken {S A} (P P' : S -> Prop) (m : M S A)
    (Q Q' : S -> outcome A -> Prop) :
  triple P' m Q' ->
  (∀ s, P s -> P' s) -> (∀ s r, Q' s r -> Q s r) ->
  triple P m Q.
Proof. intros Hm HP HQ s Hs. apply HQ, Hm, HP, Hs. Qed.

Lemma triple_ret {S A} (P : S -> Prop) (a : A) (Q : S -> outcome A -> Prop) :
  (∀ s, P s -> Q s (Ret a)) -> triple P (mret a) Q.
Proof. intros H s Hs. by apply H. Qed.

Lemma triple_bind {S A B} (P : S -> Prop) (m : M S A) (f : A -> M S B)
    (Qm : S -> outcome A -> Prop) (Q : S -> outcome B -> Prop) :
  triple P m Qm ->
  (∀ a, triple (fun s => Qm s (Ret a)) (f a) Q) ->
  (∀ s e, Qm s (Raise e) -> Q s (Raise e)) ->
  triple P (m ≫= f) Q.
Proof.
  intros Hm Hf He s Hs. specialize (Hm s Hs). rewrite bind_run.
  destruct (m s) as [s' [a | e]]; cbn in *; [by apply Hf | by apply He].
Qed.

Lemma triple_for_in {S A B} (I : list A -> B -> S -> Prop)
    (E : S -> exn -> Prop) (xs : list A) (b : B) (body : A -> B -> M S B) :
  (∀ pre x rest b, xs = pre ++ x :: rest ->
     triple (I (x :: rest) b) (body x b)
       (fun s r => match r with Ret b' => I rest b' s | Raise e => E s e end)) ->
  triple (I xs b) (for_in xs b body)
    (fun s r => match r with Ret b' => I [] b' s | Raise e => E s e end).
Proof.
  revert b. induction xs as [|x xs IH]; intros b Hbody.
  - by apply triple_ret.
  - rewrite for_in_cons.
    eapply triple_bind; [apply (Hbody [] x xs b eq_refl) | | done].
    intros b'. apply IH. intros pre y rest b'' ->.
    by apply (Hbody (x :: pre)).
Qed.

(** ** The pool leaves the skip record and the kind of tracker alone *)

Lemma on_disk_run {A} (m : M world A) (self : MediaProcessor) :
  on_disk m self = (set_disk (m (disk self)).1 self, (m (disk self)).2).
Proof. unfold on_disk, zoom. by destruct (m (disk self)). Qed.

Lemma on_directory_processor_run {A} (m : M DirectoryProcessor A)
    (self : MediaProcessor) :
  on_directory_processor m self =
    (set_directory_processor (m (directory_processor self)).1 self,
     (m (directory_processor self)).2).
Proof.
  unfold on_directory_processor, zoom.
  by destruct (m (directory_processor self)).
Qed.

Lemma drain_pool_frame `{Converter} (h : host) (tasks : list Args)
    (d : DirectoryProcessor) (total : Z) :
  triple (fun self => directory_processor self = d ∧ is_global total self)
    (drain_pool h tasks)
    (fun self _ => directory_processor self = d ∧ is_global total self).
Proof.
  unfold drain_pool.
  eapply triple_weaken;
    [apply (triple_for_in
              (fun _ _ self => directory_processor self = d ∧ is_global total self)
              (fun self _ => directory_processor self = d ∧ is_global total self))
    | done | by intros s [[]|e] ].
  intros _ task _ [] _ self [Hd (processed & success & Ht)].
  rewrite bind_run, on_disk_run.
  destruct (process_file (env_of h (task_file task)) task (disk self))
    as [w [[status result] | e]]; cbn [fst snd].
  - unfold the_tracker. unfold_M. cbn. rewrite Ht. cbn.
    destruct (total =? 0) eqn:Htotal; cbn.
    + split; [done | unfold is_global; cbn; eauto].
    + destruct (record status result (stats self)) as [s | e]; cbn;
        (split; [done | unfold is_global; cbn; eauto]).
  - split; [done | by exists processed, success].
Qed.
(** ** The dispatching walk *)

Lemma _process_directory_unfold `{Converter} h p nm children :
  _process_directory h p (Dir nm children) =
    ('(current_dir_files, subdirs) ←
       on_directory_processor
         (collect_current_dir_files p (Dir nm children) supported_formats);
     directory_batch h p current_dir_files;;
     for_in children tt (subdir_body h p subdirs)).
Proof. reflexivity. Qed.

Lemma visits_by_level_unfold sf dpat fpat p nm children :
  visits_by_level sf dpat fpat p (Dir nm children) =
    flat_map (visit_here sf dpat fpat p) children
    ++ flat_map (visits_below sf dpat fpat p) children.
Proof. reflexivity. Qed.

Lemma directory_batch_frame `{Converter} h p files d total :
  triple (fun self => directory_processor self = d ∧ is_global total self)
    (directory_batch h p files)
    (fun self _ => directory_processor self = d ∧ is_global total self).
Proof.
  intros self [Hd (processed & success & Ht)].
  assert (is_global total self) as Hg by (by exists processed, success).
  destruct files as [|f files]; [done |].
  unfold directory_batch, the_tracker, relative_to. unfold_M. cbn.
  destruct (bool_decide (p ≠ input_base_dir (directory_processor self))).
  - destruct (PyPath.relative_to p (input_base_dir (directory_processor self)))
      as [rel |]; [| done].
    rewrite Ht. cbn.
    match goal with
    | |- context [drain_pool h ?tasks ?s] =>
        pose proof (drain_pool_frame h tasks d total s) as Hpool;
        destruct (drain_pool h tasks s) as [s' [[] | e]]
    end; cbn in *.
    + destruct Hpool as [Hd' (p' & s'' & Ht')];
        [split; [done | unfold is_global; cbn; eauto] |].
      rewrite Ht'. cbn. split; [done | unfold is_global; cbn; eauto].
    + apply Hpool. split; [done | unfold is_global; cbn; eauto].
  - rewrite Ht. cbn.
    match goal with
    | |- context [drain_pool h ?tasks ?s] =>
        pose proof (drain_pool_frame h tasks d total s) as Hpool;
        destruct (drain_pool h tasks s) as [s' [[] | e]]
    end; cbn in *.
    + destruct Hpool as [Hd' (p' & s'' & Ht')];
        [split; [done | unfold is_global; cbn; eauto] |].
      rewrite Ht'. cbn. split; [done | unfold is_global; cbn; eauto].
    + apply Hpool. split; [done | unfold is_global; cbn; eauto].
Qed.

Lemma level_subdirs_elem dpat p nm ch children :
  Dir nm ch ∈ children ->
  p // nm ∈ level_subdirs dpat p children ↔ skips dpat (p // nm) = false.
Proof.
  intros Hin. unfold level_subdirs. rewrite list_elem_of_omap. split.
  - intros (item & _ & Hitem). destruct item as [nm' | nm' ch' | nm']; try done.
    cbn [node_name] in Hitem.
    destruct (skips dpat (p // nm')) eqn:Hs; [done |]. by injection Hitem as <-.
  - intros Hs. exists (Dir nm ch). split; [done |]. cbn [node_name].
    by rewrite Hs.
Qed.

Lemma is_global_set_directory_processor total d self :
  is_global total self -> is_global total (set_directory_processor d self).
Proof. done. Qed.

(** The last loop of [_process_directory], when every entry of the
    directory obeys the specification of the walk. *)
Lemma subdir_loop_spec `{Converter} (h : host) (total : Z) (p : Path)
    (children : list node) (d1 : DirectoryProcessor) :
  Forall (fun dir =>
            ∀ (p : Path) (d : DirectoryProcessor),
              triple
                (fun self => directory_processor self = d ∧ is_global total self)
                (_process_directory h p dir)
                (fun self r =>
                   is_global total self
                   ∧ (r = Ret tt ->
                      directory_processor self =
                        apply_visits
                          (visits_by_level supported_formats
                             (skip_dir_patterns d) (skip_file_patterns d) p dir)
                          d)))
         children ->
  triple (fun self => directory_processor self = d1 ∧ is_global total self)
    (for_in children tt
       (subdir_body h p (level_subdirs (skip_dir_patterns d1) p children)))
    (fun self r =>
       is_global total self
       ∧ (r = Ret tt ->
          directory_processor self =
            apply_visits
              (flat_map (visits_below supported_formats (skip_dir_patterns d1)
                           (skip_file_patterns d1) p) children) d1)).
Proof.
  intros IH.
  set (dpat := skip_dir_patterns d1). set (fpat := skip_file_patterns d1).
  set (below := visits_below supported_formats dpat fpat p).
  eapply triple_weaken;
    [apply (triple_for_in
              (fun rest (_ : unit) self =>
                 is_global total self
                 ∧ ∃ pre, children = pre ++ rest
                          ∧ directory_processor self
                            = apply_visits (flat_map below pre) d1)
              (fun self _ => is_global total self)) | |].
  - intros pre item rest [] Hsplit self (Hg & pre' & Hpre & Hd).
    assert (pre' = pre) as -> by (by eapply app_inv_tail; rewrite <-Hpre).
    assert (item ∈ children) as Hin by (rewrite Hsplit; set_solver).
    assert (∀ self', directory_processor self'
                     = apply_visits (flat_map below pre ++ below item) d1 ->
              ∃ pre0, pre ++ item :: rest = pre0 ++ rest
                      ∧ directory_processor self'
                        = apply_visits (flat_map below pre0) d1) as Hnext.
    { intros self' Hself'. exists (pre ++ [item]).
      split; [by rewrite <-app_assoc |].
      rewrite flat_map_app. cbn [flat_map]. by rewrite app_nil_r. }
    rewrite Hsplit.
    destruct item as [nm | nm ch | nm]; cbn [subdir_body node_name].
    + cbn. split; [done |]. apply Hnext.
      subst below. cbn [visits_below]. by rewrite app_nil_r.
    + destruct (skips dpat (p // nm)) eqn:Hskip.
      * rewrite bool_decide_eq_false_2; last first.
        { rewrite <-Hsplit. rewrite (level_subdirs_elem _ _ _ ch) by done.
          fold dpat. by rewrite Hskip. }
        cbn. split; [done |]. apply Hnext.
        subst below. cbn [visits_below node_name]. rewrite Hskip.
        by rewrite app_nil_r.
      * rewrite bool_decide_eq_true_2; last first.
        { rewrite <-Hsplit. by rewrite (level_subdirs_elem _ _ _ ch). }
        rewrite Forall_forall in IH.
        pose proof (IH (Dir nm ch) Hin (p // nm) _ self (conj Hd Hg)) as Hrec.
        destruct (_process_directory h (p // nm) (Dir nm ch) self)
          as [self' [[] | e]]; cbn [fst snd] in *; [| by destruct Hrec].
        destruct Hrec as [Hg' Hd']. split; [done |]. apply Hnext.
        rewrite (Hd' eq_refl), apply_visits_skip_dir_patterns,
          apply_visits_skip_file_patterns, apply_visits_app.
        subst below. cbn [visits_below node_name]. fold dpat. by rewrite Hskip.
    + cbn. split; [done |]. apply Hnext.
      subst below. cbn [visits_below]. by rewrite app_nil_r.
  - intros self [Hd Hg]. split; [done |]. exists []. by rewrite apply_visits_nil.
  - intros self [[] | e]; [| done].
    intros (Hg & pre & Hpre & Hd). split; [done |]. intros _.
    rewrite app_nil_r in Hpre. by subst pre.
Qed.

(** The dispatching walk keeps the global tracker; when it returns, the
    skip record has grown by the visits of the walk. *)
Lemma _process_directory_spec `{Converter} (h : host) (total : Z) :
  ∀ (dir : node) (p : Path) (d : DirectoryProcessor),
    triple (fun self => directory_processor self = d ∧ is_global total self)
      (_process_directory h p dir)
      (fun self r =>
         is_global total self
         ∧ (r = Ret tt ->
            directory_processor self =
              apply_visits
                (visits_by_level supported_formats (skip_dir_patterns d)
                   (skip_file_patterns d) p dir) d)).
Proof.
  intros dir.
  induction dir as [nm | nm children IH | nm] using node_nested_ind;
    intros p d.
  - intros self [Hd Hg]. by cbn.
  - rewrite _process_directory_unfold, visits_by_level_unfold.
    intros self [Hd Hg].
    rewrite bind_run, on_directory_processor_run, Hd,
      collect_current_dir_files_run.
    cbv zeta. cbn [fst snd].
    set (d1 := apply_visits _ d).
    rewrite bind_run.
    pose proof (directory_batch_frame h p
                  (omap found_of
                     (flat_map (visit_here supported_formats
                                  (skip_dir_patterns d) (skip_file_patterns d) p)
                        children))
                  d1 total (set_directory_processor d1 self)
                  (conj eq_refl (is_global_set_directory_processor _ _ _ Hg)))
      as Hbatch.
    destruct (directory_batch h p _ (set_directory_processor d1 self))
      as [self1 [[] | e]]; cbn [fst snd] in *; [| by destruct Hbatch].
    pose proof (subdir_loop_spec h total p children d1 IH self1 Hbatch)
      as Hloop.
    subst d1. rewrite apply_visits_skip_dir_patterns,
      apply_visits_skip_file_patterns in Hloop.
    destruct Hloop as [Hg' Hd']. split; [done |]. intros Hr.
    by rewrite (Hd' Hr), apply_visits_app.
  - intros self [Hd Hg]. by cbn.
Qed.
(** ** The two walks make the same visits *)

Lemma flat_map_app_Permutation {A B} (f g k : A -> list B) (l : list A) :
  Forall (fun x => f x ≡ₚ g x ++ k x) l ->
  flat_map f l ≡ₚ flat_map g l ++ flat_map k l.
Proof.
  induction 1 as [|x l Hx _ IH]; [done |].
  cbn [flat_map]. rewrite Hx, IH, <-!app_assoc. f_equiv.
  rewrite !app_assoc. f_equiv. apply Permutation_app_comm.
Qed.

Lemma visits_by_level_Permutation sf dpat fpat :
  ∀ (dir : node) (p : Path),
    visits_by_level sf dpat fpat p dir
    ≡ₚ flat_map (visits sf dpat fpat p) (children_of dir).
Proof.
  intros dir.
  induction dir as [nm | nm children IH | nm] using node_nested_ind;
    intros p; [done | | done].
  rewrite visits_by_level_unfold. cbn [children_of]. symmetry.
  apply flat_map_app_Permutation.
  eapply Forall_impl; [exact IH |].
  intros item Hitem. destruct item as [nm' | nm' ch | nm'].
  - cbn [visits visits_below]. by rewrite app_nil_r.
  - cbn [visits visit_here visits_below node_name].
    destruct (skips dpat (p // nm')); [done |].
    cbn [app]. symmetry. apply (Hitem (p // nm')).
  - cbn [visits visits_below]. by rewrite app_nil_r.
Qed.
(** ** The report of the skip record *)

Lemma relative_loop_frame (base : Path) (xs acc : list Path)
    (dp : DirectoryProcessor) :
  (for_in xs acc
     (fun p rels => rel_path ← relative_to p base; mret (rels ++ [rel_path]))
     dp).1 = dp.
Proof.
  revert acc. induction xs as [|x xs IH]; intros acc; [done |].
  rewrite for_in_cons, !bind_run. unfold relative_to.
  destruct (PyPath.relative_to x base); [apply IH | done].
Qed.

Lemma logI_skip_stats_run (dp : DirectoryProcessor) :
  (logI_skip_stats dp).1 = dp
  ∧ ∀ lines, (logI_skip_stats dp).2 = Ret lines ->
      (skipped_dirs dp ≠ [] ->
         ∃ rels, LogSkippedDirs (length (skipped_dirs dp)) rels ∈ lines)
      ∧ (skipped_files dp ≠ [] ->
           ∃ shown others,
             LogSkippedFiles (length (skipped_files dp)) shown others ∈ lines).
Proof.
  unfold logI_skip_stats. rewrite bind_run. unfold get. cbv beta iota.
  rewrite bind_run.
  set (dirs_part := match skipped_dirs dp with [] => _ | _ => _ end).
  assert ((dirs_part dp).1 = dp
          ∧ ∀ dirs, (dirs_part dp).2 = Ret dirs ->
              skipped_dirs dp ≠ [] ->
              ∃ rels, dirs = [LogSkippedDirs (length (skipped_dirs dp)) rels])
    as [Hd1 Hd2].
  { subst dirs_part. destruct (skipped_dirs dp) as [|x xs] eqn:Hx; [done |].
    rewrite bind_run.
    pose proof (relative_loop_frame (input_base_dir dp) (x :: xs) [] dp) as Hf.
    destruct (for_in (x :: xs) [] _ dp) as [dp' [rels | e]]; cbn in *;
      subst dp'; [| by (split; [| intros ? [=]])].
    split; [done |]. intros dirs [= <-] _. eauto. }
  destruct (dirs_part dp) as [dp' [dirs | e]]; cbn [fst snd] in *;
    subst dp'; cbv beta iota; [| by (split; [| intros ? [=]])].
  rewrite bind_run.
  set (files_part := match skipped_files dp with [] => _ | _ => _ end).
  assert ((files_part dp).1 = dp
          ∧ ∀ files, (files_part dp).2 = Ret files ->
              skipped_files dp ≠ [] ->
              ∃ shown others,
                files = [LogSkippedFiles (length (skipped_files dp))
                           shown others])
    as [Hf1 Hf2].
  { subst files_part. destruct (skipped_files dp) as [|x xs] eqn:Hx; [done |].
    rewrite bind_run.
    pose proof (relative_loop_frame (input_base_dir dp) (take 10 (x :: xs))
                  [] dp) as Hf.
    destruct (for_in (take 10 (x :: xs)) [] _ dp) as [dp' [rels | e]];
      cbn in *; subst dp'; [| by (split; [| intros ? [=]])].
    split; [done |]. intros files [= <-] _. eauto. }
  destruct (files_part dp) as [dp' [files | e]]; cbn [fst snd] in *;
    subst dp'; cbv beta iota; [| by (split; [| intros ? [=]])].
  split; [done |]. intros lines [= <-]. split.
  - intros Hne. destruct (Hd2 dirs eq_refl Hne) as [rels ->].
    exists rels. set_solver.
  - intros Hne. destruct (Hf2 files eq_refl Hne) as (shown & others & ->).
    exists shown, others. set_solver.
Qed.
(** ** The run *)

Lemma modify_run {S} (f : S -> S) (s : S) : modify f s = (f s, Ret tt).
Proof. reflexivity. Qed.

Lemma get_run {S} (s : S) : get s = (s, Ret s).
Proof. reflexivity. Qed.

Lemma ret_run {S A} (a : A) (s : S) : (mret a : M S A) s = (s, Ret a).
Proof. reflexivity. Qed.

Lemma report_spec (total : Z) (s : MediaProcessor) :
  is_global total s ->
  is_global total (report s).1
  ∧ directory_processor (report s).1 = directory_processor s
  ∧ ((report s).2 = Ret true ->
     ∃ lines, (logI_skip_stats (directory_processor s)).2 = Ret lines
              ∧ lines ⊆ log (report s).1).
Proof.
  intros (processed & success & Ht). unfold report.
  rewrite bind_run, on_directory_processor_run.
  destruct (logI_skip_stats_run (directory_processor s)) as [Hframe _].
  destruct (logI_skip_stats (directory_processor s)) as [d [lines | e]];
    cbn [fst snd] in *; subst d;
    [| by split_and!; [exists processed, success | |]].
  unfold the_tracker. unfold_M. cbn. rewrite Ht. cbn.
  destruct (total =? 0); cbn.
  { by split_and!; [exists processed, success | |]. }
  destruct (0 <? processed_files (stats s)); cbn;
    (split_and!; [by exists processed, success | done |]);
    intros _; exists lines; (split; [done | set_solver]).
Qed.

Lemma process_spec `{Converter} (h : host) (tree : node)
    (self : MediaProcessor) :
  let c := collect_all_files tree supported_formats (directory_processor self) in
  let r := process h tree self in
  (r.2 ≠ Ret true ∧ progress_tracker r.1 = progress_tracker self)
  ∨ (∃ fs,
       c.2 = Ret fs
       ∧ is_global (Z.of_nat (length fs)) r.1
       ∧ (r.2 = Ret true ->
          directory_processor r.1 =
            apply_visits
              (visits_by_level supported_formats (skip_dir_patterns c.1)
                 (skip_file_patterns c.1)
                 (input_base_dir (directory_processor self)) tree) c.1
          ∧ ∃ lines,
              (logI_skip_stats (directory_processor r.1)).2 = Ret lines
              ∧ lines ⊆ log r.1)).
Proof.
  cbv zeta. unfold process.
  destruct (check_dependencies h); cbn [negb]; [| left; by cbn].
  rewrite bind_run, get_run. cbv beta iota.
  rewrite bind_run, modify_run. cbv beta iota.
  rewrite bind_run, on_directory_processor_run.
  cbn [directory_processor append_log].
  assert (input_base_dir
            (collect_all_files tree supported_formats
               (directory_processor self)).1
          = input_base_dir (directory_processor self)) as Hbase.
  { destruct tree; [done | by rewrite collect_all_files_run | done]. }
  destruct (collect_all_files tree supported_formats (directory_processor self))
    as [d1 [fs | e]] eqn:Hc; cbn [fst snd] in *; [| left; by cbn].
  destruct (length fs =? 0)%nat eqn:Hlen.
  { left. by cbn. }
  right. exists fs. split; [done |].
  rewrite bind_run, modify_run. cbv beta iota.
  rewrite bind_run, modify_run. cbv beta iota.
  rewrite bind_run, modify_run. cbv beta iota.
  rewrite bind_run, get_run. cbv beta iota.
  rewrite bind_run.
  match goal with
  | |- context [_process_directory h ?p tree ?s] =>
      pose proof (_process_directory_spec h (Z.of_nat (length fs)) tree p d1 s)
        as Hwalk;
      destruct (_process_directory h p tree s) as [s2 [[] | e]]
  end; cbn [fst snd] in Hwalk |- *.
  - destruct Hwalk as [Hg Hd];
      [split; [done | by eexists _, _] |].
    specialize (Hd eq_refl). cbn in Hd.
    change (is_global (Z.of_nat (length fs)) (report s2).1
            ∧ ((report s2).2 = Ret true ->
               directory_processor (report s2).1 =
                 apply_visits
                   (visits_by_level supported_formats (skip_dir_patterns d1)
                      (skip_file_patterns d1)
                      (input_base_dir (directory_processor self)) tree) d1
               ∧ ∃ lines,
                   (logI_skip_stats (directory_processor (report s2).1)).2
                   = Ret lines
                   ∧ lines ⊆ log (report s2).1)).
    destruct (report_spec _ s2 Hg) as (Hg' & Hd' & Hlines).
    split; [done |]. intros Hr. rewrite Hd'. split; [| by apply Hlines].
    by rewrite Hd, Hbase.
  - destruct Hwalk as [Hg _]; [split; [done | by eexists _, _] |].
    split; [done | by intros [=]].
Qed.
(** ** The skip record of a run *)

(** C9.  A run that reaches its report has walked the tree twice, and both
    walks append to the same skip record: starting from an empty record, the
    record at the report holds, up to order, two copies of what the counting
    walk alone records, for the directories and for the files; the counts the
    report logs are twice the counts of one walk. *)
Theorem C9_skip_record_counted_twice `{Converter} (h : host) (tree : node)
    (self self' : MediaProcessor) :
  skipped_dirs (directory_processor self) = [] ->
  skipped_files (directory_processor self) = [] ->
  process h tree self = (self', Ret true) ->
  let once :=
    (collect_all_files tree supported_formats (directory_processor self)).1 in
  skipped_dirs (directory_processor self')
    ≡ₚ skipped_dirs once ++ skipped_dirs once
  ∧ skipped_files (directory_processor self')
      ≡ₚ skipped_files once ++ skipped_files once
  ∧ (skipped_dirs once ≠ [] ->
     ∃ rels, LogSkippedDirs (2 * length (skipped_dirs once)) rels ∈ log self')
  ∧ (skipped_files once ≠ [] ->
     ∃ shown others,
       LogSkippedFiles (2 * length (skipped_files once)) shown others
         ∈ log self').
Proof.
  intros Hdirs Hfiles Hrun once.
  pose proof (process_spec h tree self) as Hspec. cbv zeta in Hspec.
  rewrite Hrun in Hspec. cbn [fst snd] in Hspec.
  destruct Hspec as [[Hne _] | (fs & Hfs & _ & Hdone)]; [done |].
  destruct (Hdone eq_refl) as (Hd & lines & Hlines & Hlog). clear Hdone.
  fold once in Hd.
  destruct tree as [nm | nm children | nm]; [done | | done].
  assert (once = apply_visits
                   (flat_map (visits supported_formats
                                (skip_dir_patterns (directory_processor self))
                                (skip_file_patterns (directory_processor self))
                                (input_base_dir (directory_processor self)))
                      children) (directory_processor self)) as Honce.
  { subst once. by rewrite collect_all_files_run. }
  pose proof (visits_by_level_Permutation supported_formats
                (skip_dir_patterns once) (skip_file_patterns once)
                (Dir nm children)
                (input_base_dir (directory_processor self))) as Hperm.
  cbn [children_of] in Hperm.
  assert (skipped_dirs (directory_processor self')
            ≡ₚ skipped_dirs once ++ skipped_dirs once) as Hd2.
  { rewrite Hd. cbn [apply_visits skipped_dirs]. f_equiv.
    rewrite Hperm, Honce. cbn [apply_visits skipped_dirs skip_dir_patterns
                                 skip_file_patterns].
    by rewrite Hdirs. }
  assert (skipped_files (directory_processor self')
            ≡ₚ skipped_files once ++ skipped_files once) as Hf2.
  { rewrite Hd. cbn [apply_visits skipped_files]. f_equiv.
    rewrite Hperm, Honce. cbn [apply_visits skipped_files skip_dir_patterns
                                 skip_file_patterns].
    by rewrite Hfiles. }
  destruct (logI_skip_stats_run (directory_processor self')) as [_ Hreport].
  destruct (Hreport lines Hlines) as [Hrd Hrf].
  split_and!; [done | done | |].
  - intros Hne. destruct Hrd as [rels Hrels].
    { intros Hnil. rewrite Hnil in Hd2. symmetry in Hd2.
      apply Permutation_nil_r in Hd2. by destruct (skipped_dirs once). }
    exists rels. apply Hlog.
    by rewrite (Permutation_length Hd2), length_app in Hrels;
      replace (2 * length (skipped_dirs once))%nat
        with (length (skipped_dirs once) + length (skipped_dirs once))%nat
        by lia.
  - intros Hne. destruct Hrf as (shown & others & Hrels).
    { intros Hnil. rewrite Hnil in Hf2. symmetry in Hf2.
      apply Permutation_nil_r in Hf2. by destruct (skipped_files once). }
    exists shown, others. apply Hlog.
    by rewrite (Permutation_length Hf2), length_app in Hrels;
      replace (2 * length (skipped_files once))%nat
        with (length (skipped_files once) + length (skipped_files once))%nat
        by lia.
Qed.

(** C9 on the picture tree: the hidden directory, the directory [sub/@ea]
    and the hidden file are each recorded twice. *)
Lemma C9_skip_record_counted_twice_witness :
  skipped_dirs (directory_processor pics_run.1)
    ≡ₚ [pics // ".git"; pics // "sub" // "@ea"]
       ++ [pics // ".git"; pics // "sub" // "@ea"]
  ∧ skipped_files (directory_processor pics_run.1)
      ≡ₚ [pics // ".hid.png"] ++ [pics // ".hid.png"]
  ∧ ([pics // ".git"; pics // "sub" // "@ea"] ≠ [] ->
     ∃ rels, LogSkippedDirs 4 rels ∈ log pics_run.1)
  ∧ ([pics // ".hid.png"] ≠ [] ->
     ∃ shown others, LogSkippedFiles 2 shown others ∈ log pics_run.1).
Proof.
  assert (process (H := WebpConverter 85) pics_host pics_tree pics_converter
          = (pics_run.1, Ret true)) as Hrun
    by (vm_compute; reflexivity).
  exact (C9_skip_record_counted_twice (H := WebpConverter 85) pics_host
           pics_tree pics_converter pics_run.1 eq_refl eq_refl Hrun).
Defined.
(** ** The tracker of a run *)

(** C10.  Whatever the converter and the options, a run ends with the
    tracker it started with (when it stops before the pool is set up) or
    with a [GlobalProgressTracker] whose denominator is the number of files
    the counting walk found in the whole tree.  The option [--local-progress]
    of [img2webp] does not reach the converter: the program ends the same
    way with it and without it, and neither program ever holds a
    per-directory tracker. *)
Theorem C10_global_tracker_always :
  (∀ (C : Converter) (h : host) (tree : node) (self : MediaProcessor),
     progress_tracker (process h tree self).1 = progress_tracker self
     ∨ ∃ fs,
         (collect_all_files tree supported_formats
            (directory_processor self)).2 = Ret fs
         ∧ is_global (Z.of_nat (length fs)) (process h tree self).1)
  ∧ (∀ (h : host) (args : WebpOptions) (b : bool),
       img2webp_main h (with_local_progress b args) = img2webp_main h args)
  ∧ (∀ (h : host) (args : WebpOptions),
       match (img2webp_main h args).2 with
       | Some self =>
           progress_tracker self = None
           ∨ ∃ total, is_global total self
       | None => True
       end)
  ∧ (∀ (h : host) (args : VideoOptions),
       match (video_compress_main h args).2 with
       | Some self =>
           progress_tracker self = None
           ∨ ∃ total, is_global total self
       | None => True
       end).
Proof.
  assert (∀ (C : Converter) (h : host) (tree : node) (self : MediaProcessor),
            progress_tracker (process h tree self).1 = progress_tracker self
            ∨ ∃ fs,
                (collect_all_files tree supported_formats
                   (directory_processor self)).2 = Ret fs
                ∧ is_global (Z.of_nat (length fs)) (process h tree self).1)
    as Hprocess.
  { intros C h tree self.
    destruct (process_spec h tree self) as [[_ Ht] | (fs & Hfs & Hg & _)];
      [by left | right; by exists fs]. }
  split_and!.
  - exact Hprocess.
  - by intros h [] b.
  - intros h args. unfold img2webp_main.
    destruct (lookup_dir h (webp_input_dir args)) as [tree |]; [| done].
    match goal with
    | |- context [process (H := ?C) h tree ?s] =>
        destruct (Hprocess C h tree s) as [Ht | (fs & _ & Hg)];
        destruct (process (H := C) h tree s) as [self' [[] | e]]
    end; cbn in *; eauto.
  - intros h args. unfold video_compress_main.
    destruct (lookup_dir h (video_input_dir args)) as [tree |]; [| done].
    match goal with
    | |- context [process (H := ?C) h tree ?s] =>
        destruct (Hprocess C h tree s) as [Ht | (fs & _ & Hg)];
        destruct (process (H := C) h tree s) as [self' [[] | e]]
    end; cbn in *; eauto.
Qed.

(** ** A tree with nothing to convert *)

(** C5, as stated, fails: with the dependencies installed and a directory
    that holds no eligible file, [img2webp] ends with exit status 1. *)
Lemma C5_counterexample :
  ¬ (∀ (h : host) (args : WebpOptions) (tree : node),
       dependencies_installed h = true ->
       lookup_dir h (webp_input_dir args) = Some tree ->
       (collect_all_files tree
          (supported_formats (Converter := WebpConverter (webp_quality args)))
          (DirectoryProcessor_init (webp_input_dir args)
             compressed_identifier)).2 = Ret [] ->
       (img2webp_main h args).1 = 0).
Proof.
  intros H.
  specialize (H empty_host pics_options (Dir "pics" [File "notes.txt"])
                eq_refl eq_refl eq_refl).
  vm_compute in H. discriminate H.
Qed.

(** C5, amended.  When the dependencies are installed and the counting
    walk finds no eligible file, [process] stops early: it answers [False]
    after logging that nothing was found, no file is processed (the disk, the
    statistics and the tracker are as before), and the program that called
    it ends with exit status 1. *)
Theorem C5_no_eligible_file_ends_with_status_1 `{Converter} (h : host)
    (tree : node) (self : MediaProcessor) :
  check_dependencies h = true ->
  (collect_all_files tree supported_formats (directory_processor self)).2
    = Ret [] ->
  (process h tree self).2 = Ret false
  ∧ disk (process h tree self).1 = disk self
  ∧ stats (process h tree self).1 = stats self
  ∧ progress_tracker (process h tree self).1 = progress_tracker self
  ∧ log (process h tree self).1
    = log self ++ [LogStart (workers self)
                     (output_base_dir (directory_processor self));
                   LogNoFiles]
  ∧ (exit_status (process h tree self)).1 = 1.
Proof.
  intros Hdeps Hnone. unfold process. rewrite Hdeps. cbn [negb].
  rewrite bind_run, get_run. cbv beta iota.
  rewrite bind_run, modify_run. cbv beta iota.
  rewrite bind_run, on_directory_processor_run.
  cbn [directory_processor append_log].
  destruct (collect_all_files tree supported_formats (directory_processor self))
    as [d1 [fs | e]]; cbn [fst snd] in *; [| done].
  injection Hnone as ->. cbn [length Nat.eqb].
  rewrite bind_run, modify_run. cbv beta iota. rewrite ret_run.
  cbn. by rewrite <-app_assoc.
Qed.

(** C5, amended, at the directory of the counterexample. *)
Lemma C5_no_eligible_file_ends_with_status_1_witness :
  (img2webp_main empty_host pics_options).1 = 1.
Proof.
  exact (proj2 (proj2 (proj2 (proj2 (proj2
           (C5_no_eligible_file_ends_with_status_1
              (H := WebpConverter 85) empty_host
              (Dir "pics" [File "notes.txt"])
              (MediaProcessor_init empty_host pics None compressed_identifier)
              eq_refl eq_refl)))))).
Defined.
(** ** The statistics of a run *)

Lemma record_failed (result : ResultDict) (s : RunStats) :
  record false result s = Ret s.
Proof. reflexivity. Qed.

Lemma record_succeeded (st : Stats) (r : remark) (s : RunStats) :
  record true (success st r).2 s =
    Ret {| processed_files := processed_files s + 1;
           total_original_size := total_original_size s + original_size st;
           total_processed_size := total_processed_size s + processed_size st |}.
Proof. reflexivity. Qed.

(** The pool loop hands each result to [record] once: when the loop
    ends, the statistics are those of [record] applied to the results of the
    tasks, one result per task, in the order of completion. *)
Lemma drain_pool_records `{Converter} (h : host) (tasks : list Args)
    (self self' : MediaProcessor) :
  drain_pool h tasks self = (self', Ret tt) ->
  ∃ results : list TaskResult,
    Forall2 (fun task r =>
               ∃ w, (process_file (env_of h (task_file task)) task w).2 = Ret r)
      (completion_order h Args tasks) results
    ∧ record_all results (stats self) = Ret (stats self').
Proof.
  unfold drain_pool. generalize (completion_order h Args tasks). clear tasks.
  intros tasks. revert self.
  induction tasks as [|task tasks IH]; intros self Hrun.
  - injection Hrun as <-. by exists [].
  - rewrite for_in_cons, bind_run in Hrun.
    rewrite bind_run, on_disk_run in Hrun.
    destruct (process_file (env_of h (task_file task)) task (disk self))
      as [w [[status result] | e]] eqn:Hfile; cbn [fst snd] in Hrun;
      [| discriminate].
    unfold the_tracker in Hrun. unfold_M. cbn in Hrun.
    destruct (progress_tracker self) as [t |]; [| discriminate].
    destruct (update t status result) as [t' [lines | e]]; [| discriminate].
    cbn in Hrun.
    destruct (record status result (stats self)) as [s | e] eqn:Hrec;
      [| discriminate].
    cbn in Hrun. destruct (IH _ Hrun) as (results & Hall & Hstats).
    exists ((status, result) :: results). split.
    + constructor; [| done]. exists (disk self). by rewrite Hfile.
    + cbn [record_all]. by rewrite Hrec.
Qed.

(** C8.  A failed result leaves the three counters as they are; a
    successful one adds one file and its two sizes.  Three successful results
    of sizes (100, 60), (200, 150) and (50, 50) give 3 files, 350 bytes before
    and 260 after, in any order of arrival and with failed results among
    them; the run over the picture tree, whose files have these sizes, ends
    with these statistics.  In the pool loop each result is recorded once. *)
Theorem C8_stats_accumulation :
  (∀ (result : ResultDict) (s : RunStats), record false result s = Ret s)
  ∧ (∀ (st : Stats) (r : remark) (s : RunStats),
       record true (success st r).2 s =
         Ret {| processed_files := processed_files s + 1;
                total_original_size := total_original_size s + original_size st;
                total_processed_size :=
                  total_processed_size s + processed_size st |})
  ∧ (∀ (f1 f2 f3 : Path) (results : list TaskResult),
       results ≡ₚ [converted f1 100 60; converted f2 200 150;
                   converted f3 50 50] ->
       record_all results RunStats_init =
         Ret {| processed_files := 3; total_original_size := 350;
                total_processed_size := 260 |})
  ∧ (∀ (f1 f2 f3 : Path) (m : Message),
       record_all [converted f1 100 60; failure m; converted f2 200 150;
                   converted f3 50 50] RunStats_init =
         Ret {| processed_files := 3; total_original_size := 350;
                total_processed_size := 260 |})
  ∧ (∀ (C : Converter) (h : host) (tasks : list Args)
       (self self' : MediaProcessor),
       drain_pool h tasks self = (self', Ret tt) ->
       ∃ results : list TaskResult,
         Forall2 (fun task r =>
                    ∃ w, (process_file (env_of h (task_file task)) task w).2
                         = Ret r)
           (completion_order h Args tasks) results
         ∧ record_all results (stats self) = Ret (stats self'))
  ∧ stats pics_run.1 =
      {| processed_files := 3; total_original_size := 350;
         total_processed_size := 260 |}.
Proof.
  split_and!.
  - exact record_failed.
  - exact record_succeeded.
  - intros f1 f2 f3 results Hperm.
    assert (∀ l : list TaskResult,
              l ≡ₚ [converted f1 100 60; converted f2 200 150;
                    converted f3 50 50] ->
              l ∈ permutations [converted f1 100 60; converted f2 200 150;
                                converted f3 50 50]) as Hin.
    { intros l Hl. by apply permutations_Permutation. }
    specialize (Hin results Hperm). cbn in Hin.
    repeat (apply elem_of_cons in Hin as [-> | Hin]; [reflexivity |]).
    by apply elem_of_nil in Hin.
  - reflexivity.
  - intros C h tasks self self'. apply drain_pool_records.
  - vm_compute. reflexivity.
Qed.
(** ** Names of outputs and temporary files *)

Lemma rfind_from_shift (c : ascii) (s : string) (k : nat) (found : option nat) :
  PyStr.rfind_from c s k found =
    match PyStr.rfind_from c s 0 None with
    | Some j => Some (k + j)%nat
    | None => found
    end.
Proof.
  revert k found. induction s as [|a s IH]; intros k found; [done |].
  cbn [PyStr.rfind_from]. rewrite (IH (S k)), (IH 1%nat).
  destruct (PyStr.rfind_from c s 0 None) as [j |].
  - f_equal. lia.
  - destruct (Ascii.eqb a c); [f_equal; lia | done].
Qed.

Lemma rfind_last (c : ascii) (s : string) (i : nat) :
  PyStr.rfind c s = Some i -> PyStr.rfind c (PyStr.drop (S i) s) = None.
Proof.
  revert i. induction s as [|a s IH]; intros i; [done |].
  unfold PyStr.rfind. cbn [PyStr.rfind_from]. rewrite rfind_from_shift.
  fold (PyStr.rfind c s).
  destruct (PyStr.rfind c s) as [j |] eqn:Hj.
  - intros [= <-]. cbn [PyStr.drop]. by apply IH.
  - destruct (Ascii.eqb a c); [| done]. by intros [= <-].
Qed.

Lemma drop_S (i : nat) (s : string) :
  PyStr.drop (S i) s = PyStr.drop 1 (PyStr.drop i s).
Proof.
  revert s. induction i as [|i IH]; intros [|c s]; try done.
  change (PyStr.drop (S (S i)) (String c s)) with (PyStr.drop (S i) s).
  change (PyStr.drop (S i) (String c s)) with (PyStr.drop i s).
  apply IH.
Qed.

Lemma stem_suffix (nm : string) :
  PyPath.stem_of_name nm +:+ PyPath.suffix_of_name nm = nm.
Proof.
  unfold PyPath.stem_of_name, PyPath.suffix_of_name.
  destruct (PyPath.split_point nm); [apply take_drop | apply append_nil_r].
Qed.

Lemma append_longer (a b c : string) :
  (0 < String.length b)%nat -> a +:+ b +:+ c ≠ a +:+ c.
Proof.
  intros Hb Heq. apply (f_equal String.length) in Heq.
  rewrite !length_append in Heq. lia.
Qed.

Lemma div_inj (p : Path) (a b : string) : p // a = p // b -> a = b.
Proof. unfold PyPath.div. intros H. by apply app_inv_head in H as [= ->]. Qed.

Lemma name_div (p : Path) (a : string) : PyPath.name (p // a) = a.
Proof. unfold PyPath.name, PyPath.div. apply last_last. Qed.

(** The temporary file of an image is neither its output nor the image. *)
Lemma image_temp_ne_output (dir : Path) (stem : string) :
  dir // (stem +:+ ".webp.tmp") ≠ dir // (stem +:+ ".webp").
Proof.
  intros H. apply div_inj in H.
  apply (f_equal String.length) in H. rewrite !length_append in H.
  cbn in H. lia.
Qed.

Lemma image_temp_ne_input (dir img_path : Path) :
  dir // (PyPath.stem img_path +:+ ".webp.tmp") ≠ img_path.
Proof.
  intros H. apply (f_equal PyPath.name) in H. rewrite name_div in H.
  unfold PyPath.stem in H. set (nm := PyPath.name img_path) in *.
  unfold PyPath.stem_of_name in H.
  destruct (PyPath.split_point nm) as [i |] eqn:Hsplit.
  - assert (PyStr.drop i nm = ".webp.tmp") as Hdrop.
    { apply (inj (String.app (PyStr.take i nm))).
      by rewrite take_drop. }
    unfold PyPath.split_point in Hsplit.
    destruct (PyStr.rfind "." nm) as [j |] eqn:Hj; [| done].
    destruct ((0 <? j)%nat && (j + 1 <? String.length nm)%nat); [| done].
    injection Hsplit as ->.
    apply rfind_last in Hj.
    rewrite drop_S, Hdrop in Hj. discriminate Hj.
  - apply (f_equal String.length) in H. rewrite length_append in H.
    cbn in H. lia.
Qed.

(** The temporary file of a video is neither its output nor the video. *)
Lemma video_temp_ne_output (dir : Path) (stem suffix : string) :
  dir // (stem +:+ ".tmp." +:+ suffix) ≠ dir // (stem +:+ suffix).
Proof.
  intros H. apply div_inj in H.
  exact (append_longer _ ".tmp." _ ltac:(cbn; lia) H).
Qed.

Lemma video_temp_ne_input (dir video_path : Path) :
  dir // (PyPath.stem video_path +:+ ".tmp." +:+ PyPath.suffix video_path)
  ≠ video_path.
Proof.
  intros H. apply (f_equal PyPath.name) in H. rewrite name_div in H.
  unfold PyPath.stem, PyPath.suffix in H.
  rewrite <-(stem_suffix (PyPath.name video_path)) in H at 3.
  exact (append_longer _ ".tmp." _ ltac:(cbn; lia) H).
Qed.
(** ** Steps on the disk *)

Lemma write_run f w : write f w = (written f w, Ret tt).
Proof. reflexivity. Qed.

Lemma exists__run p w :
  exists_ p w = (w, Ret (bool_decide (is_Some (files w !! p)))).
Proof. reflexivity. Qed.

Lemma unlink_if_exists_run p w :
  unlink_if_exists p w =
    (if bool_decide (is_Some (files w !! p)) then written (delete p) w else w,
     Ret tt).
Proof.
  unfold unlink_if_exists, unlink. rewrite bind_run, exists__run.
  cbv beta iota. case_bool_decide as Hp; [| done].
  rewrite bind_run, get_run. cbv beta iota. by destruct Hp as [f ->].
Qed.

Lemma calc_save_space_run input_file output_file w fi fo :
  files w !! input_file = Some fi ->
  files w !! output_file = Some fo ->
  calc_save_space input_file output_file w =
    (w, Ret (stats_for input_file (st_size fi) (st_size fo))).
Proof.
  intros Hi Ho. unfold calc_save_space, stat_st_size. unfold_M. cbn.
  by rewrite Hi, Ho.
Qed.

Lemma relative_to_run {S} p base rel (s : S) :
  PyPath.relative_to p base = Some rel ->
  relative_to p base s = (s, Ret rel).
Proof. intros H. unfold relative_to. by rewrite H. Qed.

Lemma process_image_unfold e img_path input_base output_base quality rel w :
  PyPath.relative_to img_path input_base = Some rel ->
  process_image e (img_path, input_base, output_base, quality) w =
    convert_image e img_path rel
      ((output_base ++ PyPath.parent rel) // (PyPath.stem img_path +:+ ".webp"))
      ((output_base ++ PyPath.parent rel)
         // (PyPath.stem img_path +:+ ".webp.tmp")) w.
Proof.
  intros Hrel. unfold process_image.
  by rewrite bind_run, (relative_to_run _ _ rel).
Qed.

(** Resolve the lookups of a goal about the disk. *)
Ltac disk_simpl :=
  repeat first
    [ rewrite lookup_insert_eq
    | rewrite lookup_delete_eq
    | rewrite lookup_insert_ne by congruence
    | rewrite lookup_delete_ne by congruence
    | rewrite bool_decide_eq_true_2 by eauto
    | rewrite bool_decide_eq_false_2 by (intros [? ?]; congruence)
    | progress cbn [files history encoder_runs written fst snd st_size
                    complete] ].

(** Run the steps of a computation on the disk, with the lookups the
    hypotheses give. *)
Ltac disk_run :=
  repeat progress
    (cbn; disk_simpl;
     repeat match goal with
            | H : files _ !! _ = _ |- _ => rewrite H
            | H : _ !! _ = _ |- _ => rewrite H
            end).

Lemma convert_image_after_encoder (e : env)
    (img_path rel output_path temp_file : Path) (w : world) (size : Z)
    (original : file) :
  temp_file ≠ output_path -> temp_file ≠ img_path ->
  files w !! img_path = Some original ->
  files w !! output_path = None ->
  encoder e = Exited 0 (Some size) ->
  (rival e = None ->
   (convert_image e img_path rel output_path temp_file w).2
   = Ret (success (stats_for img_path (st_size original) size) Done)
   ∧ files (convert_image e img_path rel output_path temp_file w).1
       !! temp_file = None
   ∧ files (convert_image e img_path rel output_path temp_file w).1
       !! output_path = Some {| st_size := size; complete := true |})
  ∧ (∀ rsize, rival e = Some (output_path, rsize) ->
     (convert_image e img_path rel output_path temp_file w).2
     = Ret (success (stats_for img_path (st_size original) rsize) OtherProcess)
     ∧ files (convert_image e img_path rel output_path temp_file w).1
         !! temp_file = None
     ∧ files (convert_image e img_path rel output_path temp_file w).1
         !! output_path = Some {| st_size := rsize; complete := true |}).
Proof.
  intros Hto Hti Himg Hout Henc.
  assert (img_path ≠ output_path) as Hio by congruence.
  unfold convert_image.
  rewrite bind_run, exists__run, Hout. cbv beta iota.
  rewrite bool_decide_eq_false_2 by (by intros [? ?]).
  rewrite bind_run, unlink_if_exists_run. cbv beta iota.
  unfold try_except, subprocess_run_check, run_encoder, count_encoder_run.
  rewrite Henc.
  split.
  - intros Hrival. rewrite Hrival.
    unfold shutil_move, unlink, calc_save_space, stat_st_size, exists_, write.
    unfold_M.
    by destruct (files w !! temp_file) as [stale |] eqn:Hstale; disk_run.
  - intros rsize Hrival. rewrite Hrival.
    unfold shutil_move, unlink, calc_save_space, stat_st_size, exists_, write.
    unfold_M.
    by destruct (files w !! temp_file) as [stale |] eqn:Hstale; disk_run.
Qed.

Lemma handle_result_run (video_path output_path temp_file rel_path : Path)
    (w : world) (original produced : file) :
  temp_file ≠ output_path -> temp_file ≠ video_path ->
  files w !! video_path = Some original ->
  files w !! temp_file = Some produced ->
  handle_result video_path output_path temp_file rel_path w =
    match files w !! output_path with
    | Some existing =>
        (written (delete temp_file) w,
         Ret (success
                (stats_for video_path (st_size original) (st_size existing))
                AlreadyExists))
    | None =>
        (written (fun m => <[output_path := produced]> (delete temp_file m)) w,
         Ret (success
                (stats_for video_path (st_size original) (st_size produced))
                Done))
    end.
Proof.
  intros Hto Hti Hvideo Htemp.
  unfold handle_result, shutil_move, unlink, calc_save_space, stat_st_size,
    exists_, write.
  unfold_M.
  destruct (files w !! output_path) as [existing |] eqn:Hout.
  - by disk_run.
  - assert (video_path ≠ output_path) as Hvo by congruence.
    by disk_run.
Qed.

(** C4.  Once the encoder has written the temporary file with success,
    the task looks again for the output.  For an image: if a concurrent
    worker has published the output in the meantime, the temporary file is
    deleted and the task succeeds with the sizes of the existing output;
    otherwise the temporary file is moved to the output and the task succeeds
    with the sizes of its own result.  [handle_result] does the same for a
    video.  In both branches the task reports success. *)
Theorem C4_recheck_after_encoding (e : env)
    (img_path input_base output_base : Path) (quality : Z) (w : world)
    (output_path temp_file : Path) (size : Z) (original : file) :
  image_output_path img_path input_base output_base = Some output_path ->
  image_temp_file img_path input_base output_base = Some temp_file ->
  files w !! img_path = Some original ->
  files w !! output_path = None ->
  encoder e = Exited 0 (Some size) ->
  let r := process_image e (img_path, input_base, output_base, quality) w in
  (rival e = None ->
   r.2 = Ret (success (stats_for img_path (st_size original) size) Done)
   ∧ files r.1 !! temp_file = None
   ∧ files r.1 !! output_path = Some {| st_size := size; complete := true |})
  ∧ (∀ rsize, rival e = Some (output_path, rsize) ->
     r.2 = Ret (success (stats_for img_path (st_size original) rsize)
                  OtherProcess)
     ∧ files r.1 !! temp_file = None
     ∧ files r.1 !! output_path
       = Some {| st_size := rsize; complete := true |})
  ∧ (∀ (video_path video_output video_temp rel_path : Path) (w1 : world)
       (video produced : file),
       video_temp ≠ video_output -> video_temp ≠ video_path ->
       files w1 !! video_path = Some video ->
       files w1 !! video_temp = Some produced ->
       let r1 := handle_result video_path video_output video_temp rel_path w1 in
       files r1.1 !! video_temp = None
       ∧ match files w1 !! video_output with
         | Some existing =>
             r1.2 = Ret (success
                           (stats_for video_path (st_size video)
                              (st_size existing)) AlreadyExists)
             ∧ files r1.1 !! video_output = Some existing
         | None =>
             r1.2 = Ret (success
                           (stats_for video_path (st_size video)
                              (st_size produced)) Done)
             ∧ files r1.1 !! video_output = Some produced
         end).
Proof.
  unfold image_output_path, image_temp_file.
  destruct (PyPath.relative_to img_path input_base) as [rel |] eqn:Hrel;
    [| done].
  cbn [mbind option_bind]. cbv zeta. intros [= <-] [= <-] Himg Hout Henc.
  rewrite (process_image_unfold _ _ _ _ _ rel) by done.
  destruct (convert_image_after_encoder e img_path rel _ _ w size original
              (image_temp_ne_output _ _) (image_temp_ne_input _ _)
              Himg Hout Henc) as [Hnone Hrival].
  split_and!; [exact Hnone | exact Hrival |].
  intros video_path video_output video_temp rel_path w1 video produced
    Hto Hti Hvideo Htemp.
  rewrite (handle_result_run _ _ _ _ _ video produced) by done.
  destruct (files w1 !! video_output) as [existing |] eqn:Hvo;
    cbn; disk_simpl; by rewrite ?Hvo.
Qed.
(** C4 at [b.jpg] of the picture tree: alone, the task publishes its 60
    bytes; with a rival that published 77 bytes first, it reports those. *)
Lemma C4_recheck_after_encoding_witness :
  (process_image (env_ok 60) (pics // "b.jpg", pics, pics_out, 85)
     pics_world).2
  = Ret (success (stats_for (pics // "b.jpg") 100 60) Done)
  ∧ (process_image env_race (pics // "b.jpg", pics, pics_out, 85)
       pics_world).2
    = Ret (success (stats_for (pics // "b.jpg") 100 77) OtherProcess).
Proof.
  split.
  - exact (proj1 (proj1 (C4_recheck_after_encoding (env_ok 60)
                           (pics // "b.jpg") pics pics_out 85 pics_world
                           (pics_out // "b.webp") (pics_out // "b.webp.tmp")
                           60 (mkFile 100 true)
                           eq_refl eq_refl eq_refl eq_refl eq_refl)
                    eq_refl)).
  - exact (proj1 (proj1 (proj2 (C4_recheck_after_encoding env_race
                                  (pics // "b.jpg") pics pics_out 85
                                  pics_world
                                  (pics_out // "b.webp")
                                  (pics_out // "b.webp.tmp")
                                  60 (mkFile 100 true)
                                  eq_refl eq_refl eq_refl eq_refl eq_refl))
                    77 eq_refl)).
Defined.
(** ** Videos: the log line before the existence check *)

Lemma parse_bitrate_state {S} (bitrate : option string) (s : S) :
  (parse_bitrate bitrate s).1 = s.
Proof.
  unfold parse_bitrate, int.
  destruct (negb (truthy_str bitrate)); [done |].
  destruct (PyStr.endswith _ "k").
  { rewrite bind_run. by destruct (PyStr.int _). }
  destruct (PyStr.endswith _ "m").
  { rewrite bind_run. by destruct (PyStr.int _). }
  rewrite bind_run. by destruct (PyStr.int _).
Qed.

Lemma process_video_without_bitrate (e : env)
    (video_path input_base output_base : Path) (crf : option Z)
    (preset : option string) (use_software : bool) (w : world) :
  process_video e
    (video_path, input_base, output_base, None, crf, preset, use_software) w
  = (w, Raise TypeError).
Proof.
  unfold process_video, get_video_bitrate. cbn [truthy_str].
  rewrite bind_run, ret_run. cbv beta iota.
  rewrite bind_run. by destruct (bitrate_probe e).
Qed.

Lemma process_video_without_probe (e : env)
    (video_path input_base output_base : Path) (bitrate : option string)
    (crf : option Z) (preset : option string) (use_software : bool)
    (w : world) :
  bitrate_probe e = None ->
  (process_video e
     (video_path, input_base, output_base, bitrate, crf, preset, use_software)
     w).1 = w
  ∧ ∃ exc,
      (process_video e
         (video_path, input_base, output_base, bitrate, crf, preset,
          use_software) w).2 = Raise exc.
Proof.
  intros Hprobe. unfold process_video, get_video_bitrate. rewrite Hprobe.
  rewrite bind_run.
  destruct (truthy_str bitrate).
  - pose proof (parse_bitrate_state bitrate w) as Hstate.
    destruct (parse_bitrate bitrate w) as [w' [target | exc]];
      cbn in Hstate; subst w'; cbn; eauto.
  - cbn. eauto.
Qed.

(** C2 fails for videos.  [process_video] logs the two bitrates before it
    looks for the output, and [format_size] cannot format [None]: a task
    without a target bitrate (the default of the command line, and the only
    choice with [--crf]) raises [TypeError] whatever the disk holds, and so
    does a task whose source bitrate could not be read.  On a disk where the
    outputs of both videos exist, the task of [a.mp4] raises instead of
    reporting the existing output, and the second run ends with status 1. *)
Theorem C2_video_skip_not_reached :
  (∀ (e : env) (video_path input_base output_base : Path) (crf : option Z)
     (preset : option string) (use_software : bool) (w : world),
     process_video e
       (video_path, input_base, output_base, None, crf, preset, use_software)
       w
     = (w, Raise TypeError))
  ∧ (∀ (e : env) (video_path input_base output_base : Path)
       (bitrate : option string) (crf : option Z) (preset : option string)
       (use_software : bool) (w : world),
       bitrate_probe e = None ->
       ∃ exc,
         (process_video e
            (video_path, input_base, output_base, bitrate, crf, preset,
             use_software) w).2 = Raise exc)
  ∧ is_Some (files clips_world_done !! (clips_out // "a.mp4"))
  ∧ process_video (env_ok 300)
      (clips // "a.mp4", clips, clips_out, None, None, None, false)
      clips_world_done
    = (clips_world_done, Raise TypeError).
Proof.
  split_and!.
  - exact process_video_without_bitrate.
  - intros e video_path input_base output_base bitrate crf preset use_software
      w Hprobe.
    by destruct (process_video_without_probe e video_path input_base
                   output_base bitrate crf preset use_software w Hprobe).
  - vm_compute. eauto.
  - apply process_video_without_bitrate.
Qed.

(** C3 fails for videos.  The same log line stands before the [try] of
    [process_video], and [VideoCompressor.process_file] has no handler of its
    own: a task without a target bitrate leaves [process_file] with
    [TypeError].  The exception comes out of the pool loop and ends the run:
    over the two videos, called with the directory alone, [process] raises at
    the first result, the encoder is never started, the disk is as before,
    and the program ends with status 1. *)
Theorem C3_video_exception_escapes :
  (∀ (e : env) (video_path input_base output_base : Path) (crf : option Z)
     (preset : option string) (use_software : bool) (w : world),
     VideoCompressor_process_file e
       (video_path, input_base, output_base, None, crf, preset, use_software)
       w
     = (w, Raise TypeError))
  ∧ (process (H := VideoCompressor None None None false) clips_host clips_tree
       (MediaProcessor_init clips_host clips None compressed_identifier)).2
    = Raise TypeError
  ∧ disk (process (H := VideoCompressor None None None false) clips_host
            clips_tree
            (MediaProcessor_init clips_host clips None compressed_identifier)).1
    = clips_world
  ∧ (video_compress_main clips_host clips_options).1 = 1.
Proof.
  split_and!.
  - intros. apply process_video_without_bitrate.
  - vm_compute. reflexivity.
  - vm_compute. reflexivity.
  - vm_compute. reflexivity.
Qed.
(** ** Videos: the copy in place of the encoder *)

Lemma format_size_run {S} (n : Z) (s : S) :
  ∃ text, format_size (Some n) s = (s, Ret text).
Proof. by eexists. Qed.

(** C1 fails on the copy shortcut.  When the source bitrate is known and
    not above the target, [process_video] copies the video straight to
    [output_path] with [shutil.copy2]: no temporary file, no move.  While
    the copy runs the output exists and is not whole, so a kill of the process
    at that time leaves a partial file at [output_path] (which the next run
    takes for a finished conversion). *)
Theorem C1_copy_shortcut_writes_output_in_place (e : env)
    (video_path input_base output_base rel : Path) (bitrate : string)
    (crf : option Z) (preset : option string) (use_software : bool)
    (w : world) (probe target : Z) (original : file) :
  PyPath.relative_to video_path input_base = Some rel ->
  bitrate_probe e = Some probe -> probe ≠ 0 ->
  (parse_bitrate (Some bitrate) w).2 = Ret (Some target) -> target ≠ 0 ->
  probe <= target ->
  files w !! video_path = Some original ->
  files w
    !! ((output_base ++ PyPath.parent rel)
          // (PyPath.stem video_path +:+ PyPath.suffix video_path)) = None ->
  let output_path :=
    (output_base ++ PyPath.parent rel)
      // (PyPath.stem video_path +:+ PyPath.suffix video_path) in
  let r :=
    process_video e
      (video_path, input_base, output_base, Some bitrate, crf, preset,
       use_software) w in
  r.2 = Ret (success
               (stats_for video_path (st_size original) (st_size original))
               Done)
  ∧ encoder_runs r.1 = encoder_runs w
  ∧ ∃ fs, fs ∈ history r.1
          ∧ fs !! output_path = Some {| st_size := 0; complete := false |}
          ∧ ¬ no_partial output_path fs.
Proof.
  intros Hrel Hprobe Hp0 Hparse Ht0 Hle Hvideo Hout output_path r.
  set (temp_file :=
         (output_base ++ PyPath.parent rel)
           // (PyPath.stem video_path +:+ ".tmp." +:+ PyPath.suffix video_path)).
  change (files w !! output_path = None) in Hout.
  assert (temp_file ≠ output_path) as Hto by apply video_temp_ne_output.
  assert (temp_file ≠ video_path) as Hti by apply video_temp_ne_input.
  assert (video_path ≠ output_path) as Hvo by congruence.
  assert (r = (written (<[output_path := original]>)
                 (written (<[output_path := {| st_size := 0;
                                               complete := false |}]>)
                    (if bool_decide (is_Some (files w !! temp_file))
                     then written (delete temp_file) w else w)),
               Ret (success
                      (stats_for video_path (st_size original)
                         (st_size original)) Done))) as ->.
  { subst r. unfold process_video, get_video_bitrate. rewrite Hprobe.
    assert (truthy_str (Some bitrate) = true) as Htruthy.
    { destruct (truthy_str (Some bitrate)) eqn:Ht; [done |].
      unfold parse_bitrate in Hparse. by rewrite Ht in Hparse. }
    rewrite Htruthy, bind_run.
    pose proof (parse_bitrate_state (Some bitrate) w) as Hstate.
    destruct (parse_bitrate (Some bitrate) w) as [w' [t | exc]];
      cbn in Hstate, Hparse; subst w'; [| done].
    injection Hparse as ->.
    rewrite bind_run. destruct (format_size_run probe w) as [text1 ->].
    cbv beta iota. rewrite bind_run.
    destruct (format_size_run target w) as [text2 ->]. cbv beta iota.
    assert (truthy_int (Some probe) && truthy_int (Some target)
            && (default 0 (Some probe) <=? default 0 (Some target)) = true)
      as ->.
    { cbn. rewrite !andb_true_iff, !negb_true_iff, !Z.eqb_neq, Z.leb_le.
      done. }
    unfold get_output_path.
    rewrite !bind_run, (relative_to_run _ _ rel) by done. cbv beta iota.
    unfold mkdir. rewrite !bind_run, ret_run. cbv beta iota.
    rewrite bind_run, unlink_if_exists_run. cbv beta iota. rewrite ret_run.
    cbv beta iota zeta. fold output_path temp_file.
    unfold shutil_copy2, calc_save_space, stat_st_size, exists_, write.
    unfold_M.
    destruct (files w !! temp_file) as [stale |] eqn:Hstale.
    - by disk_run.
    - by disk_run. }
  cbn [fst snd]. split_and!; [done | by case_bool_decide |].
  exists (<[output_path := {| st_size := 0; complete := false |}]>
            (files (if bool_decide (is_Some (files w !! temp_file))
                    then written (delete temp_file) w else w))).
  split_and!.
  - cbn [history written]. set_solver.
  - apply lookup_insert_eq.
  - unfold no_partial. by rewrite lookup_insert_eq.
Qed.

(** C1's failing input: [a.mp4] at 400 kb/s with the target [1M].  The
    task succeeds without the encoder, and on its way the disk passes through
    a state with a partial file at the output. *)
Lemma C1_copy_shortcut_writes_output_in_place_witness :
  (process_video env_low_bitrate
     (clips // "a.mp4", clips, clips_out, Some "1M", None, None, false)
     clips_world).2
  = Ret (success (stats_for (clips // "a.mp4") 900 900) Done)
  ∧ encoder_runs
      (process_video env_low_bitrate
         (clips // "a.mp4", clips, clips_out, Some "1M", None, None, false)
         clips_world).1 = 0%nat
  ∧ ∃ fs,
      fs ∈ history
             (process_video env_low_bitrate
                (clips // "a.mp4", clips, clips_out, Some "1M", None, None,
                 false) clips_world).1
      ∧ fs !! (clips_out // "a.mp4")
        = Some {| st_size := 0; complete := false |}
      ∧ ¬ no_partial (clips_out // "a.mp4") fs.
Proof.
  apply (C1_copy_shortcut_writes_output_in_place env_low_bitrate
           (clips // "a.mp4") clips clips_out ["a.mp4"] "1M" None None false
           clips_world 400000 1048576 (mkFile 900 true));
    first [reflexivity | lia].
Defined.
(** ** Computations that keep an invariant of the disk *)

Lemma during_refl I w : during I w w.
Proof. exists []. by rewrite app_nil_r. Qed.

Lemma during_trans I w1 w2 w3 :
  during I w1 w2 -> during I w2 w3 -> during I w1 w3.
Proof.
  intros (n1 & H1 & F1) (n2 & H2 & F2). exists (n1 ++ n2).
  split; [by rewrite H2, H1, app_assoc | by apply Forall_app].
Qed.

Lemma during_written (I : gmap Path file -> Prop) f w :
  I (f (files w)) -> during I w (written f w).
Proof. intros H. exists [f (files w)]. split; [done | by constructor]. Qed.

Lemma safe_weaken {A} I (P P' : world -> Prop) (m : M world A)
    (Q Q' : world -> outcome A -> Prop) :
  safe I P' m Q' ->
  (∀ w, P w -> P' w) -> (∀ w r, Q' w r -> Q w r) ->
  safe I P m Q.
Proof.
  intros Hm HP HQ w HI Hw. destruct (Hm w HI (HP w Hw)) as (? & ? & ?).
  split_and!; [done | done | by apply HQ].
Qed.

Lemma safe_pure {A} I (P : world -> Prop) (m : M world A)
    (Q : world -> outcome A -> Prop) :
  pure m -> (∀ w, P w -> Q w (m w).2) -> safe I P m Q.
Proof.
  intros Hpure HQ w HI Hw. rewrite Hpure.
  split_and!; [apply during_refl | done | by apply HQ].
Qed.

Lemma safe_ret {A} I (P : world -> Prop) (a : A)
    (Q : world -> outcome A -> Prop) :
  (∀ w, P w -> Q w (Ret a)) -> safe I P (mret a) Q.
Proof. intros HQ. by apply safe_pure. Qed.

Lemma safe_raise {A} I (P : world -> Prop) (e : exn)
    (Q : world -> outcome A -> Prop) :
  (∀ w, P w -> Q w (Raise e)) -> safe I P (raise e) Q.
Proof. intros HQ. by apply safe_pure. Qed.

Lemma safe_bind {A B} I (P : world -> Prop) (m : M world A)
    (f : A -> M world B) (Qm : world -> outcome A -> Prop)
    (Q : world -> outcome B -> Prop) :
  safe I P m Qm ->
  (∀ a, safe I (fun w => Qm w (Ret a)) (f a) Q) ->
  (∀ w e, Qm w (Raise e) -> Q w (Raise e)) ->
  safe I P (m ≫= f) Q.
Proof.
  intros Hm Hf He w HI Hw. destruct (Hm w HI Hw) as (Hd & HI' & HQ).
  rewrite bind_run. destruct (m w) as [w' [a | e]]; cbn [fst snd] in *.
  - destruct (Hf a w' HI' HQ) as (Hd' & HI'' & HQ').
    split_and!; [by eapply during_trans | done | done].
  - split_and!; [done | done | by apply He].
Qed.

Lemma safe_try_except {A} I (P : world -> Prop) (body : M world A)
    (handler : exn -> M world A) (Qb : world -> outcome A -> Prop)
    (Q : world -> outcome A -> Prop) :
  safe I P body Qb ->
  (∀ e, safe I (fun w => Qb w (Raise e)) (handler e) Q) ->
  (∀ w a, Qb w (Ret a) -> Q w (Ret a)) ->
  safe I P (try_except body handler) Q.
Proof.
  intros Hb Hh Hr w HI Hw. destruct (Hb w HI Hw) as (Hd & HI' & HQ).
  unfold try_except. destruct (body w) as [w' [a | e]]; cbn [fst snd] in *.
  - split_and!; [done | done | by apply Hr].
  - destruct (Hh e w' HI' HQ) as (Hd' & HI'' & HQ').
    split_and!; [by eapply during_trans | done | done].
Qed.

Lemma safe_write I (P : world -> Prop) f (Q : world -> outcome unit -> Prop) :
  (∀ w, I (files w) -> P w -> I (f (files w)) ∧ Q (written f w) (Ret tt)) ->
  safe I P (write f) Q.
Proof.
  intros H w HI Hw. rewrite write_run. cbn [fst snd].
  destruct (H w HI Hw) as [HI' HQ].
  split_and!; [by apply during_written | done | done].
Qed.

(** ** Steps that are pure *)

Lemma pure_exists_ p : pure (exists_ p).
Proof. done. Qed.

Lemma pure_calc_save_space i o : pure (calc_save_space i o).
Proof.
  intros w. unfold calc_save_space, stat_st_size. unfold_M. cbn.
  destruct (files w !! i); [| done]. by destruct (files w !! o).
Qed.
(** ** Writes that keep the output whole *)

Lemma no_partial_delete out p m :
  no_partial out m -> no_partial out (delete p m).
Proof.
  unfold no_partial. destruct (decide (p = out)) as [-> | Hne].
  - by rewrite lookup_delete_eq.
  - by rewrite lookup_delete_ne.
Qed.

Lemma no_partial_insert_ne out p f m :
  p ≠ out -> no_partial out m -> no_partial out (<[p := f]> m).
Proof. intros Hne. unfold no_partial. by rewrite lookup_insert_ne. Qed.

Lemma no_partial_insert_complete out p f m :
  complete f = true -> no_partial out m -> no_partial out (<[p := f]> m).
Proof.
  intros Hf. unfold no_partial. destruct (decide (p = out)) as [-> | Hne].
  - by rewrite lookup_insert_eq.
  - by rewrite lookup_insert_ne.
Qed.

Lemma no_partial_insert_eq p f m :
  complete f = true -> no_partial p (<[p := f]> m).
Proof. intros Hf. unfold no_partial. by rewrite lookup_insert_eq. Qed.

(** Close a goal [no_partial p m] for a disk [m] built by the writes of
    a task. *)
Ltac keep_whole :=
  repeat first
    [ apply no_partial_insert_eq; done
    | apply no_partial_insert_ne; [done |]
    | apply no_partial_insert_complete; [done |]
    | apply no_partial_delete ];
  try done.

Lemma during_same_history I w w' : history w' = history w -> during I w w'.
Proof. intros H. exists []. by rewrite app_nil_r. Qed.

Lemma calc_save_space_inv input_file output_file w stats :
  (calc_save_space input_file output_file w).2 = Ret stats ->
  is_Some (files w !! input_file) ∧ is_Some (files w !! output_file).
Proof.
  unfold calc_save_space, stat_st_size. unfold_M. cbn.
  destruct (files w !! input_file); [| done].
  by destruct (files w !! output_file).
Qed.

(** A task that reports success has measured its input and its output. *)
Lemma safe_report_success I (P : world -> Prop) (input_file output_file : Path)
    (how : remark) :
  safe I P
    (stats ← calc_save_space input_file output_file; mret (success stats how))
    (fun w r => ∀ result : TaskResult, r = Ret result ->
       result.1 = true
       ∧ is_Some (files w !! input_file) ∧ is_Some (files w !! output_file)).
Proof.
  intros w HI _. rewrite bind_run.
  pose proof (pure_calc_save_space input_file output_file w) as Hpure.
  pose proof (calc_save_space_inv input_file output_file w) as Hinv.
  destruct (calc_save_space input_file output_file w) as [w' [stats | exc]];
    cbn in *; subst w'.
  - split_and!; [apply during_refl | done |].
    intros result [= <-]. split; [done |]. by eapply Hinv.
  - split_and!; [apply during_refl | done | done].
Qed.

(** ** The shell on plain lines *)

Lemma shell_substitutions_plain (e : env) (cmd : list string) (w : world) :
  shell_line_plain cmd = true -> shell_substitutions e cmd w = (w, Ret tt).
Proof. intros H. unfold shell_substitutions. by rewrite H. Qed.

Lemma shell_target_plain (e : env) (cmd : list string) (target : Path) :
  shell_line_plain cmd = true -> shell_target e cmd target = target.
Proof. intros H. unfold shell_target. by rewrite H. Qed.

(** Whatever the line, the shell returns, and launches nothing that is
    counted as a run of the encoder. *)
Lemma shell_substitutions_returns (e : env) (cmd : list string) (w : world) :
  (shell_substitutions e cmd w).2 = Ret tt
  ∧ encoder_runs (shell_substitutions e cmd w).1 = encoder_runs w.
Proof. unfold shell_substitutions. by destruct (shell_line_plain cmd). Qed.

Lemma shell_line_plain_app (a b : list string) :
  shell_line_plain (a ++ b) = shell_line_plain a && shell_line_plain b.
Proof. apply forallb_app. Qed.

Lemma shell_quoted_tail_snoc (s : string) :
  shell_quoted_tail (s +:+ String "034" EmptyString)
  = string_forall shell_quoted_char s.
Proof.
  induction s as [|c s IH]; [done |].
  rewrite append_cons. cbn [shell_quoted_tail string_forall].
  rewrite IH. destruct s as [|c' s]; [| by rewrite append_cons].
  cbn. by rewrite andb_true_r.
Qed.

Lemma shell_quoted_plain (s : string) :
  shell_word_plain (PyStr.quoted s) = string_forall shell_quoted_char s.
Proof. unfold PyStr.quoted. cbn. apply shell_quoted_tail_snoc. Qed.

Lemma parse_bitrate_indep {S T} (bitrate : option string) (s : S) (t : T) :
  (parse_bitrate bitrate s).2 = (parse_bitrate bitrate t).2.
Proof.
  unfold parse_bitrate, int.
  destruct (negb (truthy_str bitrate)); [done |].
  destruct (PyStr.endswith _ "k").
  { rewrite !bind_run. by destruct (PyStr.int _). }
  destruct (PyStr.endswith _ "m").
  { rewrite !bind_run. by destruct (PyStr.int _). }
  rewrite !bind_run. by destruct (PyStr.int _).
Qed.


(** ** The command line of a video task *)

Lemma hardware_command_returns (e : env) (cmd : list string)
    (hw_encoder : string) (hw_quality_param bitrate : option string)
    (crf : option Z) (preset : option string) (w : world) :
  encoder_runs
    (hardware_command e cmd hw_encoder hw_quality_param bitrate crf preset w).1
  = encoder_runs w.
Proof.
  unfold hardware_command. cbv zeta. rewrite bind_run.
  match goal with
  | |- context [shell_substitutions e ?c w] =>
      destruct (shell_substitutions_returns e c w) as [Hr Hruns];
      destruct (shell_substitutions e c w) as [w' r]
  end.
  cbn [fst snd] in *. subst r. by destruct (negb _).
Qed.

(** [prepare_ffmpeg_command] returns a command when the list of encoders
    was read (or is not asked for) and the bitrate can be parsed; it runs no
    encoder. *)
Lemma prepare_ffmpeg_command_returns (e : env) (video_path : Path)
    (ffmpeg_cmd : string) (bitrate : option string) (crf : option Z)
    (preset : option string) (use_software : bool)
    (original_bitrate : option Z) (w : world) :
  use_software = true ∨ hardware_encoder e ≠ None ->
  (∃ target, (parse_bitrate bitrate w).2 = Ret target) ->
  ∃ cmd,
    (prepare_ffmpeg_command e video_path ffmpeg_cmd bitrate crf preset
       use_software original_bitrate w).2 = Ret cmd
    ∧ encoder_runs
        (prepare_ffmpeg_command e video_path ffmpeg_cmd bitrate crf preset
           use_software original_bitrate w).1 = encoder_runs w.
Proof.
  intros Hhw [target Hparse].
  unfold prepare_ffmpeg_command. rewrite bind_run.
  match goal with
  | |- context [match ?m w with _ => _ end] =>
      assert (∃ w1 c, m w = (w1, Ret c) ∧ encoder_runs w1 = encoder_runs w)
        as (w1 & [cmd sw] & -> & Hruns)
  end.
  { destruct use_software; cbn [negb]; [by eexists _, _ |].
    unfold check_hardware_encoder.
    destruct Hhw as [[=] | Hhw].
    destruct (hardware_encoder e) as [[hw q] |]; [| done].
    destruct (truthy_str hw); [| by eexists _, _].
    unfold try_except. rewrite bind_run.
    pose proof (hardware_command_returns e
                  [ffmpeg_cmd; "-i"; PyStr.quoted (PyPath.str video_path)]
                  (default "" hw) q bitrate crf preset w) as Hhc.
    destruct (hardware_command _ _ _ _ _ _ _ w) as [w2 [c | exc]];
      cbn [fst] in Hhc; by eexists _, _. }
  cbv beta iota zeta. rewrite bind_run.
  destruct (truthy_int original_bitrate && truthy_str bitrate).
  - rewrite bind_run.
    pose proof (parse_bitrate_state bitrate w1) as Hps.
    pose proof (parse_bitrate_indep bitrate w1 w) as Hpi.
    destruct (parse_bitrate bitrate w1) as [w2 [t | exc]];
      cbn [fst snd] in Hps, Hpi; subst w2; [| congruence].
    rewrite ret_run. cbv beta iota.
    destruct (_ <=? _); [by eexists |].
    destruct (truthy_str bitrate); [by eexists |].
    destruct crf; by eexists.
  - rewrite ret_run. cbv beta iota.
    destruct (truthy_str bitrate); [by eexists |].
    destruct crf; by eexists.
Qed.

Lemma get_ffmpeg_command_plain (e : env) :
  shell_word_plain (get_ffmpeg_command e) = true.
Proof. unfold get_ffmpeg_command. by destruct (ffmpeg7_available e). Qed.

(** With names and options that leave the shell nothing to expand, and a
    bitrate given, [prepare_ffmpeg_command] leaves the disk as it is, and the
    line it builds is plain, the quoted temporary file included. *)
Lemma prepare_ffmpeg_command_safe (e : env) (video_path temp_file : Path)
    (ffmpeg_cmd : string) (bitrate : option string) (crf : option Z)
    (preset : option string) (use_software : bool)
    (original_bitrate : option Z) (w : world) :
  truthy_str bitrate = true ->
  shell_safe e video_path temp_file bitrate preset = true ->
  shell_word_plain ffmpeg_cmd = true ->
  (prepare_ffmpeg_command e video_path ffmpeg_cmd bitrate crf preset
     use_software original_bitrate w).1 = w
  ∧ ∀ cmd,
      (prepare_ffmpeg_command e video_path ffmpeg_cmd bitrate crf preset
         use_software original_bitrate w).2 = Ret cmd ->
      shell_line_plain (cmd ++ [PyStr.quoted (PyPath.str temp_file)]) = true.
Proof.
  intros Hb Hsafe Hff. unfold shell_safe in Hsafe.
  rewrite !andb_true_iff in Hsafe.
  destruct Hsafe as ((((Hvideo & Htemp) & Hbitrate) & Hpreset) & Hhw).
  assert (shell_line_plain
            [ffmpeg_cmd; "-i"; PyStr.quoted (PyPath.str video_path)] = true)
    as Hbase.
  { cbn [shell_line_plain forallb]. rewrite Hff, shell_quoted_plain, Hvideo.
    reflexivity. }
  assert (shell_line_plain [PyStr.quoted (PyPath.str temp_file)] = true)
    as Hlast.
  { cbn [shell_line_plain forallb]. by rewrite shell_quoted_plain, Htemp. }
  unfold prepare_ffmpeg_command. rewrite bind_run.
  match goal with
  | |- context [match ?m w with _ => _ end] =>
      assert ((∃ exc, m w = (w, Raise exc))
              ∨ (∃ c sw, m w = (w, Ret (c, sw)) ∧ shell_line_plain c = true))
        as [[exc ->] | (c & sw & -> & Hc)]
  end.
  { destruct use_software; cbn [negb]; [right; by eexists _, _ |].
    unfold check_hardware_encoder.
    destruct (hardware_encoder e) as [[hw q] |]; [| left; by eexists].
    destruct (truthy_str hw); [| right; by eexists _, _].
    right. unfold try_except. rewrite bind_run.
    unfold hardware_command. cbv zeta. rewrite Hb. cbn [negb andb].
    rewrite andb_false_r.
    match goal with
    | |- context [shell_substitutions e (?c ++ ["-f"; "null"; "-"])] =>
        assert (shell_line_plain c = true) as Hcmd;
        [| rewrite (bind_run (shell_substitutions e _)),
             (shell_substitutions_plain e (c ++ ["-f"; "null"; "-"]) w)
             by (by rewrite shell_line_plain_app, Hcmd)]
    end.
    { destruct (truthy_str preset);
        [destruct (String.eqb (default "" hw) "hevc_videotoolbox") |];
        rewrite ?shell_line_plain_app, ?Hbase;
        cbn [shell_line_plain forallb]; rewrite ?Hhw, ?Hpreset, ?Hbitrate;
        reflexivity. }
    cbv beta iota.
    destruct (negb (hardware_test_returncode e =? 0)); by eexists _, _. }
  { split; [done | by intros cmd [=]]. }
  cbv beta iota zeta. rewrite bind_run. rewrite Hb, andb_true_r.
  set (cmd1 := if sw then _ else c).
  assert (shell_line_plain cmd1 = true) as Hcmd1.
  { subst cmd1. destruct sw; [| done].
    destruct (truthy_str preset);
      rewrite ?shell_line_plain_app, ?Hc;
      cbn [shell_line_plain forallb]; rewrite ?Hpreset; reflexivity. }
  destruct (truthy_int original_bitrate).
  - rewrite bind_run.
    pose proof (parse_bitrate_state bitrate w) as Hps.
    destruct (parse_bitrate bitrate w) as [w2 [t | exc]];
      cbn [fst] in Hps; subst w2; [| split; [done | by intros cmd [=]]].
    rewrite ret_run. cbv beta iota.
    destruct (_ <=? _); (split; [done |]); intros cmd [= <-];
      rewrite ?shell_line_plain_app, Hcmd1, ?Hlast;
      cbn [shell_line_plain forallb]; rewrite ?Hbitrate; reflexivity.
  - rewrite ret_run. cbv beta iota. split; [done |]. intros cmd [= <-].
    rewrite ?shell_line_plain_app, Hcmd1, ?Hlast.
    cbn [shell_line_plain forallb]. rewrite ?Hbitrate. reflexivity.
Qed.

(** ** What a task writes *)

(** An invariant of the disk that the three kinds of write of a task
    keep: deleting the temporary file, writing the temporary file, and
    putting a whole file where there is none. *)
Section footprint.

Variable temp_file : Path.
Variable I : gmap Path file -> Prop.
Hypothesis I_delete_temp : ∀ m, I m -> I (delete temp_file m).
Hypothesis I_write_temp : ∀ f m, I m -> I (<[temp_file := f]> m).
Hypothesis I_publish :
  ∀ p f m, complete f = true -> m !! p = None -> I m -> I (<[p := f]> m).

Ltac keep_inv :=
  repeat first
    [ apply I_write_temp
    | apply I_delete_temp
    | apply I_publish; [done | by apply eq_None_not_Some |] ];
  try done.

Lemma safe_unlink_if_exists :
  safe I (fun _ => True) (unlink_if_exists temp_file)
    (fun w r => r = Ret tt ∧ files w !! temp_file = None).
Proof.
  intros w HI _. rewrite unlink_if_exists_run. cbn [fst snd].
  case_bool_decide as Hp.
  - split_and!; [| by apply I_delete_temp | done | apply lookup_delete_eq].
    by apply during_written, I_delete_temp.
  - split_and!; [apply during_refl | done | done |].
    by apply eq_None_not_Some.
Qed.

Lemma safe_unlink :
  safe I (fun _ => True) (unlink temp_file) (fun _ _ => True).
Proof.
  intros w HI _. unfold unlink. rewrite bind_run, get_run. cbv beta iota.
  destruct (files w !! temp_file).
  - rewrite write_run. cbn [fst snd].
    split_and!; [| by apply I_delete_temp | done].
    by apply during_written, I_delete_temp.
  - split_and!; [apply during_refl | done | done].
Qed.

(** The move publishes what is at the temporary file, a whole file, where
    there was none. *)
Lemma safe_shutil_move dst :
  safe I (fun w => no_partial temp_file (files w) ∧ files w !! dst = None)
    (shutil_move temp_file dst) (fun _ _ => True).
Proof.
  intros w HI [Htmp Hdst]. unfold shutil_move. rewrite bind_run, get_run.
  cbv beta iota. unfold no_partial in Htmp.
  destruct (files w !! temp_file) as [f |].
  - rewrite write_run. cbn [fst snd].
    assert (I (<[dst := f]> (delete temp_file (files w)))) as HI'.
    { apply I_publish; [done | | by apply I_delete_temp].
      apply lookup_delete_None. by right. }
    split_and!; [by apply during_written | done | done].
  - split_and!; [apply during_refl | done | done].
Qed.

(** The encoder writes its target only; what a rival publishes is whole
    and lands where there was nothing.  After exit code 0 the target is
    whole, if it is there. *)
Lemma safe_run_encoder e :
  safe I (fun w => files w !! temp_file = None) (run_encoder e temp_file)
    (fun w r => ∃ code, r = Ret code
                        ∧ (code = Some 0 -> no_partial temp_file (files w))).
Proof.
  intros w HI Htmp. unfold run_encoder, count_encoder_run, exists_, write.
  unfold_M.
  assert (no_partial temp_file (files w)) as Habsent
    by (unfold no_partial; by rewrite Htmp).
  destruct (encoder e) as [| returncode [size |]]; cbn.
  - split_and!; [by apply during_same_history | done | by eexists].
  - destruct (rival e) as [[published rsize] |]; cbn;
      [case_bool_decide as Hpub; cbn |].
    all: split_and!;
      [ eexists; split; [rewrite <-?app_assoc; reflexivity |];
        cbn [app]; repeat constructor; keep_inv
      | keep_inv
      | eexists; split; [done |]; intros [= ->]; keep_whole ].
  - destruct (rival e) as [[published rsize] |]; cbn;
      [case_bool_decide as Hpub; cbn |].
    + split_and!; [by apply during_same_history | done |].
      eexists. split; [done |]. by intros _.
    + split_and!;
        [ eexists; split; [reflexivity |]; repeat constructor; keep_inv
        | keep_inv
        | eexists; split; [done |]; intros _; keep_whole ].
    + split_and!; [by apply during_same_history | done |].
      eexists. split; [done |]. by intros _.
Qed.

Lemma safe_subprocess_run_check e :
  safe I (fun w => files w !! temp_file = None)
    (subprocess_run_check e temp_file)
    (fun w r => r = Ret tt -> no_partial temp_file (files w)).
Proof.
  unfold subprocess_run_check.
  eapply safe_bind; [by apply safe_run_encoder | |].
  - intros [returncode |]; cbv beta iota.
    + destruct (returncode =? 0) eqn:Hrc.
      * apply safe_ret. intros w (code & [= <-] & Hw) _. apply Hw.
        f_equal. by apply Z.eqb_eq.
      * apply safe_raise. by intros.
    + apply safe_raise. by intros.
  - by intros w exc (code & [=] & _).
Qed.

(** The second existence check and what follows it: the temporary file is
    deleted, or moved to an output that is not there. *)
Lemma safe_publish (input_file output_path : Path) (taken : remark) :
  safe I (fun w => no_partial temp_file (files w))
    (present ← exists_ output_path;
     if present : bool then
       unlink temp_file;;
       stats ← calc_save_space input_file output_path;
       mret (success stats taken)
     else
       shutil_move temp_file output_path;;
       stats ← calc_save_space input_file output_path;
       mret (success stats Done))
    (fun w r => ∀ result : TaskResult, r = Ret result ->
       result.1 = true
       ∧ is_Some (files w !! input_file)
       ∧ is_Some (files w !! output_path)).
Proof.
  eapply safe_bind with
    (Qm := fun w r => no_partial temp_file (files w)
                      ∧ r = Ret (bool_decide (is_Some (files w !! output_path))));
    [| | done].
  { apply safe_pure; [apply pure_exists_ |]. intros w Hw.
    by rewrite exists__run. }
  intros [|].
  - eapply safe_bind with (Qm := fun _ _ => True); [| | done].
    { eapply safe_weaken; [apply safe_unlink | done | done]. }
    intros []. apply safe_report_success.
  - eapply safe_bind with (Qm := fun _ _ => True); [| | done].
    { eapply safe_weaken; [apply (safe_shutil_move output_path) | | done].
      intros w [Htmp [= Hout]]. split; [done |].
      symmetry in Hout. apply bool_decide_eq_false in Hout.
      by apply eq_None_not_Some. }
    intros []. apply safe_report_success.
Qed.

(** The handlers of a task: the temporary file is removed, and a failure
    is reported. *)
Lemma safe_give_up (P : world -> Prop) (m : Message) :
  safe I P (unlink_if_exists temp_file;; mret (failure m))
    (fun w r => ∀ result : TaskResult, r = Ret result ->
       result.1 = false ∧ files w !! temp_file = None).
Proof.
  eapply safe_bind;
    [ eapply safe_weaken;
      [apply safe_unlink_if_exists | done | intros w r H; exact H] | |].
  - intros []. apply safe_ret. by intros w [_ Hw] result [= <-].
  - by intros w exc [[=] _].
Qed.

(** The steps of an image task once its paths are known.  The encoder
    writes the temporary file, and the output appears by one rename.  A task
    that reports a failure leaves no temporary file; when it reports success,
    the input and the output are there. *)
Lemma safe_convert_image (e : env) (img_path rel output_path : Path) :
  safe I (fun _ => True)
    (convert_image e img_path rel output_path temp_file)
    (fun w r => ∀ result : TaskResult, r = Ret result ->
       (result.1 = false -> files w !! temp_file = None)
       ∧ (result.1 = true ->
          is_Some (files w !! img_path) ∧ is_Some (files w !! output_path))).
Proof.
  unfold convert_image.
  eapply safe_bind with (Qm := fun _ _ => True); [| | done].
  { by apply safe_pure; [apply pure_exists_ |]. }
  intros [|].
  - eapply safe_weaken;
      [apply (safe_report_success I (fun _ => True)) | done |].
    intros w r Hr result ->. destruct (Hr result eq_refl) as (Hs & Hthere).
    split; [by rewrite Hs | done].
  - eapply safe_bind;
      [ eapply safe_weaken;
        [apply safe_unlink_if_exists | done | intros w r H; exact H] | |].
    2: { by intros w exc [[=] _]. }
    intros [].
    apply safe_try_except with
      (Qb := fun w r => ∀ result : TaskResult, r = Ret result ->
               result.1 = true
               ∧ is_Some (files w !! img_path)
               ∧ is_Some (files w !! output_path)).
    + eapply safe_bind;
        [ eapply safe_weaken;
          [ apply safe_subprocess_run_check
          | intros w [_ Hw]; exact Hw | intros w r H; exact H ] | | done ].
      intros [].
      eapply safe_weaken;
        [apply safe_publish | intros w Hw; by apply Hw | done].
    + intros exc.
      destruct exc;
        (eapply safe_weaken;
           [apply (safe_give_up (fun _ => True)) | done |];
         intros w r Hr result ->; destruct (Hr result eq_refl) as [Hs Hgone];
         split; [done | by rewrite Hs]).
    + intros w result Hr result' [= <-].
      destruct (Hr result eq_refl) as (Hs & Hthere).
      split; [by rewrite Hs | done].
Qed.

(** On a plain line, [execute_ffmpeg] returns only after exit code 0,
    with a whole temporary file. *)
Lemma safe_execute_ffmpeg e cmd :
  shell_line_plain cmd = true ->
  safe I (fun w => files w !! temp_file = None)
    (execute_ffmpeg e cmd temp_file)
    (fun w r => r = Ret tt -> no_partial temp_file (files w)).
Proof.
  intros Hplain. unfold execute_ffmpeg.
  rewrite (shell_target_plain e cmd temp_file Hplain).
  eapply safe_bind with
    (Qm := fun w r => files w !! temp_file = None ∧ r = Ret tt);
    [| | by intros w exc [_ [=]]].
  { apply safe_pure.
    - intros w. by rewrite shell_substitutions_plain.
    - intros w Hw. by rewrite shell_substitutions_plain. }
  intros [].
  eapply safe_bind;
    [ eapply safe_weaken;
      [ apply safe_run_encoder | intros w [Hw _]; exact Hw
      | intros w r H; exact H ] | |].
  - intros r. cbv zeta. destruct (negb (default 127 r =? 0)) eqn:Hrc.
    + apply safe_raise. by intros.
    + eapply safe_bind with
        (Qm := fun w _ => no_partial temp_file (files w)); [| | done].
      * apply safe_pure; [apply pure_exists_ |].
        intros w (code & [= <-] & Hw). apply Hw.
        apply negb_false_iff, Z.eqb_eq in Hrc.
        destruct r as [returncode |]; cbn in Hrc; by subst.
      * intros []; [apply safe_ret | apply safe_raise]; by intros.
  - by intros w exc (code & [=] & _).
Qed.

Lemma safe_handle_result video_path output_path rel :
  safe I (fun w => no_partial temp_file (files w))
    (handle_result video_path output_path temp_file rel)
    (fun w r => ∀ result : TaskResult, r = Ret result ->
       result.1 = true
       ∧ is_Some (files w !! video_path)
       ∧ is_Some (files w !! output_path)).
Proof. apply safe_publish. Qed.

(** The steps of a video task on the path with the encoder, once its
    paths are known and a stale temporary file is removed, when the names and
    the options leave the shell nothing to expand. *)
Lemma safe_encode_video (e : env) (video_path rel output_path : Path)
    (bitrate : option string) (crf : option Z) (preset : option string)
    (use_software : bool) :
  truthy_str bitrate = true ->
  shell_safe e video_path temp_file bitrate preset = true ->
  safe I (fun w => files w !! temp_file = None)
    (encode_video e video_path rel output_path temp_file bitrate crf preset
       use_software)
    (fun w r => ∀ result : TaskResult, r = Ret result ->
       (result.1 = false -> files w !! temp_file = None)
       ∧ (result.1 = true ->
          is_Some (files w !! video_path)
          ∧ is_Some (files w !! output_path))).
Proof.
  intros Hbitrate Hsafe. unfold encode_video.
  eapply safe_bind with
    (Qm := fun w r => files w !! temp_file = None); [| | done].
  { by apply safe_pure; [apply pure_exists_ |]. }
  intros [|].
  - eapply safe_weaken;
      [apply (safe_report_success I (fun _ => True)) | done |].
    intros w r Hr result ->. destruct (Hr result eq_refl) as (Hs & Hthere).
    split; [by rewrite Hs | done].
  - cbv zeta.
    eapply safe_bind with
      (Qm := fun w r =>
         files w !! temp_file = None
         ∧ ∀ cmd, r = Ret cmd ->
             shell_line_plain (cmd ++ [PyStr.quoted (PyPath.str temp_file)])
             = true); [| | done].
    { apply safe_pure.
      - intros w.
        by apply (prepare_ffmpeg_command_safe e video_path temp_file),
          get_ffmpeg_command_plain.
      - intros w Hw. split; [done |].
        by apply (prepare_ffmpeg_command_safe e video_path temp_file),
          get_ffmpeg_command_plain. }
    intros cmd.
    apply safe_try_except with
      (Qb := fun w r => ∀ result : TaskResult, r = Ret result ->
               result.1 = true
               ∧ is_Some (files w !! video_path)
               ∧ is_Some (files w !! output_path)).
    + eapply safe_bind with
        (Qm := fun w r => r = Ret tt -> no_partial temp_file (files w));
        [| | done].
      { intros w HI [Hw Hplain].
        by apply (safe_execute_ffmpeg e _ (Hplain cmd eq_refl) w HI Hw). }
      intros [].
      eapply safe_weaken;
        [apply safe_handle_result | intros w Hw; by apply Hw | done].
    + intros exc.
      destruct exc;
        (eapply safe_weaken;
           [apply (safe_give_up (fun _ => True)) | done |];
         intros w r Hr result ->; destruct (Hr result eq_refl) as [Hs Hgone];
         split; [done | by rewrite Hs]).
    + intros w result Hr result' [= <-].
      destruct (Hr result eq_refl) as (Hs & Hthere).
      split; [by rewrite Hs | done].
Qed.

End footprint.

(** ** The invariants of a task *)

Lemma kept_delete (p q : Path) (f : file) (m : gmap Path file) :
  p ≠ q -> m !! p = Some f -> delete q m !! p = Some f.
Proof. intros Hne Hp. by rewrite lookup_delete_ne. Qed.

Lemma kept_insert (p q : Path) (f g : file) (m : gmap Path file) :
  p ≠ q -> m !! p = Some f -> <[q := g]> m !! p = Some f.
Proof. intros Hne Hp. by rewrite lookup_insert_ne. Qed.

Lemma kept_publish (p q : Path) (f g : file) (m : gmap Path file) :
  m !! q = None -> m !! p = Some f -> <[q := g]> m !! p = Some f.
Proof. intros Hq Hp. rewrite lookup_insert_ne; [done | congruence]. Qed.

(** ** img2webp.py: what a task does to the disk *)

Lemma image_paths (img_path input_base output_base output_path : Path) :
  image_output_path img_path input_base output_base = Some output_path ->
  ∃ rel,
    PyPath.relative_to img_path input_base = Some rel
    ∧ output_path
      = (output_base ++ PyPath.parent rel) // (PyPath.stem img_path +:+ ".webp")
    ∧ image_temp_file img_path input_base output_base
      = Some ((output_base ++ PyPath.parent rel)
                // (PyPath.stem img_path +:+ ".webp.tmp")).
Proof.
  unfold image_output_path, image_temp_file.
  destruct (PyPath.relative_to img_path input_base) as [rel |]; [| done].
  cbn [mbind option_bind]. intros [= <-]. by exists rel.
Qed.

Lemma convert_image_existing (e : env)
    (img_path rel output_path temp_file : Path) (w : world)
    (original existing : file) :
  files w !! img_path = Some original ->
  files w !! output_path = Some existing ->
  convert_image e img_path rel output_path temp_file w
  = (w, Ret (success
               (stats_for img_path (st_size original) (st_size existing))
               AlreadyExists)).
Proof.
  intros Himg Hout.
  unfold convert_image. rewrite bind_run, exists__run, Hout. cbv beta iota.
  rewrite bool_decide_eq_true_2 by eauto.
  by rewrite bind_run, (calc_save_space_run _ _ _ original existing).
Qed.

Lemma process_image_without_rel e img_path input_base output_base quality w :
  PyPath.relative_to img_path input_base = None ->
  process_image e (img_path, input_base, output_base, quality) w
  = (w, Raise ValueError).
Proof.
  intros Hrel. unfold process_image. rewrite bind_run.
  unfold relative_to. by rewrite Hrel.
Qed.

(** Nothing leaves the [try] of [process_image]: its handlers do not
    raise. *)
Lemma convert_image_returns (e : env)
    (img_path rel output_path temp_file : Path) (w : world) :
  is_Some (files w !! img_path) ->
  ∃ result : TaskResult,
    (convert_image e img_path rel output_path temp_file w).2 = Ret result.
Proof.
  intros [original Himg]. unfold convert_image.
  rewrite bind_run, exists__run. cbv beta iota.
  case_bool_decide as Hout.
  - destruct Hout as [existing Hout].
    rewrite bind_run, (calc_save_space_run _ _ _ original existing) by done.
    by eexists.
  - rewrite bind_run, unlink_if_exists_run. cbv beta iota.
    unfold try_except.
    match goal with
    | |- context [match ?body ?s with _ => _ end] =>
        destruct (body s) as [w2 [result | exc]]
    end; [by eexists |].
    destruct exc; rewrite bind_run, unlink_if_exists_run; by eexists.
Qed.

(** X1, the part of C1 that holds for images.  The encoded conversion of
    an image keeps the no-partial-write invariant.  When [process_image]
    starts on a disk whose [output_path] holds no partial file, then in every
    state the disk passes through during the task (the states a kill of the
    worker can leave), and in the state at its end, [output_path] is absent
    or holds a whole file, whatever the encoder does and whatever a
    concurrent worker publishes. *)
Theorem process_image_output_never_partial (e : env)
    (img_path input_base output_base output_path : Path) (quality : Z)
    (w : world) :
  image_output_path img_path input_base output_base = Some output_path ->
  no_partial output_path (files w) ->
  let r := process_image e (img_path, input_base, output_base, quality) w in
  (∃ new, history r.1 = history w ++ new
          ∧ Forall (no_partial output_path) new)
  ∧ no_partial output_path (files r.1).
Proof.
  intros Hpath Hwhole.
  destruct (image_paths _ _ _ _ Hpath) as (rel & Hrel & -> & _).
  cbv zeta. rewrite (process_image_unfold _ _ _ _ _ rel) by done.
  set (output_path :=
         (output_base ++ PyPath.parent rel)
           // (PyPath.stem img_path +:+ ".webp")) in *.
  set (temp_file :=
         (output_base ++ PyPath.parent rel)
           // (PyPath.stem img_path +:+ ".webp.tmp")).
  destruct (safe_convert_image temp_file (no_partial output_path)
              (fun m => no_partial_delete output_path temp_file m)
              (fun f m => no_partial_insert_ne output_path temp_file f m
                            (image_temp_ne_output _ _))
              (fun p f m Hf _ => no_partial_insert_complete output_path p f m Hf)
              e img_path rel output_path w Hwhole I)
    as (Hduring & Hend & _).
  by split.
Qed.

(** At [b.jpg] of the picture tree, with an encoder that leaves a broken
    file. *)
Lemma process_image_output_never_partial_witness :
  let r := process_image env_broken (pics // "b.jpg", pics, pics_out, 85)
             pics_world in
  (∃ new, history r.1 = history pics_world ++ new
          ∧ Forall (no_partial (pics_out // "b.webp")) new)
  ∧ no_partial (pics_out // "b.webp") (files r.1).
Proof.
  apply (process_image_output_never_partial env_broken (pics // "b.jpg") pics
           pics_out (pics_out // "b.webp") 85 pics_world).
  - reflexivity.
  - vm_compute. exact I.
Defined.

(** X2, the image half of C3.  A task whose input file is there returns a
    result, whatever the encoder does: no exception leaves [process_image].
    When the result is a failure, no temporary file is left. *)
Theorem process_image_returns_a_result (e : env)
    (img_path input_base output_base temp_file : Path) (quality : Z)
    (w : world) :
  image_temp_file img_path input_base output_base = Some temp_file ->
  is_Some (files w !! img_path) ->
  let r := process_image e (img_path, input_base, output_base, quality) w in
  ∃ result : TaskResult,
    r.2 = Ret result ∧ (result.1 = false -> files r.1 !! temp_file = None).
Proof.
  unfold image_temp_file.
  destruct (PyPath.relative_to img_path input_base) as [rel |] eqn:Hrel;
    [| done].
  cbn [mbind option_bind]. intros [= <-] Himg.
  cbv zeta. rewrite (process_image_unfold _ _ _ _ _ rel) by done.
  destruct (convert_image_returns e img_path rel
              ((output_base ++ PyPath.parent rel)
                 // (PyPath.stem img_path +:+ ".webp"))
              ((output_base ++ PyPath.parent rel)
                 // (PyPath.stem img_path +:+ ".webp.tmp")) w Himg)
    as [result Hr].
  destruct (safe_convert_image
              ((output_base ++ PyPath.parent rel)
                 // (PyPath.stem img_path +:+ ".webp.tmp"))
              (fun _ => True)
              (fun _ _ => I) (fun _ _ _ => I) (fun _ _ _ _ _ _ => I)
              e img_path rel
              ((output_base ++ PyPath.parent rel)
                 // (PyPath.stem img_path +:+ ".webp")) w I I)
    as (_ & _ & Hq).
  exists result. split; [done |]. by apply (Hq result Hr).
Qed.

(** At [b.jpg] of the picture tree, with an encoder that fails. *)
Lemma process_image_returns_a_result_witness :
  let r := process_image env_broken (pics // "b.jpg", pics, pics_out, 85)
             pics_world in
  ∃ result : TaskResult,
    r.2 = Ret result
    ∧ (result.1 = false -> files r.1 !! (pics_out // "b.webp.tmp") = None).
Proof.
  apply (process_image_returns_a_result env_broken (pics // "b.jpg") pics
           pics_out (pics_out // "b.webp.tmp") 85 pics_world).
  - reflexivity.
  - eexists. reflexivity.
Defined.

(** X3, the image half of C2, for one task.  When the output is there, the
    task reports success with the sizes of the input and of that output, and
    changes nothing: the disk is as before and the encoder was not run. *)
Theorem process_image_skips_existing_output (e : env)
    (img_path input_base output_base output_path : Path) (quality : Z)
    (w : world) (original existing : file) :
  image_output_path img_path input_base output_base = Some output_path ->
  files w !! img_path = Some original ->
  files w !! output_path = Some existing ->
  process_image e (img_path, input_base, output_base, quality) w
  = (w, Ret (success
               (stats_for img_path (st_size original) (st_size existing))
               AlreadyExists)).
Proof.
  intros Hpath Himg Hout.
  destruct (image_paths _ _ _ _ Hpath) as (rel & Hrel & -> & _).
  rewrite (process_image_unfold _ _ _ _ _ rel) by done.
  by apply convert_image_existing.
Qed.

(** [b.jpg] of the picture tree when its output exists, with an encoder
    that would fail. *)
Lemma process_image_skips_existing_output_witness :
  process_image env_broken (pics // "b.jpg", pics, pics_out, 85)
    pics_world_done
  = (pics_world_done,
     Ret (success (stats_for (pics // "b.jpg") 100 60) AlreadyExists)).
Proof.
  apply (process_image_skips_existing_output env_broken (pics // "b.jpg") pics
           pics_out (pics_out // "b.webp") 85 pics_world_done
           (mkFile 100 true) (mkFile 60 true));
    reflexivity.
Defined.

(** X4, the image half of C2, for two runs.  After a task that reported
    success, the same task run again (with any encoder) reports that the
    output exists, and leaves the disk and the count of encoder runs as they
    were. *)
Theorem process_image_second_run_skips (e e' : env)
    (img_path input_base output_base : Path) (quality : Z) (w : world)
    (result : TaskResult) :
  let first := process_image e (img_path, input_base, output_base, quality) w in
  first.2 = Ret result -> result.1 = true ->
  ∃ stats,
    process_image e' (img_path, input_base, output_base, quality) first.1
    = (first.1, Ret (success stats AlreadyExists)).
Proof.
  intros first Hret Hok. subst first.
  destruct (PyPath.relative_to img_path input_base) as [rel |] eqn:Hrel.
  - destruct (safe_convert_image
                ((output_base ++ PyPath.parent rel)
                   // (PyPath.stem img_path +:+ ".webp.tmp"))
                (fun _ => True)
                (fun _ _ => I) (fun _ _ _ => I) (fun _ _ _ _ _ _ => I)
                e img_path rel
                ((output_base ++ PyPath.parent rel)
                   // (PyPath.stem img_path +:+ ".webp")) w I I)
      as (_ & _ & Hq).
    rewrite <-(process_image_unfold _ _ input_base output_base quality)
      in Hq by done.
    destruct (Hq result Hret) as [_ Hthere].
    destruct (Hthere Hok) as [[original Ho] [existing Hx]].
    eexists. rewrite (process_image_unfold _ _ _ _ _ rel) by done.
    by apply convert_image_existing.
  - by rewrite process_image_without_rel in Hret.
Qed.

(** [b.jpg] of the picture tree, converted and then run again with an
    encoder that fails. *)
Lemma process_image_second_run_skips_witness :
  ∃ stats,
    process_image env_broken (pics // "b.jpg", pics, pics_out, 85)
      (process_image (env_ok 60) (pics // "b.jpg", pics, pics_out, 85)
         pics_world).1
    = ((process_image (env_ok 60) (pics // "b.jpg", pics, pics_out, 85)
          pics_world).1,
       Ret (success stats AlreadyExists)).
Proof.
  apply (process_image_second_run_skips (env_ok 60) env_broken
           (pics // "b.jpg") pics pics_out 85 pics_world
           (success (stats_for (pics // "b.jpg") 100 60) Done)).
  - vm_compute. reflexivity.
  - reflexivity.
Defined.

(** X7.  A task of [img2webp.py] changes no file that is there when it
    starts, but for its own temporary file: in every state the disk passes
    through, and at the end, such a file is there with the size and the
    content it had.  This holds for the input image, which is never the
    temporary file, and for an output that exists. *)
Theorem process_image_keeps_other_files (e : env)
    (img_path input_base output_base : Path) (quality : Z) (w : world)
    (p : Path) (f : file) :
  files w !! p = Some f ->
  p = img_path ∨ image_temp_file img_path input_base output_base ≠ Some p ->
  let r := process_image e (img_path, input_base, output_base, quality) w in
  (∃ new, history r.1 = history w ++ new
          ∧ Forall (fun m => m !! p = Some f) new)
  ∧ files r.1 !! p = Some f.
Proof.
  intros Hp Hnot. cbv zeta.
  destruct (PyPath.relative_to img_path input_base) as [rel |] eqn:Hrel.
  - rewrite (process_image_unfold _ _ _ _ _ rel) by done.
    assert (p ≠ (output_base ++ PyPath.parent rel)
                  // (PyPath.stem img_path +:+ ".webp.tmp")) as Hne.
    { destruct Hnot as [-> | Hnot].
      - intros Heq. by apply (image_temp_ne_input
                                (output_base ++ PyPath.parent rel) img_path).
      - intros ->. apply Hnot. unfold image_temp_file. by rewrite Hrel. }
    set (temp_file :=
           (output_base ++ PyPath.parent rel)
             // (PyPath.stem img_path +:+ ".webp.tmp")) in *.
    destruct (safe_convert_image temp_file (fun m => m !! p = Some f)
                (fun m => kept_delete p temp_file f m Hne)
                (fun g m => kept_insert p temp_file f g m Hne)
                (fun q g m _ Hq => kept_publish p q f g m Hq)
                e img_path rel
                ((output_base ++ PyPath.parent rel)
                   // (PyPath.stem img_path +:+ ".webp")) w Hp I)
      as (Hduring & Hend & _).
    by split.
  - rewrite process_image_without_rel by done. cbn [fst snd].
    split; [| done]. exists []. by rewrite app_nil_r.
Qed.

(** The image [b.jpg] of the picture tree is as before after its task. *)
Lemma process_image_keeps_other_files_witness :
  let r := process_image (env_ok 60) (pics // "b.jpg", pics, pics_out, 85)
             pics_world in
  (∃ new, history r.1 = history pics_world ++ new
          ∧ Forall (fun m => m !! (pics // "b.jpg") = Some (mkFile 100 true))
              new)
  ∧ files r.1 !! (pics // "b.jpg") = Some (mkFile 100 true).
Proof.
  apply (process_image_keeps_other_files (env_ok 60) (pics // "b.jpg") pics
           pics_out 85 pics_world (pics // "b.jpg") (mkFile 100 true)).
  - reflexivity.
  - by left.
Defined.

(** ** video_compress.py: what a task does to the disk *)

Lemma get_output_path_run (video_path input_base output_base rel : Path)
    (w : world) :
  PyPath.relative_to video_path input_base = Some rel ->
  let output_dir := output_base ++ PyPath.parent rel in
  let output_path :=
    output_dir // (PyPath.stem video_path +:+ PyPath.suffix video_path) in
  let temp_file :=
    output_dir
      // (PyPath.stem video_path +:+ ".tmp." +:+ PyPath.suffix video_path) in
  get_output_path video_path input_base output_base w
  = ((unlink_if_exists temp_file w).1, Ret (rel, output_path, temp_file)).
Proof.
  intros Hrel. cbv zeta. unfold get_output_path.
  rewrite !bind_run, (relative_to_run _ _ rel) by done. cbv beta iota.
  unfold mkdir. rewrite !bind_run, ret_run. cbv beta iota.
  rewrite bind_run, unlink_if_exists_run. cbv beta iota.
  by rewrite ret_run.
Qed.

Lemma get_output_path_without_rel (video_path input_base output_base : Path)
    (w : world) :
  PyPath.relative_to video_path input_base = None ->
  get_output_path video_path input_base output_base w = (w, Raise ValueError).
Proof.
  intros Hrel. unfold get_output_path. rewrite bind_run.
  unfold relative_to. by rewrite Hrel.
Qed.

(** [process_video] raises before it touches the disk, or goes on to the
    copy or to the encoder, after the removal of a stale temporary file. *)
Lemma process_video_cases (e : env)
    (video_path input_base output_base : Path) (bitrate : option string)
    (crf : option Z) (preset : option string) (use_software : bool)
    (w : world) :
  (∃ exc,
     process_video e
       (video_path, input_base, output_base, bitrate, crf, preset,
        use_software) w = (w, Raise exc))
  ∨ (∃ rel,
       PyPath.relative_to video_path input_base = Some rel
       ∧ truthy_str bitrate = true
       ∧ let output_path :=
           (output_base ++ PyPath.parent rel)
             // (PyPath.stem video_path +:+ PyPath.suffix video_path) in
         let temp_file :=
           (output_base ++ PyPath.parent rel)
             // (PyPath.stem video_path +:+ ".tmp."
                 +:+ PyPath.suffix video_path) in
         process_video e
           (video_path, input_base, output_base, bitrate, crf, preset,
            use_software) w
         = copy_video video_path output_path (unlink_if_exists temp_file w).1
         ∨ process_video e
             (video_path, input_base, output_base, bitrate, crf, preset,
              use_software) w
           = encode_video e video_path rel output_path temp_file bitrate crf
               preset use_software (unlink_if_exists temp_file w).1).
Proof.
  unfold process_video. rewrite bind_run.
  destruct (truthy_str bitrate) eqn:Htruthy.
  2: { rewrite ret_run. cbv beta iota. rewrite bind_run. left.
       destruct (get_video_bitrate e video_path) as [probe |] eqn:Hprobe;
         [| by eexists].
       destruct (format_size_run probe w) as [text1 ->]. by eexists. }
  pose proof (parse_bitrate_state bitrate w) as Hstate.
  destruct (parse_bitrate bitrate w)
    as [w' [target | exc]]; cbn [fst] in Hstate; subst w'; [| by left; eexists].
  rewrite bind_run.
  destruct (get_video_bitrate e video_path) as [probe |] eqn:Hprobe;
    [| by left; eexists].
  destruct (format_size_run probe w) as [text1 ->]. cbv beta iota.
  rewrite bind_run.
  destruct target as [target |]; [| by left; eexists].
  destruct (format_size_run target w) as [text2 ->]. cbv beta iota.
  destruct (PyPath.relative_to video_path input_base) as [rel |] eqn:Hrel.
  - right. exists rel. split; [done |]. split; [done |]. cbv zeta.
    destruct (truthy_int (Some probe) && truthy_int (Some target)
              && (default 0 (Some probe) <=? default 0 (Some target))).
    + left. rewrite bind_run, (get_output_path_run _ _ _ rel) by done.
      by cbv beta iota zeta.
    + right. rewrite bind_run, (get_output_path_run _ _ _ rel) by done.
      cbv beta iota zeta. unfold encode_video. by rewrite Hprobe.
  - left.
    destruct (truthy_int (Some probe) && truthy_int (Some target)
              && (default 0 (Some probe) <=? default 0 (Some target)));
      rewrite bind_run, get_output_path_without_rel by done; by eexists.
Qed.

(** The steps of [process_video] up to its choice between the copy and
    the encoder, when both bitrates are known. *)
Lemma process_video_unfold (e : env)
    (video_path input_base output_base rel : Path) (bitrate : string)
    (crf : option Z) (preset : option string) (use_software : bool)
    (w : world) (probe target : Z) :
  PyPath.relative_to video_path input_base = Some rel ->
  bitrate_probe e = Some probe ->
  (parse_bitrate (Some bitrate) w).2 = Ret (Some target) ->
  let output_dir := output_base ++ PyPath.parent rel in
  let output_path :=
    output_dir // (PyPath.stem video_path +:+ PyPath.suffix video_path) in
  let temp_file :=
    output_dir
      // (PyPath.stem video_path +:+ ".tmp." +:+ PyPath.suffix video_path) in
  process_video e
    (video_path, input_base, output_base, Some bitrate, crf, preset,
     use_software) w
  = if negb (probe =? 0) && negb (target =? 0) && (probe <=? target) then
      copy_video video_path output_path (unlink_if_exists temp_file w).1
    else
      encode_video e video_path rel output_path temp_file (Some bitrate) crf
        preset use_software (unlink_if_exists temp_file w).1.
Proof.
  intros Hrel Hprobe Hparse. cbv zeta.
  unfold process_video, get_video_bitrate. rewrite Hprobe.
  assert (truthy_str (Some bitrate) = true) as Htruthy.
  { destruct (truthy_str (Some bitrate)) eqn:Ht; [done |].
    unfold parse_bitrate in Hparse. by rewrite Ht in Hparse. }
  rewrite Htruthy, bind_run.
  pose proof (parse_bitrate_state (Some bitrate) w) as Hstate.
  destruct (parse_bitrate (Some bitrate) w) as [w' [t | exc]];
    cbn in Hstate, Hparse; subst w'; [| done].
  injection Hparse as ->.
  rewrite bind_run. destruct (format_size_run probe w) as [text1 ->].
  cbv beta iota. rewrite bind_run.
  destruct (format_size_run target w) as [text2 ->]. cbv beta iota.
  cbn [truthy_int default from_option id].
  destruct (negb (probe =? 0) && negb (target =? 0) && (probe <=? target)).
  - rewrite bind_run, (get_output_path_run _ _ _ rel) by done.
    by cbv beta iota zeta.
  - rewrite bind_run, (get_output_path_run _ _ _ rel) by done.
    cbv beta iota zeta. unfold encode_video, get_video_bitrate.
    by rewrite Hprobe.
Qed.

Lemma video_paths (video_path input_base output_base output_path : Path) :
  video_output_path video_path input_base output_base = Some output_path ->
  ∃ rel,
    PyPath.relative_to video_path input_base = Some rel
    ∧ output_path
      = (output_base ++ PyPath.parent rel)
          // (PyPath.stem video_path +:+ PyPath.suffix video_path)
    ∧ video_temp_file video_path input_base output_base
      = Some ((output_base ++ PyPath.parent rel)
                // (PyPath.stem video_path +:+ ".tmp."
                    +:+ PyPath.suffix video_path)).
Proof.
  unfold video_output_path, video_temp_file.
  destruct (PyPath.relative_to video_path input_base) as [rel |]; [| done].
  cbn [mbind option_bind]. intros [= <-]. by exists rel.
Qed.

(** X5, the part of C2 that holds for videos.  When the target bitrate is
    given and the source bitrate was read, a task whose output is there
    reports success with the sizes of the input and of that output, on the
    copy path as on the encoder path.  The encoder is not run, and the disk
    is as before but for a stale temporary file of the task, which is
    removed. *)
Theorem process_video_skips_existing_output (e : env)
    (video_path input_base output_base output_path temp_file : Path)
    (bitrate : string) (crf : option Z) (preset : option string)
    (use_software : bool) (w : world) (probe target : Z)
    (original existing : file) :
  video_output_path video_path input_base output_base = Some output_path ->
  video_temp_file video_path input_base output_base = Some temp_file ->
  bitrate_probe e = Some probe ->
  (parse_bitrate (Some bitrate) w).2 = Ret (Some target) ->
  files w !! video_path = Some original ->
  files w !! output_path = Some existing ->
  let r :=
    process_video e
      (video_path, input_base, output_base, Some bitrate, crf, preset,
       use_software) w in
  r.2 = Ret (success
               (stats_for video_path (st_size original) (st_size existing))
               AlreadyExists)
  ∧ files r.1 = delete temp_file (files w)
  ∧ encoder_runs r.1 = encoder_runs w.
Proof.
  intros Hpath Htemp Hprobe Hparse Hvideo Hout.
  destruct (video_paths _ _ _ _ Hpath) as (rel & Hrel & -> & Htemp').
  rewrite Htemp' in Htemp. injection Htemp as <-.
  cbv zeta. rewrite (process_video_unfold _ _ _ _ rel _ _ _ _ _ probe target)
    by done.
  set (output_path :=
         (output_base ++ PyPath.parent rel)
           // (PyPath.stem video_path +:+ PyPath.suffix video_path)) in *.
  set (temp_file :=
         (output_base ++ PyPath.parent rel)
           // (PyPath.stem video_path +:+ ".tmp."
               +:+ PyPath.suffix video_path)) in *.
  assert (temp_file ≠ output_path) as Hto by apply video_temp_ne_output.
  assert (temp_file ≠ video_path) as Hti by apply video_temp_ne_input.
  rewrite unlink_if_exists_run. cbn [fst].
  set (w1 := if bool_decide (is_Some (files w !! temp_file))
             then written (delete temp_file) w else w).
  assert (files w1 = delete temp_file (files w)
          ∧ encoder_runs w1 = encoder_runs w) as [Hfiles Hruns].
  { subst w1. case_bool_decide as Hstale; [done |].
    split; [| done]. symmetry. apply delete_id. by apply eq_None_not_Some. }
  assert (files w1 !! video_path = Some original) as Hvideo1
    by (by rewrite Hfiles, lookup_delete_ne).
  assert (files w1 !! output_path = Some existing) as Hout1
    by (by rewrite Hfiles, lookup_delete_ne).
  assert (copy_video video_path output_path w1
          = (w1, Ret (success
                        (stats_for video_path (st_size original)
                           (st_size existing)) AlreadyExists))) as Hcopy.
  { unfold copy_video. rewrite bind_run, exists__run, Hout1. cbv beta iota.
    rewrite bool_decide_eq_true_2 by eauto.
    by rewrite bind_run, (calc_save_space_run _ _ _ original existing). }
  assert (encode_video e video_path rel output_path temp_file (Some bitrate)
            crf preset use_software w1
          = (w1, Ret (success
                        (stats_for video_path (st_size original)
                           (st_size existing)) AlreadyExists))) as Hencode.
  { unfold encode_video. rewrite bind_run, exists__run, Hout1.
    cbv beta iota. rewrite bool_decide_eq_true_2 by eauto.
    by rewrite bind_run, (calc_save_space_run _ _ _ original existing). }
  destruct (negb (probe =? 0) && negb (target =? 0) && (probe <=? target)).
  - by rewrite Hcopy.
  - by rewrite Hencode.
Qed.

(** The second run over [a.mp4] with the target [1M], the source being at
    2 Mb/s. *)
Lemma process_video_skips_existing_output_witness :
  let r :=
    process_video env_high_bitrate
      (clips // "a.mp4", clips, clips_out, Some "1M", None, None, false)
      clips_world_done in
  r.2 = Ret (success (stats_for (clips // "a.mp4") 900 300) AlreadyExists)
  ∧ files r.1 = delete (clips_out // "a.tmp..mp4") (files clips_world_done)
  ∧ encoder_runs r.1 = encoder_runs clips_world_done.
Proof.
  apply (process_video_skips_existing_output env_high_bitrate
           (clips // "a.mp4") clips clips_out (clips_out // "a.mp4")
           (clips_out // "a.tmp..mp4") "1M" None None false clips_world_done
           2000000 1048576 (mkFile 900 true) (mkFile 300 true));
    reflexivity.
Defined.


(** X6, the part of C1 that holds for videos.  [process_video] hands its
    command lines to the shell with the file names between double quotes.
    When these names and the options leave the shell nothing to expand (no
    double quote, dollar sign, backquote or backslash in the paths; bitrate,
    preset and encoder name made of letters, digits and [- . / : _]), and the
    source bitrate is above the target, so that the encoder is used and not
    the copy, a task started on a disk whose [output_path] holds no partial
    file keeps it so: in every state the disk passes through during the task,
    and at its end, [output_path] is absent or holds a whole file. *)
Theorem process_video_encoder_output_never_partial (e : env)
    (video_path input_base output_base output_path temp_file : Path)
    (bitrate : string) (crf : option Z) (preset : option string)
    (use_software : bool) (w : world) (probe target : Z) :
  video_output_path video_path input_base output_base = Some output_path ->
  video_temp_file video_path input_base output_base = Some temp_file ->
  shell_safe e video_path temp_file (Some bitrate) preset = true ->
  bitrate_probe e = Some probe ->
  (parse_bitrate (Some bitrate) w).2 = Ret (Some target) ->
  target < probe ->
  no_partial output_path (files w) ->
  let r :=
    process_video e
      (video_path, input_base, output_base, Some bitrate, crf, preset,
       use_software) w in
  (∃ new, history r.1 = history w ++ new
          ∧ Forall (no_partial output_path) new)
  ∧ no_partial output_path (files r.1).
Proof.
  intros Hpath Htemp Hsafe Hprobe Hparse Hlt Hwhole.
  destruct (video_paths _ _ _ _ Hpath) as (rel & Hrel & -> & Htemp').
  rewrite Htemp' in Htemp. injection Htemp as <-.
  assert (truthy_str (Some bitrate) = true) as Htruthy.
  { destruct (truthy_str (Some bitrate)) eqn:Ht; [done |].
    unfold parse_bitrate in Hparse. by rewrite Ht in Hparse. }
  cbv zeta. rewrite (process_video_unfold _ _ _ _ rel _ _ _ _ _ probe target)
    by done.
  assert ((probe <=? target) = false) as -> by lia.
  rewrite andb_false_r.
  set (output_path :=
         (output_base ++ PyPath.parent rel)
           // (PyPath.stem video_path +:+ PyPath.suffix video_path)) in *.
  set (temp_file :=
         (output_base ++ PyPath.parent rel)
           // (PyPath.stem video_path +:+ ".tmp."
               +:+ PyPath.suffix video_path)) in *.
  assert (temp_file ≠ output_path) as Hto by apply video_temp_ne_output.
  destruct (safe_unlink_if_exists temp_file (no_partial output_path)
              (fun m => no_partial_delete output_path temp_file m)
              w Hwhole I)
    as (Hduring1 & Hwhole1 & _ & Habsent).
  destruct (safe_encode_video temp_file (no_partial output_path)
              (fun m => no_partial_delete output_path temp_file m)
              (fun f m => no_partial_insert_ne output_path temp_file f m Hto)
              (fun p f m Hf _ =>
                 no_partial_insert_complete output_path p f m Hf)
              e video_path rel output_path (Some bitrate) crf preset
              use_software Htruthy Hsafe _ Hwhole1 Habsent)
    as (Hduring2 & Hwhole2 & _).
  split; [| done]. by eapply during_trans.
Qed.

(** [a.mp4] at 2 Mb/s with the target [1M], on the disk of a first
    run. *)
Lemma process_video_encoder_output_never_partial_witness :
  let r :=
    process_video env_high_bitrate
      (clips // "a.mp4", clips, clips_out, Some "1M", None, None, false)
      clips_world in
  (∃ new, history r.1 = history clips_world ++ new
          ∧ Forall (no_partial (clips_out // "a.mp4")) new)
  ∧ no_partial (clips_out // "a.mp4") (files r.1).
Proof.
  apply (process_video_encoder_output_never_partial env_high_bitrate
           (clips // "a.mp4") clips clips_out (clips_out // "a.mp4")
           (clips_out // "a.tmp..mp4")
           "1M" None None false clips_world 2000000 1048576).
  - reflexivity.
  - reflexivity.
  - reflexivity.
  - reflexivity.
  - reflexivity.
  - lia.
  - vm_compute. exact I.
Defined.

(** The copy writes the output only, and only where there is none. *)
Lemma copy_video_keeps (video_path output_path : Path) (w : world)
    (p : Path) (f : file) :
  files w !! p = Some f ->
  during (fun m => m !! p = Some f) w (copy_video video_path output_path w).1
  ∧ files (copy_video video_path output_path w).1 !! p = Some f.
Proof.
  intros Hp. unfold copy_video. rewrite bind_run, exists__run.
  cbv beta iota. case_bool_decide as Hout.
  - pose proof (pure_calc_save_space video_path output_path w) as Hpure.
    rewrite bind_run.
    destruct (calc_save_space video_path output_path w) as [w' [stats | exc]];
      cbn [fst] in Hpure; subst w'; (split; [apply during_refl | done]).
  - assert (p ≠ output_path) as Hne.
    { intros ->. apply Hout. by eexists. }
    rewrite bind_run. unfold shutil_copy2. rewrite bind_run, get_run.
    cbv beta iota.
    destruct (files w !! video_path) as [g |];
      [| split; [apply during_refl | done]].
    rewrite bind_run, write_run. cbv beta iota. rewrite write_run.
    cbv beta iota. rewrite bind_run.
    match goal with
    | |- context [calc_save_space ?i ?o ?s] =>
        pose proof (pure_calc_save_space i o s) as Hpure;
        destruct (calc_save_space i o s) as [w' [stats | exc]];
        cbn [fst] in Hpure; subst w'
    end.
    all: unfold mret, M_ret, written; cbn [fst snd files history]; split;
      [ eexists; split; [rewrite <-app_assoc; reflexivity |];
        repeat constructor; by rewrite ?lookup_insert_ne
      | by rewrite !lookup_insert_ne ].
Qed.

(** X8.  [process_video] hands its command lines to the shell with the
    file names between double quotes.  When these names and the options leave
    the shell nothing to expand, a task of [video_compress.py] changes no
    file that is there when it starts, but for its own temporary file: in
    every state the disk passes through, and at the end, such a file is there
    with the size and the content it had, on the path of the copy as on the
    path of the encoder and when the task raises.  This holds for the input
    video, which is never the temporary file, and for an output that
    exists. *)
Theorem process_video_keeps_other_files (e : env)
    (video_path input_base output_base : Path) (bitrate : option string)
    (crf : option Z) (preset : option string) (use_software : bool)
    (w : world) (p : Path) (f : file) :
  (∀ temp_file,
     video_temp_file video_path input_base output_base = Some temp_file ->
     shell_safe e video_path temp_file bitrate preset = true) ->
  files w !! p = Some f ->
  p = video_path ∨ video_temp_file video_path input_base output_base ≠ Some p ->
  let r :=
    process_video e
      (video_path, input_base, output_base, bitrate, crf, preset,
       use_software) w in
  (∃ new, history r.1 = history w ++ new
          ∧ Forall (fun m => m !! p = Some f) new)
  ∧ files r.1 !! p = Some f.
Proof.
  intros Hsafe Hp Hnot. cbv zeta.
  destruct (process_video_cases e video_path input_base output_base bitrate
              crf preset use_software w)
    as [[exc ->] | (rel & Hrel & Htruthy & Hcases)].
  { split; [apply during_refl | done]. }
  cbv zeta in Hcases.
  set (output_path :=
         (output_base ++ PyPath.parent rel)
           // (PyPath.stem video_path +:+ PyPath.suffix video_path)) in *.
  set (temp_file :=
         (output_base ++ PyPath.parent rel)
           // (PyPath.stem video_path +:+ ".tmp."
               +:+ PyPath.suffix video_path)) in *.
  assert (video_temp_file video_path input_base output_base = Some temp_file)
    as Htemp by (unfold video_temp_file; by rewrite Hrel).
  assert (p ≠ temp_file) as Hne.
  { destruct Hnot as [-> | Hnot].
    - intros Heq. by apply (video_temp_ne_input
                              (output_base ++ PyPath.parent rel) video_path).
    - intros ->. by apply Hnot. }
  destruct (safe_unlink_if_exists temp_file (fun m => m !! p = Some f)
              (fun m => kept_delete p temp_file f m Hne) w Hp I)
    as (Hduring1 & Hp1 & _ & Habsent).
  destruct Hcases as [-> | ->].
  - destruct (copy_video_keeps video_path output_path
                (unlink_if_exists temp_file w).1 p f Hp1) as [Hduring2 Hp2].
    split; [| done]. by eapply during_trans.
  - destruct (safe_encode_video temp_file (fun m => m !! p = Some f)
                (fun m => kept_delete p temp_file f m Hne)
                (fun g m => kept_insert p temp_file f g m Hne)
                (fun q g m _ Hq => kept_publish p q f g m Hq)
                e video_path rel output_path bitrate crf preset use_software
                Htruthy (Hsafe temp_file Htemp) _ Hp1 Habsent)
      as (Hduring2 & Hp2 & _).
    split; [| done]. by eapply during_trans.
Qed.

(** The video [a.mp4] is as before after its task. *)
Lemma process_video_keeps_other_files_witness :
  let r :=
    process_video env_high_bitrate
      (clips // "a.mp4", clips, clips_out, Some "1M", None, None, false)
      clips_world in
  (∃ new, history r.1 = history clips_world ++ new
          ∧ Forall (fun m => m !! (clips // "a.mp4") = Some (mkFile 900 true))
              new)
  ∧ files r.1 !! (clips // "a.mp4") = Some (mkFile 900 true).
Proof.
  apply (process_video_keeps_other_files env_high_bitrate (clips // "a.mp4")
           clips clips_out (Some "1M") None None false clips_world
           (clips // "a.mp4") (mkFile 900 true)).
  - by intros temp_file [= <-].
  - reflexivity.
  - by left.
Defined.

(** ** video_compress.py: failures of the encoder path *)

Lemma run_encoder_result (e : env) (target : Path) (w : world) :
  (run_encoder e target w).2
  = Ret (match encoder e with
         | NotFound => None
         | Exited returncode _ => Some returncode
         end)
  ∧ encoder_runs (run_encoder e target w).1 = S (encoder_runs w).
Proof.
  unfold run_encoder, count_encoder_run, exists_, write. unfold_M.
  destruct (encoder e) as [| returncode [size |]]; cbn; [done | |].
  - destruct (rival e) as [[published rsize] |]; cbn; [| done].
    by case_bool_decide.
  - destruct (rival e) as [[published rsize] |]; cbn; [| done].
    by case_bool_decide.
Qed.

Lemma execute_ffmpeg_fails (e : env) (cmd : list string) (temp_file : Path)
    (w : world) :
  shell_exit_code e ≠ 0 ->
  (execute_ffmpeg e cmd temp_file w).2
  = Raise (CalledProcessError (shell_exit_code e) "")
  ∧ encoder_runs (execute_ffmpeg e cmd temp_file w).1 = S (encoder_runs w).
Proof.
  intros Hcode. unfold execute_ffmpeg. rewrite bind_run.
  destruct (shell_substitutions_returns e cmd w) as [Hsub Hruns0].
  destruct (shell_substitutions e cmd w) as [w0 r0]. cbn [fst snd] in *.
  subst r0. rewrite bind_run.
  destruct (run_encoder_result e (shell_target e cmd temp_file) w0)
    as [Hr Hruns].
  destruct (run_encoder e (shell_target e cmd temp_file) w0) as [w' r].
  cbn [fst snd] in *. subst r. cbv zeta.
  assert (default 127 match encoder e with
                      | NotFound => None
                      | Exited returncode _ => Some returncode
                      end = shell_exit_code e) as ->.
  { unfold shell_exit_code. by destruct (encoder e). }
  rewrite (proj2 (Z.eqb_neq _ _) Hcode). unfold raise. cbn [negb fst snd].
  split; [done | congruence].
Qed.

(** X9.  The failure message of a video task never carries the error text
    of ffmpeg.  [execute_ffmpeg] has read the error stream to its end when it
    builds the exception, so the text it attaches is empty, and the handler
    of [process_video] then writes [Unknown error].  On the encoder path, with
    both bitrates known, a run of ffmpeg that ends with a nonzero exit code
    (127 when the shell does not find the program) gives the failure
    [rel_path (error code N: Unknown error)], after one run of the encoder,
    and no temporary file is left. *)
Theorem process_video_failure_says_unknown_error (e : env)
    (video_path input_base output_base rel output_path temp_file : Path)
    (bitrate : string) (crf : option Z) (preset : option string)
    (use_software : bool) (w : world) (probe target : Z) :
  PyPath.relative_to video_path input_base = Some rel ->
  video_output_path video_path input_base output_base = Some output_path ->
  video_temp_file video_path input_base output_base = Some temp_file ->
  bitrate_probe e = Some probe ->
  (parse_bitrate (Some bitrate) w).2 = Ret (Some target) ->
  target < probe ->
  use_software = true ∨ hardware_encoder e ≠ None ->
  files w !! output_path = None ->
  shell_exit_code e ≠ 0 ->
  let r :=
    process_video e
      (video_path, input_base, output_base, Some bitrate, crf, preset,
       use_software) w in
  r.2 = Ret (failure (MsgErrorCode rel (shell_exit_code e) "Unknown error"))
  ∧ files r.1 !! temp_file = None
  ∧ encoder_runs r.1 = S (encoder_runs w).
Proof.
  intros Hrel Hpath Htemp Hprobe Hparse Hlt Hhw Hout Hcode.
  unfold video_output_path in Hpath. unfold video_temp_file in Htemp.
  rewrite Hrel in Hpath, Htemp. cbn [mbind option_bind] in Hpath, Htemp.
  injection Hpath as <-. injection Htemp as <-.
  cbv zeta. rewrite (process_video_unfold _ _ _ _ rel _ _ _ _ _ probe target)
    by done.
  assert ((probe <=? target) = false) as -> by lia.
  rewrite andb_false_r.
  set (output_path :=
         (output_base ++ PyPath.parent rel)
           // (PyPath.stem video_path +:+ PyPath.suffix video_path)) in *.
  set (temp_file :=
         (output_base ++ PyPath.parent rel)
           // (PyPath.stem video_path +:+ ".tmp."
               +:+ PyPath.suffix video_path)) in *.
  assert (temp_file ≠ output_path) as Hto by apply video_temp_ne_output.
  rewrite unlink_if_exists_run. cbn [fst].
  set (w1 := if bool_decide (is_Some (files w !! temp_file))
             then written (delete temp_file) w else w).
  assert (files w1 !! output_path = None ∧ encoder_runs w1 = encoder_runs w)
    as [Hout1 Hruns1].
  { subst w1. case_bool_decide; [| done]. cbn.
    by rewrite lookup_delete_ne. }
  unfold encode_video. rewrite bind_run, exists__run, Hout1. cbv beta iota.
  rewrite bool_decide_eq_false_2 by (by intros [? ?]).
  cbv zeta. rewrite bind_run.
  destruct (prepare_ffmpeg_command_returns e video_path (get_ffmpeg_command e)
              (Some bitrate) crf preset use_software
              (get_video_bitrate e video_path) w1 Hhw) as (cmd & Hcmd & Hruns2).
  { exists (Some target). by rewrite (parse_bitrate_indep _ w1 w). }
  destruct (prepare_ffmpeg_command e video_path (get_ffmpeg_command e)
              (Some bitrate) crf preset use_software
              (get_video_bitrate e video_path) w1) as [w2 r2].
  cbn [fst snd] in Hcmd, Hruns2. subst r2.
  unfold try_except. rewrite bind_run.
  destruct (execute_ffmpeg_fails e
              (cmd ++ [PyStr.quoted (PyPath.str temp_file)]) temp_file w2
              Hcode) as [Hfail Hruns3].
  destruct (execute_ffmpeg e (cmd ++ [PyStr.quoted (PyPath.str temp_file)])
              temp_file w2) as [w3 r3].
  cbn [fst snd] in Hfail, Hruns3. subst r3.
  rewrite bind_run, unlink_if_exists_run. cbv beta iota. rewrite ret_run.
  cbn [fst snd PyStr.truthy].
  split_and!; [done | |].
  - case_bool_decide as Hthere; [apply lookup_delete_eq |].
    by apply eq_None_not_Some.
  - case_bool_decide; unfold written; cbn [encoder_runs]; congruence.
Qed.

(** [a.mp4] at 2 Mb/s with the target [1M] and an encoder that ends
    with exit code 1. *)
Lemma process_video_failure_says_unknown_error_witness :
  let r :=
    process_video env_high_bitrate_broken
      (clips // "a.mp4", clips, clips_out, Some "1M", None, None, false)
      clips_world in
  r.2 = Ret (failure (MsgErrorCode ["a.mp4"] 1 "Unknown error"))
  ∧ files r.1 !! (clips_out // "a.tmp..mp4") = None
  ∧ encoder_runs r.1 = 1%nat.
Proof.
  apply (process_video_failure_says_unknown_error env_high_bitrate_broken
           (clips // "a.mp4") clips clips_out ["a.mp4"]
           (clips_out // "a.mp4") (clips_out // "a.tmp..mp4")
           "1M" None None false clips_world 2000000 1048576).
  - reflexivity.
  - reflexivity.
  - reflexivity.
  - reflexivity.
  - reflexivity.
  - lia.
  - by right.
  - reflexivity.
  - by vm_compute.
Defined.

(** X10.  When the list of encoders cannot be read,
    [check_hardware_encoder] returns [None], and [prepare_ffmpeg_command],
    which unpacks the answer into two names, raises [TypeError].
    [process_video] prepares the command before its [try]: with hardware
    encoders allowed, the task of a video that is to be encoded then raises
    [TypeError] instead of returning a failure, and the encoder is not
    run. *)
Theorem process_video_unreadable_encoder_list_raises (e : env)
    (video_path input_base output_base output_path : Path)
    (bitrate : string) (crf : option Z) (preset : option string)
    (w : world) (probe target : Z) :
  video_output_path video_path input_base output_base = Some output_path ->
  bitrate_probe e = Some probe ->
  (parse_bitrate (Some bitrate) w).2 = Ret (Some target) ->
  target < probe ->
  files w !! output_path = None ->
  hardware_encoder e = None ->
  let r :=
    process_video e
      (video_path, input_base, output_base, Some bitrate, crf, preset, false)
      w in
  r.2 = Raise TypeError ∧ encoder_runs r.1 = encoder_runs w.
Proof.
  intros Hpath Hprobe Hparse Hlt Hout Hhw.
  destruct (video_paths _ _ _ _ Hpath) as (rel & Hrel & -> & _).
  cbv zeta. rewrite (process_video_unfold _ _ _ _ rel _ _ _ _ _ probe target)
    by done.
  assert ((probe <=? target) = false) as -> by lia.
  rewrite andb_false_r.
  set (output_path :=
         (output_base ++ PyPath.parent rel)
           // (PyPath.stem video_path +:+ PyPath.suffix video_path)) in *.
  set (temp_file :=
         (output_base ++ PyPath.parent rel)
           // (PyPath.stem video_path +:+ ".tmp."
               +:+ PyPath.suffix video_path)) in *.
  assert (temp_file ≠ output_path) as Hto by apply video_temp_ne_output.
  rewrite unlink_if_exists_run. cbn [fst].
  set (w1 := if bool_decide (is_Some (files w !! temp_file))
             then written (delete temp_file) w else w).
  assert (files w1 !! output_path = None ∧ encoder_runs w1 = encoder_runs w)
    as [Hout1 Hruns1].
  { subst w1. case_bool_decide; [| done]. cbn.
    by rewrite lookup_delete_ne. }
  unfold encode_video. rewrite bind_run, exists__run, Hout1. cbv beta iota.
  rewrite bool_decide_eq_false_2 by (by intros [? ?]).
  cbv zeta. rewrite bind_run.
  unfold prepare_ffmpeg_command, check_hardware_encoder.
  rewrite bind_run, Hhw. by cbn.
Qed.

(** [a.mp4] at 2 Mb/s with the target [1M], when the list of encoders
    cannot be read. *)
Lemma process_video_unreadable_encoder_list_raises_witness :
  let r :=
    process_video env_no_encoder_list
      (clips // "a.mp4", clips, clips_out, Some "1M", None, None, false)
      clips_world in
  r.2 = Raise TypeError ∧ encoder_runs r.1 = encoder_runs clips_world.
Proof.
  apply (process_video_unreadable_encoder_list_raises env_no_encoder_list
           (clips // "a.mp4") clips clips_out (clips_out // "a.mp4")
           "1M" None None clips_world 2000000 1048576).
  - reflexivity.
  - reflexivity.
  - reflexivity.
  - lia.
  - reflexivity.
  - reflexivity.
Defined.
